(** * leaflet.wms: the overlay update lifecycle, sub-layer bookkeeping,
      GetFeatureInfo requests and the URL-to-Source cache

    A shallow embedding of [leaflet.wms.js].  JavaScript objects are
    insertion-ordered property lists, the mutable objects of the program
    (map, Source, Overlay, image overlays, pending requests) live in one
    [world] record that every method transforms, and a method that can
    raise returns in the [result] monad.  What the host library (Leaflet,
    the DOM) supplies is gathered in the [Host] class. *)

From Stdlib Require Import ZArith Lia Ascii String.
From stdpp Require Import base tactics option strings list pretty gmap.

Open Scope string_scope.
Open Scope list_scope.

(** A decidable proposition over closed terms, settled by evaluation. *)
Ltac by_evaluation := apply (bool_decide_unpack _); vm_compute; exact I.

(** ** Results of fallible code *)

(** A call returns, throws, or goes on in code that is not followed
    here: a function of the caller whose result the program uses, or an
    object whose prototype is replaced. *)
Inductive result (A : Type) : Type :=
| Ok (a : A)
| Throw (e : string)
| Beyond (why : string).
Arguments Ok {A} a.
Arguments Throw {A} e.
Arguments Beyond {A} why.

#[global] Instance result_ret : MRet result := fun A a => Ok a.
#[global] Instance result_bind : MBind result :=
  fun A B f m =>
    match m with Ok a => f a | Throw e => Throw e | Beyond y => Beyond y end.

(** A loop whose body can throw. *)
Fixpoint each {A S : Type} (f : S → A → result S) (l : list A) (s : S)
  : result S :=
  match l with
  | [] => Ok s
  | a :: r => s' ← f s a; each f r s'
  end.

(** ** JavaScript objects used as maps

    An object is the list of its own enumerable properties in the order
    [Object.keys] and [for ... in] enumerate them: array-index keys first,
    in ascending numeric order, then the other keys in the order they
    were created.  Its prototype is [Object.prototype], whose members
    are not enumerable: a read [o[k]] finds them when [o] has no own
    property [k], and an assignment to [__proto__] finds the setter
    among them. *)
Module Js.

(** The names of the members of [Object.prototype]. *)
Definition inherited : list string :=
  ["constructor"; "hasOwnProperty"; "isPrototypeOf"; "propertyIsEnumerable";
   "toLocaleString"; "toString"; "valueOf"; "__proto__";
   "__defineGetter__"; "__defineSetter__"; "__lookupGetter__";
   "__lookupSetter__"].

(** [k] names a member of [Object.prototype]; each of them is truthy. *)
Definition inherits (k : string) : bool := bool_decide (k ∈ inherited).

Definition digit_of (a : ascii) : option N :=
  let n := Ascii.N_of_ascii a in
  if ((48 <=? n) && (n <=? 57))%N then Some (n - 48)%N else None.

Fixpoint digits_value (s : string) (acc : N) : option N :=
  match s with
  | EmptyString => Some acc
  | String a r =>
      match digit_of a with
      | Some d => digits_value r (10 * acc + d)%N
      | None => None
      end
  end.

(** [array_index k] is [Some n] when [k] is the canonical decimal spelling
    of an array index [n] (an integer below 2^32 - 1). *)
Definition array_index (k : string) : option N :=
  match k with
  | EmptyString => None
  | String a r =>
      if bool_decide (a = "0"%char) && negb (bool_decide (r = EmptyString))
      then None
      else match digits_value k 0 with
           | Some n => if (n <? 4294967295)%N then Some n else None
           | None => None
           end
  end.

(** Objects with values in [V]. *)
Abbreviation obj V := (list (string * V)) (only parsing).

Section Obj.
Context {V : Type}.

Definition keys (o : obj V) : list string := o.*1.

Fixpoint get (k : string) (o : obj V) : option V :=
  match o with
  | [] => None
  | (k', v) :: r => if bool_decide (k' = k) then Some v else get k r
  end.

Definition has (k : string) (o : obj V) : bool :=
  match get k o with Some _ => true | None => false end.

(** Assignment to a property that exists keeps its place. *)
Fixpoint replace (k : string) (v : V) (o : obj V) : obj V :=
  match o with
  | [] => []
  | (k', v') :: r =>
      if bool_decide (k' = k) then (k, v) :: r else (k', v') :: replace k v r
  end.

(** A new array-index key goes before the first key that is not an array
    index or is a larger one. *)
Fixpoint insert_index (n : N) (k : string) (v : V) (o : obj V) : obj V :=
  match o with
  | [] => [(k, v)]
  | (k', v') :: r =>
      match array_index k' with
      | Some n' =>
          if (n' <? n)%N then (k', v') :: insert_index n k v r
          else (k, v) :: o
      | None => (k, v) :: o
      end
  end.

(** The own property [k] is given the value [v], and created if [o] has
    none of that name. *)
Definition define (k : string) (v : V) (o : obj V) : obj V :=
  if has k o then replace k v o
  else match array_index k with
       | Some n => insert_index n k v o
       | None => o ++ [(k, v)]
       end.

(** [o[k] = v].  For [__proto__] on an object without an own property of
    that name the assignment reaches the setter of [Object.prototype],
    which creates no property.  (Handed an object or [null] that setter
    replaces the prototype of [o]: see [L_extend] below for where a
    value of the caller can get there.) *)
Definition set (k : string) (v : V) (o : obj V) : obj V :=
  if bool_decide (k = "__proto__") && negb (has k o) then o
  else define k v o.

(** [delete o[k]] *)
Definition delete (k : string) (o : obj V) : obj V :=
  filter (fun e => e.1 ≠ k) o.

(** [for (i in src) dest[i] = src[i]], the loop of [L.extend(dest, src)]. *)
Definition extend (dest src : obj V) : obj V :=
  fold_left (fun d e => set e.1 e.2 d) src dest.

(** An object literal [{k1: v1, ...}]. *)
Definition literal (l : list (string * V)) : obj V := extend [] l.

End Obj.

End Js.

(** [Array.prototype.join] on an array of strings. *)
Definition join (sep : string) (l : list string) : string :=
  String.concat sep l.

(** ** [parseFloat]

    The value of the longest prefix that is a decimal literal, kept
    exactly as a signed decimal; comparisons with a Number literal are
    decided on that exact value. *)
Inductive parsed : Type :=
| NaN
| Infinite (neg : bool)
| Decimal (neg : bool) (m : N) (e : Z).   (* +/- m * 10^e *)

(** Leading white space, as far as it is ASCII. *)
Fixpoint skip_white (s : string) : string :=
  match s with
  | String a r =>
      let n := Ascii.N_of_ascii a in
      if ((9 <=? n) && (n <=? 13) || (n =? 32))%N then skip_white r else s
  | EmptyString => s
  end.

(** The longest run of digits at the head of [s]: the accumulated value,
    the number of digits read, and the rest. *)
Fixpoint read_digits (s : string) (acc : N) (cnt : nat) : N * nat * string :=
  match s with
  | String a r =>
      match Js.digit_of a with
      | Some d => read_digits r (10 * acc + d)%N (S cnt)
      | None => (acc, cnt, s)
      end
  | EmptyString => (acc, cnt, s)
  end.

Definition read_sign (s : string) : bool * string :=
  match s with
  | String "-" r => (true, r)
  | String "+" r => (false, r)
  | _ => (false, s)
  end.

Definition read_exponent (s : string) : Z :=
  match s with
  | String a r =>
      if bool_decide (a = "e"%char) || bool_decide (a = "E"%char) then
        let '(neg, r') := read_sign r in
        let '(v, cnt, _) := read_digits r' 0 0 in
        match cnt with
        | O => 0%Z
        | S _ => if neg then (- Z.of_N v)%Z else Z.of_N v
        end
      else 0%Z
  | EmptyString => 0%Z
  end.

Definition parseFloat (s : string) : parsed :=
  let '(neg, s1) := read_sign (skip_white s) in
  if String.prefix "Infinity" s1 then Infinite neg
  else
    let '(ip, ni, s2) := read_digits s1 0 0 in
    let '(m, nf, s3) :=
      match s2 with
      | String "." r => read_digits r ip 0
      | _ => (ip, O, s2)
      end in
    match (ni + nf)%nat with
    | O => NaN
    | S _ => Decimal neg m (read_exponent s3 - Z.of_nat nf)
    end.

(** [x >= 1.3] for [x] the Number nearest to the parsed decimal.  The
    literal [1.3] is the double 5854679515581645 / 2^52, its predecessor
    has an even significand, so a decimal rounds to at least [1.3] exactly
    when it lies strictly above the midpoint
    11709359031163289 / 2^53.  [NaN >= 1.3] is false.  (Rounding is to
    nearest, ties to even, on the exact decimal, as engines do it.) *)
Definition ge_1_3 (p : parsed) : bool :=
  match p with
  | NaN => false
  | Infinite neg => negb neg
  | Decimal neg m e =>
      negb neg &&
      (if (0 <=? e)%Z
       then (11709359031163289 <? Z.of_N m * 10 ^ e * 2 ^ 53)%Z
       else (11709359031163289 * 10 ^ (- e) <? Z.of_N m * 2 ^ 53)%Z)
  end.

(** ** The host library

    Numbers, geographic coordinates and coordinate reference systems are
    the host's; the program only converts them to strings, tests them and
    hands them back. *)
Class HostTypes : Type := {
  num : Type;            (* JavaScript Numbers *)
  latlng : Type;         (* L.LatLng *)
  crs : Type;            (* CRS objects, compared by identity *)
  crs_eq_dec :: EqDecision crs;
  tile_layer : Type;     (* L.TileLayer.WMS objects *)
}.

Section Values.
Context {HT : HostTypes}.

Record point : Type := { px : num; py : num }.

Record bounds : Type := {
  getNorthWest : latlng;
  getSouthEast : latlng;
}.

Inductive value : Type :=
| VUndef
| VNull
| VBool (b : bool)
| VNum (n : num)
| VStr (s : string)
| VFun (f : nat)         (* a function object, named by its identity *)
| VCrs (c : crs).

(** [o[k]] for a name [k] that is not a member of [Object.prototype]:
    [undefined] when the property is missing. *)
Definition prop (k : string) (o : Js.obj value) : value :=
  default VUndef (Js.get k o).

(** Objects and [null]: what the setter of [__proto__] takes as a new
    prototype. *)
Definition is_prototype (v : value) : bool :=
  match v with
  | VNull | VFun _ | VCrs _ => true
  | _ => false
  end.

(** [L.extend(dest, src)] where [src] comes from the caller.  It is not
    followed when [src] has an own property [hasOwnProperty], which the
    host's loop may call, or when the assignment of [src.__proto__]
    replaces the prototype of [dest]. *)
Definition L_extend (dest src : Js.obj value) : result (Js.obj value) :=
  if Js.has "hasOwnProperty" src
  then Beyond "src.hasOwnProperty is not the inherited one"
  else if is_prototype (prop "__proto__" src) && Js.has "__proto__" src
          && negb (Js.has "__proto__" dest)
  then Beyond "the prototype of dest is replaced"
  else Ok (Js.extend dest src).

End Values.

Class Host {HT : HostTypes} : Type := {
  num_to_string : num -> string;     (* ToString on a Number *)
  num_truthy : num -> bool;          (* ToBoolean: neither 0 nor NaN *)
  num_0 : num;
  num_1 : num;
  fun_to_string : nat -> string;     (* ToString on a function *)
  crs_code : crs -> value;           (* crs.code *)
  crs_project : crs -> latlng -> point;
  EPSG4326 : crs;                    (* L.CRS.EPSG4326 *)
  (* L.Util.getParamString(obj, existingUrl, uppercase) *)
  getParamString : Js.obj value -> string -> bool -> string;
  (* the resolved address an <img> reports as its src *)
  image_src : string -> string;
  (* L.tileLayer.wms(url, options) *)
  tileLayer_wms : string -> Js.obj value -> tile_layer;
}.

Section Model.
Context {HT : HostTypes} {HH : Host}.

(** ToBoolean *)
Definition truthy (v : value) : bool :=
  match v with
  | VUndef | VNull => false
  | VBool b => b
  | VNum n => num_truthy n
  | VStr s => negb (bool_decide (s = ""))
  | VFun _ | VCrs _ => true
  end.

(** ToString *)
Definition to_string (v : value) : string :=
  match v with
  | VUndef => "undefined"
  | VNull => "null"
  | VBool true => "true"
  | VBool false => "false"
  | VNum n => num_to_string n
  | VStr s => s
  | VFun f => fun_to_string f
  | VCrs _ => "[object Object]"
  end.

(** *** The objects of the program *)

(** Layers a map can hold: the Source, its Overlay, and the image
    overlays the Overlay creates, named by their position in the heap. *)
Inductive layer : Type :=
| LSource
| LOverlay
| LImage (i : nat).

#[global] Instance layer_eq_dec : EqDecision layer.
Proof. solve_decision. Defined.

(** An [L.ImageOverlay] created by [update]. *)
Record image_overlay : Type := {
  io_url : string;           (* _url *)
  io_bounds : bounds;
  io_opacity : value;        (* options.opacity *)
  io_load_once : bool;       (* the once('load', _swap) listener is pending *)
}.

(** The host map: viewport, layers, popup and cursor. *)
Record map : Type := {
  m_bounds : bounds;         (* getBounds() *)
  m_size : point;            (* getSize() *)
  m_crs : crs;               (* options.crs *)
  m_layers : list layer;     (* _layers *)
  m_popup : option (string * latlng);
  m_cursor : string;         (* _container.style.cursor *)
}.

Record overlay : Type := {
  ov_url : string;                 (* _url *)
  ov_options : Js.obj value;       (* options *)
  wmsParams : Js.obj value;
  onError : value;                 (* undefined unless configured *)
  ov_map : bool;                   (* _map is set *)
  _currentUrl : option string;
  _currentOverlay : option nat;
}.

Record source : Type := {
  src_url : string;                (* _url *)
  _subLayers : Js.obj bool;
  src_options : Js.obj value;      (* options *)
  src_map : bool;                  (* _map is set *)
}.

(** What a GetFeatureInfo response is handed to. *)
Inductive hook : Type :=
| ShowFeatureInfo            (* this.showFeatureInfo *)
| Callback (f : nat).        (* a function of the caller *)

(** An XMLHttpRequest in flight, with what its [done] closure captured. *)
Record xhr : Type := {
  x_url : string;
  x_latlng : latlng;
  x_callback : hook;
}.

(** Calls made into code of the caller. *)
Inductive call : Type :=
| CallOnError (f : nat) (error : string) (url : string)
| CallCallback (f : nat) (ll : latlng) (text : string).

Record world : Type := {
  the_map : map;
  images : list image_overlay;
  ov : overlay;
  src : source;
  calls : list call;
  requests : list xhr;
}.

(** Field updates. *)
Definition map_with_layers (m : map) (l : list layer) : map :=
  {| m_bounds := m_bounds m; m_size := m_size m; m_crs := m_crs m;
     m_layers := l; m_popup := m_popup m; m_cursor := m_cursor m |}.

Definition map_with_view (m : map) (b : bounds) (s : point) : map :=
  {| m_bounds := b; m_size := s; m_crs := m_crs m;
     m_layers := m_layers m; m_popup := m_popup m; m_cursor := m_cursor m |}.

Definition map_with_popup (m : map) (p : option (string * latlng)) : map :=
  {| m_bounds := m_bounds m; m_size := m_size m; m_crs := m_crs m;
     m_layers := m_layers m; m_popup := p; m_cursor := m_cursor m |}.

Definition map_with_cursor (m : map) (c : string) : map :=
  {| m_bounds := m_bounds m; m_size := m_size m; m_crs := m_crs m;
     m_layers := m_layers m; m_popup := m_popup m; m_cursor := c |}.

Definition ov_with_wmsParams (o : overlay) (p : Js.obj value) : overlay :=
  {| ov_url := ov_url o; ov_options := ov_options o; wmsParams := p;
     onError := onError o; ov_map := ov_map o;
     _currentUrl := _currentUrl o; _currentOverlay := _currentOverlay o |}.

Definition ov_with_map (o : overlay) (b : bool) : overlay :=
  {| ov_url := ov_url o; ov_options := ov_options o; wmsParams := wmsParams o;
     onError := onError o; ov_map := b;
     _currentUrl := _currentUrl o; _currentOverlay := _currentOverlay o |}.

Definition ov_with_currentUrl (o : overlay) (u : option string) : overlay :=
  {| ov_url := ov_url o; ov_options := ov_options o; wmsParams := wmsParams o;
     onError := onError o; ov_map := ov_map o;
     _currentUrl := u; _currentOverlay := _currentOverlay o |}.

Definition ov_with_currentOverlay (o : overlay) (c : option nat) : overlay :=
  {| ov_url := ov_url o; ov_options := ov_options o; wmsParams := wmsParams o;
     onError := onError o; ov_map := ov_map o;
     _currentUrl := _currentUrl o; _currentOverlay := c |}.

Definition src_with_subLayers (s : source) (l : Js.obj bool) : source :=
  {| src_url := src_url s; _subLayers := l; src_options := src_options s;
     src_map := src_map s |}.

Definition src_with_options (s : source) (o : Js.obj value) : source :=
  {| src_url := src_url s; _subLayers := _subLayers s; src_options := o;
     src_map := src_map s |}.

Definition src_with_map (s : source) (b : bool) : source :=
  {| src_url := src_url s; _subLayers := _subLayers s;
     src_options := src_options s; src_map := b |}.

Definition with_map (w : world) (m : map) : world :=
  {| the_map := m; images := images w; ov := ov w; src := src w;
     calls := calls w; requests := requests w |}.

Definition with_images (w : world) (l : list image_overlay) : world :=
  {| the_map := the_map w; images := l; ov := ov w; src := src w;
     calls := calls w; requests := requests w |}.

Definition with_ov (w : world) (o : overlay) : world :=
  {| the_map := the_map w; images := images w; ov := o; src := src w;
     calls := calls w; requests := requests w |}.

Definition with_src (w : world) (s : source) : world :=
  {| the_map := the_map w; images := images w; ov := ov w; src := s;
     calls := calls w; requests := requests w |}.

Definition with_calls (w : world) (c : list call) : world :=
  {| the_map := the_map w; images := images w; ov := ov w; src := src w;
     calls := c; requests := requests w |}.

Definition with_requests (w : world) (r : list xhr) : world :=
  {| the_map := the_map w; images := images w; ov := ov w; src := src w;
     calls := calls w; requests := r |}.

(** *** The map's layer registry, after Leaflet's [addLayer], [hasLayer]
    and [removeLayer]: adding a layer the map holds and removing one it
    does not hold do nothing. *)
Definition hasLayer (l : layer) (w : world) : bool :=
  bool_decide (l ∈ m_layers (the_map w)).

Definition register_layer (l : layer) (w : world) : world :=
  with_map w (map_with_layers (the_map w) (m_layers (the_map w) ++ [l])).

Definition unregister_layer (l : layer) (w : world) : world :=
  with_map w (map_with_layers (the_map w)
                (filter (fun l' => l' ≠ l) (m_layers (the_map w)))).

End Model.

(** ** wms.Overlay *)
Module Overlay.
Section Overlay.
Context {HT : HostTypes} {HH : Host}.

Definition defaultWmsParams : Js.obj value :=
  Js.literal
    [("service", VStr "WMS"); ("request", VStr "GetMap");
     ("version", VStr "1.1.1"); ("layers", VStr ""); ("styles", VStr "");
     ("format", VStr "image/jpeg"); ("transparent", VBool false)].

Definition optNames : Js.obj value :=
  Js.literal
    [("crs", VBool true); ("uppercase", VBool true); ("tiled", VBool true);
     ("identify", VBool true); ("opacity", VBool true);
     ("attribution", VBool true)].

(** The option names the constructor recognizes. *)
Definition recognized : list string :=
  ["crs"; "uppercase"; "tiled"; "identify"; "opacity"; "attribution"].

(** The names the constructor leaves in [options]: those of [optNames]
    and those of the members of [Object.prototype]. *)
Definition unmoved : list string := recognized ++ Js.inherited.

(** [options.hasOwnProperty(opt)]: the method is looked up in [options]
    itself first. *)
Definition hasOwnProperty (options : Js.obj value) (opt : string)
  : result bool :=
  match Js.get "hasOwnProperty" options with
  | None => Ok (Js.has opt options)
  | Some (VFun _) => Beyond "options.hasOwnProperty is a function of the caller"
  | Some _ => Throw "TypeError: options.hasOwnProperty is not a function"
  end.

(** [optNames[opt]] as a condition: an own property of [optNames], or a
    member of [Object.prototype]. *)
Definition in_optNames (opt : string) : bool :=
  truthy (prop opt optNames) || Js.inherits opt.

(** One turn of the loop that moves WMS parameters out of [options]:
    [if (options.hasOwnProperty(opt) && !optNames[opt])
       { params[opt] = options[opt]; delete options[opt]; }] *)
Definition move_param (st : Js.obj value * Js.obj value) (opt : string)
  : result (Js.obj value * Js.obj value) :=
  let '(params, options) := st in
  own ← hasOwnProperty options opt;
  if own && negb (in_optNames opt)
  then Ok (Js.set opt (prop opt options) params, Js.delete opt options)
  else Ok st.

(** [L.setOptions(this, options)] for a class without default options:
    a fresh copy of [options]. *)
Definition setOptions (options : option (Js.obj value))
  : result (Js.obj value) :=
  L_extend [] (default [] options).

(** [initialize(url, options)]: the new Overlay, and the caller's
    [options] object as the constructor leaves it. *)
Definition initialize (url : string) (options : option (Js.obj value))
  : result (overlay * option (Js.obj value)) :=
  let on_error :=
    match options with
    | Some o => if truthy (prop "onError" o) then prop "onError" o else VUndef
    | None => VUndef
    end in
  '(params, options') ←
    match options with
    | Some o =>
        '(p, o') ← each move_param (Js.keys o) ([], o);
        Ok (p, Some o')
    | None => Ok ([], None)
    end;
  opts ← setOptions options';
  Ok ({| ov_url := url;
         ov_options := opts;
         wmsParams := Js.extend (Js.extend [] defaultWmsParams) params;
         onError := on_error;
         ov_map := false;
         _currentUrl := None;
         _currentOverlay := None |},
      options').

(** [this.options.crs || map.options.crs], as the object whose [project]
    is called next. *)
Definition chosen_crs (m : map) (o : overlay) : result crs :=
  let c := prop "crs" (ov_options o) in
  if truthy c then
    match c with
    | VCrs x => Ok x
    | _ => Throw "TypeError: crs.project is not a function"
    end
  else Ok (m_crs m).

(** [parseFloat(this.wmsParams.version) >= 1.3] *)
Definition version_ge_1_3 (o : overlay) : bool :=
  ge_1_3 (parseFloat (to_string (prop "version" (wmsParams o)))).

Definition projectionKey (o : overlay) : string :=
  if version_ge_1_3 o then "crs" else "srs".

Definition bbox (o : overlay) (c : crs) (nw se : point) : string :=
  join ","
    (num_to_string <$>
       (if version_ge_1_3 o && bool_decide (c = EPSG4326)
        then [py se; px nw; py nw; px se]
        else [px nw; py se; px se; py nw])).

(** The spatial parameters [updateWmsParams] computes for a viewport. *)
Definition spatial_params (m : map) (o : overlay) (c : crs) : Js.obj value :=
  let nw := crs_project c (getNorthWest (m_bounds m)) in
  let se := crs_project c (getSouthEast (m_bounds m)) in
  Js.set "bbox" (VStr (bbox o c nw se))
    (Js.set (projectionKey o) (crs_code c)
       (Js.literal
          [("width", VNum (px (m_size m))); ("height", VNum (py (m_size m)))])).

Definition updateWmsParams (m : map) (o : overlay) : result overlay :=
  c ← chosen_crs m o;
  Ok (ov_with_wmsParams o (Js.extend (wmsParams o) (spatial_params m o c))).

Definition getImageUrl (o : overlay) : string :=
  ov_url o +:+
  getParamString (wmsParams o) (ov_url o)
    (truthy (prop "uppercase" (ov_options o))).

(** Begin loading a new image at [url], the Overlay being [o]: the
    image overlay is created transparent, added to the map, and its
    [load] and [error] listeners are registered. *)
Definition issue (url : string) (o : overlay) (w : world) : world :=
  register_layer (LImage (length (images w)))
    (with_images (with_ov w (ov_with_currentUrl o (Some url)))
       (images w ++
          [{| io_url := url; io_bounds := m_bounds (the_map w);
              io_opacity := VNum num_0; io_load_once := true |}])).

(** [update()] *)
Definition update (w : world) : result world :=
  if negb (ov_map (ov w)) then Ok w
  else
    o ← updateWmsParams (the_map w) (ov w);
    let url := getImageUrl o in
    if bool_decide (_currentUrl o = Some url) then Ok (with_ov w o)
    else Ok (issue url o w).

Definition image_with_opacity (g : image_overlay) (v : value) : image_overlay :=
  {| io_url := io_url g; io_bounds := io_bounds g; io_opacity := v;
     io_load_once := io_load_once g |}.

Definition image_loaded (g : image_overlay) : image_overlay :=
  {| io_url := io_url g; io_bounds := io_bounds g; io_opacity := io_opacity g;
     io_load_once := false |}.

(** [overlay.setOpacity(v)] on image overlay [i]. *)
Definition setOpacity (i : nat) (v : value) (w : world) : world :=
  with_images w (alter (fun g => image_with_opacity g v) i (images w)).

(** The [_swap] closure of the [update] call that created image [i]. *)
Definition _swap (i : nat) (g : image_overlay) (w : world) : world :=
  if negb (ov_map (ov w)) then w
  else if negb (bool_decide (Some (io_url g) = _currentUrl (ov w)))
  then unregister_layer (LImage i) w
  else
    let w1 :=
      match _currentOverlay (ov w) with
      | Some c => unregister_layer (LImage c) w
      | None => w
      end in
    let opacity := prop "opacity" (ov_options (ov w)) in
    setOpacity i (if truthy opacity then opacity else VNum num_1)
      (with_ov w1 (ov_with_currentOverlay (ov w1) (Some i))).

(** Image [i] fires [load]: the listener registered with [once] runs at
    most once. *)
Definition image_load (i : nat) (w : world) : result world :=
  match images w !! i with
  | Some g =>
      if io_load_once g
      then Ok (_swap i g
                 (with_images w (alter image_loaded i (images w))))
      else Ok w
  | None => Ok w
  end.

(** Image [i] fires [error]. *)
Definition image_error (i : nat) (w : world) : result world :=
  match images w !! i with
  | Some g =>
      match onError (ov w) with
      | VUndef => Ok w
      | VFun f =>
          Ok (with_calls w
                (calls w ++
                   [CallOnError f "Failed to load layer" (image_src (io_url g))]))
      | _ => Throw "TypeError: this.onError is not a function"
      end
  | None => Ok w
  end.

(** [setParams(params)] *)
Definition setParams (params : Js.obj value) (w : world) : result world :=
  merged ← L_extend (wmsParams (ov w)) params;
  update (with_ov w (ov_with_wmsParams (ov w) merged)).

(** [onAdd(map)] *)
Definition onAdd (w : world) : result world :=
  update (with_ov w (ov_with_map (ov w) true)).

(** [onRemove(map)] *)
Definition onRemove (w : world) : world :=
  let w1 :=
    match _currentOverlay (ov w) with
    | Some c =>
        let w' := unregister_layer (LImage c) w in
        with_ov w' (ov_with_currentOverlay (ov w') None)
    | None => w
    end in
  let w2 :=
    match _currentUrl (ov w1) with
    | Some u =>
        if bool_decide (u = "") then w1
        else with_ov w1 (ov_with_currentUrl (ov w1) None)
    | None => w1
    end in
  with_ov w2 (ov_with_map (ov w2) false).

(** [overlay.addTo(map)], that is [map.addLayer(overlay)]. *)
Definition addTo (w : world) : result world :=
  if hasLayer LOverlay w then Ok w
  else onAdd (register_layer LOverlay w).

(** [map.removeLayer(overlay)] *)
Definition removeFrom (w : world) : world :=
  if hasLayer LOverlay w then unregister_layer LOverlay (onRemove w)
  else w.

(** The map fires [moveend] with a new viewport; the handler the Overlay
    registered is [update]. *)
Definition moveend (b : bounds) (s : point) (w : world) : result world :=
  update (with_map w (map_with_view (the_map w) b s)).

(** The reference system [update] is to use is a CRS object. *)
Definition crs_ok (w : world) : Prop :=
  ∃ c, chosen_crs (the_map w) (ov w) = Ok c.

(** The calls that reach [update] on an Overlay. *)
Inductive trigger : Type :=
| Update                               (* update() *)
| SetParams (params : Js.obj value)    (* setParams(params) *)
| MoveEnd (b : bounds) (s : point).    (* the map's moveend event *)

Definition fire (t : trigger) (w : world) : result world :=
  match t with
  | Update => update w
  | SetParams params => setParams params w
  | MoveEnd b s => moveend b s w
  end.

End Overlay.
End Overlay.

(** ** wms.Source *)
Module Source.
Section Source.
Context {HT : HostTypes} {HH : Host}.

(** The class's default options. *)
Definition options : Js.obj value :=
  Js.literal [("tiled", VBool false); ("identify", VBool true)].

(** [L.setOptions(this, options)]:
    [this.options = L.extend({}, this.options, options)]. *)
Definition setOptions (opts : option (Js.obj value))
  : result (Js.obj value) :=
  L_extend (Js.extend [] options) (default [] opts).

(** [createOverlay(url, options)]: the overlay object, and [options] as
    the Overlay constructor leaves it. *)
Definition createOverlay (url : string) (opts : Js.obj value)
  : result ((overlay + tile_layer) * Js.obj value) :=
  if truthy (prop "tiled" opts) then Ok (inr (tileLayer_wms url opts), opts)
  else
    '(o, opts') ← Overlay.initialize url (Some opts);
    Ok (inl o, default opts opts').

(** [initialize(url, options)]: the new Source and the overlay it owns. *)
Definition initialize (url : string) (opts : option (Js.obj value))
  : result (source * (overlay + tile_layer)) :=
  merged ← setOptions opts;
  '(o, opts') ← createOverlay url merged;
  Ok ({| src_url := url; _subLayers := []; src_options := opts';
         src_map := false |}, o).

(** [refreshOverlay()], the Source owning the world's Overlay. *)
Definition refreshOverlay (w : world) : result world :=
  let subLayers := join "," (Js.keys (_subLayers (src w))) in
  if negb (src_map (src w)) then Ok w
  else if bool_decide (subLayers = "") then Ok (Overlay.removeFrom w)
  else
    w1 ← Overlay.setParams (Js.literal [("layers", VStr subLayers)]) w;
    Overlay.addTo w1.

Definition addSubLayer (name : string) (w : world) : result world :=
  refreshOverlay
    (with_src w
       (src_with_subLayers (src w) (Js.set name true (_subLayers (src w))))).

Definition removeSubLayer (name : string) (w : world) : result world :=
  refreshOverlay
    (with_src w
       (src_with_subLayers (src w) (Js.delete name (_subLayers (src w))))).

(** Calls of the sub-layer interface, and a run of them. *)
Inductive sub_call : Type :=
| AddSubLayer (name : string)
| RemoveSubLayer (name : string).

Definition sub_name (c : sub_call) : string :=
  match c with AddSubLayer n | RemoveSubLayer n => n end.

(** The names the theorems on sub-layers are about: not the empty name,
    whose join is the empty string, and not [__proto__], which
    [addSubLayer] does not register. *)
Definition plain_name (n : string) : Prop := n ≠ "" ∧ n ≠ "__proto__".

Definition sub_apply (c : sub_call) (w : world) : result world :=
  match c with
  | AddSubLayer n => addSubLayer n w
  | RemoveSubLayer n => removeSubLayer n w
  end.

Fixpoint run (l : list sub_call) (w : world) : result world :=
  match l with
  | [] => Ok w
  | c :: r => w' ← sub_apply c w; run r w'
  end.

(** The set of active sub-layers after a run of calls, from the set [s]
    before it. *)
Definition active (s : gset string) (l : list sub_call) : gset string :=
  fold_left
    (fun s c =>
       match c with
       | AddSubLayer n => {[n]} ∪ s
       | RemoveSubLayer n => s ∖ {[n]}
       end) l s.

(** The calls that change the set of registered names:
    [addSubLayer("__proto__")] creates no property of [_subLayers]. *)
Definition registers (c : sub_call) : bool :=
  match c with
  | AddSubLayer n => negb (bool_decide (n = "__proto__"))
  | RemoveSubLayer _ => true
  end.

(** The Overlay's [_map] is set exactly when the map holds the Overlay. *)
Definition consistent (w : world) : Prop :=
  ov_map (ov w) = hasLayer LOverlay w.

(** A Source attached to a map, in a state the program keeps: the
    Overlay's [_map] agrees with the map, its reference system is a CRS
    object, and no sub-layer has the empty name. *)
Definition ready (w : world) : Prop :=
  src_map (src w) = true ∧ consistent w ∧ Overlay.crs_ok w ∧
  NoDup (Js.keys (_subLayers (src w))) ∧ "" ∉ Js.keys (_subLayers (src w)).

(** [onAdd(map)] *)
Definition onAdd (w : world) : result world :=
  refreshOverlay (with_src w (src_with_map (src w) true)).

(** [source.addTo(map)] *)
Definition addTo (w : world) : result world :=
  if hasLayer LSource w then Ok w
  else onAdd (register_layer LSource w).

(** [getFeatureInfoParams(point, layers)]: the parameters, and the world
    after the call (tiled mode builds a scratch Overlay from
    [this.options]).  The last line, [L.extend({}, wmsParams,
    infoParams)], copies the parameters of an Overlay, none of which is
    named [hasOwnProperty] or [__proto__] (see [plain_steps] and
    [plain_copy] below): it is the copy property by property. *)
Definition getFeatureInfoParams (p : point) (layers : list string) (w : world)
  : result (Js.obj value * world) :=
  let infoParams :=
    Js.literal
      [("request", VStr "GetFeatureInfo");
       ("query_layers", VStr (join "," layers));
       ("X", VNum (px p)); ("Y", VNum (py p))] in
  if truthy (prop "tiled" (src_options (src w))) then
    '(o, opts') ←
      Overlay.initialize (src_url (src w)) (Some (src_options (src w)));
    let w1 :=
      with_src w
        (src_with_options (src w) (default (src_options (src w)) opts')) in
    if negb (src_map (src w))
    then Throw "TypeError: map is undefined"
    else
      o1 ← Overlay.updateWmsParams (the_map w) o;
      let wmsParams1 := Js.set "layers" (VStr (join "," layers)) (wmsParams o1) in
      Ok (Js.extend (Js.extend [] wmsParams1) infoParams, w1)
  else
    Ok (Js.extend (Js.extend [] (wmsParams (ov w))) infoParams, w).

(** [parseFeatureInfo(result, url)] *)
Definition parseFeatureInfo (result url : string) : string :=
  if bool_decide (result = "error")
  then "<iframe src='" +:+ url +:+ "' style='border:none'>"
  else result.

(** [showFeatureInfo(latlng, info)] *)
Definition showFeatureInfo (ll : latlng) (info : string) (w : world) : world :=
  if negb (src_map (src w)) then w
  else with_map w (map_with_popup (the_map w) (Some (info, ll))).

Definition showWaiting (w : world) : world :=
  if negb (src_map (src w)) then w
  else with_map w (map_with_cursor (the_map w) "progress").

Definition hideWaiting (w : world) : world :=
  if negb (src_map (src w)) then w
  else with_map w (map_with_cursor (the_map w) "default").

(** [ajax(url, callback)]: the request is sent; [x] is what the callback
    closes over. *)
Definition ajax (x : xhr) (w : world) : world :=
  with_requests w (requests w ++ [x]).

(** [getFeatureInfo(point, latlng, layers, callback)] *)
Definition getFeatureInfo (p : point) (ll : latlng) (layers : list string)
    (callback : hook) (w : world) : result world :=
  '(params, w1) ← getFeatureInfoParams p layers w;
  let url :=
    src_url (src w1) +:+ getParamString params (src_url (src w1)) false in
  Ok (ajax {| x_url := url; x_latlng := ll; x_callback := callback |}
        (showWaiting w1)).

(** [callback.call(this, latlng, text)] *)
Definition call_hook (h : hook) (ll : latlng) (text : string) (w : world)
  : world :=
  match h with
  | ShowFeatureInfo => showFeatureInfo ll text w
  | Callback f => with_calls w (calls w ++ [CallCallback f ll text])
  end.

(** The [done] closure of a [getFeatureInfo] call. *)
Definition done (x : xhr) (result : string) (w : world) : world :=
  let w1 := hideWaiting w in
  let text := parseFeatureInfo result (x_url x) in
  call_hook (x_callback x) (x_latlng x) text w1.

(** The [change] handler of request [i], run when the request reports
    [readyState], [status] and [responseText]. *)
Definition change (i : nat) (readyState status : nat) (responseText : string)
    (w : world) : result world :=
  match requests w !! i with
  | Some x =>
      if bool_decide (readyState = 4) then
        if bool_decide (status = 200) then Ok (done x responseText w)
        else Ok (done x "error" w)
      else Ok w
  | None => Ok w
  end.

(** The names [getFeatureInfoParams] sets. *)
Definition info_keys : list string := ["request"; "query_layers"; "X"; "Y"].

(** The text the hook is handed when a request completes with [status]
    and [body], having been sent to [url]. *)
Definition delivered (status : nat) (body url : string) : string :=
  parseFeatureInfo (if bool_decide (status = 200) then body else "error") url.

(** [onRemove()], inherited from the backported [L.Layer]:
    [delete this._map].  The Overlay is not touched. *)
Definition onRemove (w : world) : world :=
  with_src w (src_with_map (src w) false).

(** [map.removeLayer(source)] *)
Definition removeFrom (w : world) : world :=
  if hasLayer LSource w then unregister_layer LSource (onRemove w) else w.

(** [getIdentifyLayers()]: the sub-layer names, unless
    [options.identifyLayers] is set; that option's value is handed back as
    it is, and is an array, for which this development has no values:
    [None] then. *)
Definition getIdentifyLayers (w : world) : option (list string) :=
  if truthy (prop "identifyLayers" (src_options (src w))) then None
  else Some (Js.keys (_subLayers (src w))).

(** The body of [identify(evt)] once [getIdentifyLayers()] has returned
    the array [layers]. *)
Definition identify_with (layers : list string) (containerPoint : point)
    (ll : latlng) (w : world) : result world :=
  if bool_decide (layers = []) then Ok w
  else getFeatureInfo containerPoint ll layers ShowFeatureInfo w.

(** [identify(evt)], where [getIdentifyLayers()] is modelled. *)
Definition identify (containerPoint : point) (ll : latlng) (w : world)
  : option (result world) :=
  layers ← getIdentifyLayers w;
  Some (identify_with layers containerPoint ll w).

End Source.
End Source.

(** ** The cache of Sources used by the auto-source option *)
Module Cache.
Section Cache.
Context {HT : HostTypes} {HH : Host}.

(** The Sources created so far, named by their position, and the
    [sources] object that maps a URL to one of them. *)
Record registry : Type := {
  heap : list (source * (overlay + tile_layer));
  sources : Js.obj nat;
}.

(** What [sources[url]] can be: a Source, or the member of
    [Object.prototype] that [url] names. *)
Inductive cached : Type :=
| Source_at (s : nat)
| Inherited (name : string).

(** [wms.getSourceForUrl(url, options)]: what is returned and the
    registry after the call.  [sources[url]] is an own property of
    [sources], which holds a Source, or else a member of
    [Object.prototype], which is truthy too: only when it is neither is
    a Source created and stored. *)
Definition getSourceForUrl (url : string) (opts : option (Js.obj value))
    (r : registry) : result (cached * registry) :=
  match Js.get url (sources r) with
  | Some s => Ok (Source_at s, r)
  | None =>
      if Js.inherits url then Ok (Inherited url, r)
      else
        x ← Source.initialize url opts;
        let s := length (heap r) in
        Ok (Source_at s,
            {| heap := heap r ++ [x]; sources := Js.set url s (sources r) |})
  end.

(** A run of lookups, each of which returns. *)
Definition lookups (l : list (string * option (Js.obj value))) (r : registry)
  : result registry :=
  each (fun r c => '(_, r') ← getSourceForUrl c.1 c.2 r; Ok r') l r.

(** Every URL the cache holds names a Source of that URL. *)
Definition ok (r : registry) : Prop :=
  ∀ u s, Js.get u (sources r) = Some s →
         ∃ x, heap r !! s = Some x ∧ src_url x.1 = u.

End Cache.
End Cache.

(** ** wms.Layer *)
Module Layer.
Section Layer.
Context {HT : HostTypes} {HH : Host}.

(** A Layer: what [getSourceForUrl] returned or the Source it was handed,
    by reference, and a name. *)
Record layer_obj : Type := {
  _source : Cache.cached;
  _name : string;
}.

(** [initialize(source, layerName, options)]: [source] is a URL (a value
    without [addSubLayer]) or a Source. *)
Definition initialize (source : string + nat) (layerName : string)
    (opts : option (Js.obj value)) (r : Cache.registry)
  : result (layer_obj * Cache.registry) :=
  match source with
  | inl url =>
      '(s, r') ← Cache.getSourceForUrl url opts r;
      Ok ({| _source := s; _name := layerName |}, r')
  | inr s => Ok ({| _source := Cache.Source_at s; _name := layerName |}, r)
  end.

(** [wms.layer(source, options)]: [new wms.Layer(source, options)], so
    its second argument is the layer name and no options are passed. *)
Definition layer (source : string + nat) (options : string)
    (r : Cache.registry) : result (layer_obj * Cache.registry) :=
  initialize source options None r.

(** [source.getLayer(name)] *)
Definition getLayer (s : nat) (name : string) (r : Cache.registry)
  : result (layer_obj * Cache.registry) :=
  layer (inr s) name r.

(** [onAdd(map)] of a Layer named [name] whose Source is the world's. *)
Definition onAdd (name : string) (w : world) : result world :=
  w1 ← (if negb (src_map (src w)) then Source.addTo w else Ok w);
  Source.addSubLayer name w1.

(** [onRemove()] *)
Definition onRemove (name : string) (w : world) : result world :=
  Source.removeSubLayer name w.

End Layer.
End Layer.

(** ** Everything that can happen to a world *)
Module Events.
Section Events.
Context {HT : HostTypes} {HH : Host}.

Inductive event : Type :=
| Fire (t : Overlay.trigger)            (* update, setParams, moveend *)
| ImageLoad (i : nat)
| ImageError (i : nat)
| OverlayAdd                            (* overlay.addTo(map) *)
| OverlayRemove                         (* map.removeLayer(overlay) *)
| Sub (c : Source.sub_call)             (* addSubLayer, removeSubLayer *)
| SourceAdd                             (* source.addTo(map) *)
| SourceRemove                          (* map.removeLayer(source) *)
| LayerAdd (name : string)              (* a Layer is added to the map *)
| LayerRemove (name : string)           (* ... and removed *)
| GetFeatureInfo (p : point) (ll : latlng) (layers : list string) (h : hook)
| Change (i : nat) (readyState status : nat) (responseText : string).

Definition step (e : event) (w : world) : result world :=
  match e with
  | Fire t => Overlay.fire t w
  | ImageLoad i => Overlay.image_load i w
  | ImageError i => Overlay.image_error i w
  | OverlayAdd => Overlay.addTo w
  | OverlayRemove => Ok (Overlay.removeFrom w)
  | Sub c => Source.sub_apply c w
  | SourceAdd => Source.addTo w
  | SourceRemove => Ok (Source.removeFrom w)
  | LayerAdd name => Layer.onAdd name w
  | LayerRemove name => Layer.onRemove name w
  | GetFeatureInfo p ll layers h => Source.getFeatureInfo p ll layers h w
  | Change i readyState status responseText =>
      Source.change i readyState status responseText w
  end.

Fixpoint steps (l : list event) (w : world) : result world :=
  match l with
  | [] => Ok w
  | e :: r => w' ← step e w; steps r w'
  end.

(** What the Overlay keeps true of its images: [_map] is set exactly
    when the map holds the Overlay; the displayed image is an image
    overlay that has loaded and is on the map; an Overlay that is off
    the map displays none; image overlays still awaiting [load] are on
    the map; every image overlay on the map other than the displayed
    one has the opacity 0 it was created with; and no name occurs twice
    among the WMS parameters. *)
Record kept (w : world) : Prop := {
  kept_map : ov_map (ov w) = hasLayer LOverlay w;
  kept_current :
    ∀ c, _currentOverlay (ov w) = Some c →
         ov_map (ov w) = true ∧
         LImage c ∈ m_layers (the_map w) ∧
         ∃ g, images w !! c = Some g ∧ io_load_once g = false;
  kept_layers :
    ∀ i, LImage i ∈ m_layers (the_map w) → is_Some (images w !! i);
  kept_pending :
    ∀ i g, images w !! i = Some g → io_load_once g = true →
           LImage i ∈ m_layers (the_map w);
  kept_hidden :
    ∀ i g, images w !! i = Some g → LImage i ∈ m_layers (the_map w) →
           _currentOverlay (ov w) ≠ Some i → io_opacity g = VNum num_0;
  kept_params : NoDup (Js.keys (wmsParams (ov w)));
}.

(** No WMS parameter is named [hasOwnProperty] or [__proto__]: with
    such parameters [L.extend] copies them property by property. *)
Definition plain (w : world) : Prop :=
  Js.has "hasOwnProperty" (wmsParams (ov w)) = false ∧
  Js.has "__proto__" (wmsParams (ov w)) = false.

(** The world of a Source and the Overlay it owns, with no image overlay
    yet and nothing in flight, on a map that holds neither. *)
Definition fresh (m : map) (s : source) (o : overlay) : world :=
  {| the_map := map_with_layers m []; images := [];
     ov := o; src := s; calls := []; requests := [] |}.

End Events.
End Events.

(** ** A concrete host, for running the model

    Numbers are integers printed in decimal, a geographic coordinate is
    the pair of its planar coordinates, every CRS projects a coordinate to
    the point with the same two components, and [getParamString] is
    Leaflet's, over ASCII. *)
Module ZHost.

Inductive std_crs : Type := EPSG3857 | EPSG4326_ | EPSG3395.

#[global] Instance std_crs_eq_dec : EqDecision std_crs.
Proof. solve_decision. Defined.

Definition types : HostTypes :=
  {| num := Z; latlng := Z * Z; crs := std_crs; tile_layer := string |}.

Definition code (c : std_crs) : string :=
  match c with
  | EPSG3857 => "EPSG:3857"
  | EPSG4326_ => "EPSG:4326"
  | EPSG3395 => "EPSG:3395"
  end.

Definition show (v : @value types) : string :=
  match v with
  | VUndef => "undefined"
  | VNull => "null"
  | VBool true => "true"
  | VBool false => "false"
  | VNum n => pretty (n : Z)
  | VStr s => s
  | VFun f => "function () { [native code] }"
  | VCrs _ => "[object Object]"
  end.

Definition hex_digit (n : N) : ascii :=
  Ascii.ascii_of_N (if (n <? 10)%N then 48 + n else 55 + n)%N.

(** [encodeURIComponent], [toUpperCase] and [indexOf('?')] on ASCII
    text. *)
Definition unreserved (a : ascii) : bool :=
  let n := Ascii.N_of_ascii a in
  ((48 <=? n) && (n <=? 57) || (65 <=? n) && (n <=? 90)
   || (97 <=? n) && (n <=? 122))%N
  || bool_decide (a ∈ ["-"; "_"; "."; "!"; "~"; "*"; "'"; "("; ")"]%char).

Fixpoint encodeURIComponent (s : string) : string :=
  match s with
  | EmptyString => EmptyString
  | String a r =>
      if unreserved a then String a (encodeURIComponent r)
      else
        let n := Ascii.N_of_ascii a in
        String "%" (String (hex_digit (n / 16)) (String (hex_digit (n mod 16))
          (encodeURIComponent r)))
  end.

Fixpoint toUpperCase (s : string) : string :=
  match s with
  | EmptyString => EmptyString
  | String a r =>
      let n := Ascii.N_of_ascii a in
      String (if ((97 <=? n) && (n <=? 122))%N
              then Ascii.ascii_of_N (n - 32) else a)
        (toUpperCase r)
  end.

Fixpoint has_question_mark (s : string) : bool :=
  match s with
  | EmptyString => false
  | String a r => bool_decide (a = "?"%char) || has_question_mark r
  end.

Definition paramString (o : Js.obj (@value types)) (existingUrl : string)
    (uppercase : bool) : string :=
  (if has_question_mark existingUrl then "&" else "?") +:+
  join "&"
    ((fun e : string * @value types =>
        encodeURIComponent (if uppercase then toUpperCase e.1 else e.1)
        +:+ "=" +:+ encodeURIComponent (show e.2)) <$> o).

Definition host : @Host types :=
  {| num_to_string := fun n : @num types => pretty (n : Z);
     num_truthy := fun n : @num types => negb (Z.eqb n 0);
     num_0 := 0%Z : @num types;
     num_1 := 1%Z : @num types;
     fun_to_string := fun _ => "function () { [native code] }";
     crs_code := fun c : @crs types => VStr (code c);
     crs_project := fun (_ : @crs types) (p : @latlng types) =>
                      {| px := p.1 : @num types; py := p.2 |};
     EPSG4326 := EPSG4326_ : @crs types;
     getParamString := paramString;
     image_src := fun u => u;
     tileLayer_wms := fun u _ => u : @tile_layer types |}.

End ZHost.

(** ** Sample worlds on the concrete host *)
Module Sample.

#[local] Existing Instance ZHost.types.
#[local] Existing Instance ZHost.host.

Definition url : string := "http://example.org/wms".

(** A map whose viewport has the projected corners NW = (10, 20) and
    SE = (5, 15), 256 by 128 pixels, in EPSG:3857. *)
Definition viewport : map :=
  {| m_bounds := {| getNorthWest := (10, 20)%Z; getSouthEast := (5, 15)%Z |};
     m_size := {| px := 256%Z; py := 128%Z |};
     m_crs := ZHost.EPSG3857;
     m_layers := []; m_popup := None; m_cursor := "" |}.

Definition or_else {A : Type} (d : A) (r : result A) : A :=
  match r with Ok a => a | _ => d end.

(** An Overlay with nothing in it, and a Source likewise: what the
    samples fall back on. *)
Definition no_overlay : overlay :=
  {| ov_url := ""; ov_options := []; wmsParams := []; onError := VUndef;
     ov_map := false; _currentUrl := None; _currentOverlay := None |}.

Definition no_source : source :=
  {| src_url := ""; _subLayers := []; src_options := []; src_map := false |}.

(** [wms.overlay(url, options)] *)
Definition new_overlay (options : option (Js.obj value)) : overlay :=
  (or_else (no_overlay, None) (Overlay.initialize url options)).1.

(** [wms.source(url, options)] *)
Definition new_source (options : option (Js.obj value)) : source :=
  (or_else (no_source, inl no_overlay) (Source.initialize url options)).1.

(** Overlays for versions 1.1.1 (the default) and 1.3.0. *)
Definition overlay_111 : overlay := new_overlay None.

Definition overlay_130 : overlay :=
  new_overlay (Some (Js.literal [("version", VStr "1.3.0")])).

Definition overlay_130_4326 : overlay :=
  new_overlay
    (Some (Js.literal [("version", VStr "1.3.0");
                       ("crs", VCrs ZHost.EPSG4326_)])).

(** [wms.source(url, {onError: f7})], not yet on the map. *)
Definition start : world :=
  let '(s, o) :=
    or_else (no_source, inl no_overlay)
      (Source.initialize url (Some (Js.literal [("onError", VFun 7)]))) in
  {| the_map := viewport; images := [];
     ov := match o with inl o => o | inr _ => overlay_111 end;
     src := s; calls := []; requests := [] |}.

(** ... added to the map, ... *)
Definition attached : world := or_else start (Source.addTo start).

(** ... showing the sub-layer [roads], ... *)
Definition showing : world :=
  or_else attached (Source.addSubLayer "roads" attached).

(** Two more viewports. *)
Definition bounds_1 : bounds :=
  {| getNorthWest := (20, 40)%Z; getSouthEast := (10, 30)%Z |}.

Definition bounds_2 : bounds :=
  {| getNorthWest := (30, 60)%Z; getSouthEast := (15, 45)%Z |}.

Definition size : point := {| px := 256%Z; py := 128%Z |}.

(** ... after the map moved once and twice, ... *)
Definition moved_once : world :=
  or_else showing (Overlay.moveend bounds_1 size showing).

Definition moved_twice : world :=
  or_else moved_once (Overlay.moveend bounds_2 size moved_once).

(** ... and with a GetFeatureInfo request in flight. *)
Definition querying : world :=
  or_else showing
    (Source.getFeatureInfo {| px := 3%Z; py := 4%Z |} (7, 8)%Z ["roads"]
       ShowFeatureInfo showing).

(** Three parameters, two of them spatial. *)
Definition partial : Js.obj value :=
  Js.literal [("styles", VStr "dark"); ("width", VNum 1%Z);
              ("bbox", VStr "0,0,1,1")].

(** Options for an Overlay: two WMS parameters, two recognized options. *)
Definition options : Js.obj value :=
  Js.literal [("layers", VStr "roads"); ("opacity", VNum 1%Z);
              ("onError", VFun 7); ("tiled", VBool false)].

Definition empty_registry : Cache.registry :=
  {| Cache.heap := []; Cache.sources := [] |}.

(** The world of [wms.source(url, options)] on the sample map, before
    anything has happened. *)
Definition fresh : world :=
  Events.fresh viewport (new_source (Some options))
    (new_overlay (Some (or_else [] (Source.setOptions (Some options))))).

(** The Source is added and shows [roads]: a first image is requested. *)
Definition request_script : list Events.event :=
  [Events.SourceAdd; Events.Sub (Source.AddSubLayer "roads")].

Definition requested : world :=
  or_else fresh (Events.steps request_script fresh).

(** Then the map moves, the second image loads, and the first one. *)
Definition script : list Events.event :=
  request_script ++
  [Events.Fire (Overlay.MoveEnd bounds_1 size);
   Events.ImageLoad 1; Events.ImageLoad 0].

Definition after_script : world :=
  or_else fresh (Events.steps script fresh).

(** An Overlay of its own with [opacity: 0], and the world after it is
    added to the sample map: its first image is requested. *)
Definition faint_options : Js.obj value :=
  Js.literal [("layers", VStr "roads"); ("opacity", VNum 0%Z)].

Definition faint_fresh : world :=
  Events.fresh viewport (src start) (new_overlay (Some faint_options)).

Definition faint : world :=
  or_else faint_fresh (Events.steps [Events.OverlayAdd] faint_fresh).

(** A click: the pixel and the position on the map. *)
Definition pixel : point := {| px := 3%Z; py := 4%Z |}.

Definition position : latlng := (7, 8)%Z.

(** A Source in tiled mode with a WMS parameter among its options, on
    the sample map. *)
Definition tiled : world :=
  with_src attached
    (src_with_map
       (new_source
          (Some (Js.literal [("tiled", VBool true); ("styles", VStr "dark")])))
       true).

(** A Source that is on no map with [roads] registered. *)
Definition recorded : world :=
  or_else start (Source.addSubLayer "roads" start).

(** Parameters as [JSON.parse] makes them from a text with the two
    members [styles] and [__proto__]: both are own properties. *)
Definition proto_partial : Js.obj value :=
  [("styles", VStr "dark"); ("__proto__", VStr "x")].



(** The tiled Source, on no map. *)
Definition tiled_detached : world :=
  with_src start
    (new_source
       (Some (Js.literal [("tiled", VBool true); ("styles", VStr "dark")]))).

End Sample.

(** * Properties *)

(** ** Version numbers *)

Example parseFloat_111 : parseFloat "1.1.1" = Decimal false 11 (-1).
Proof. reflexivity. Qed.

Example version_tests :
  ge_1_3 (parseFloat "1.1.1") = false ∧
  ge_1_3 (parseFloat "1.3.0") = true ∧
  ge_1_3 (parseFloat "1.3") = true ∧
  ge_1_3 (parseFloat " 2") = true ∧
  ge_1_3 (parseFloat "1.29999999999999993") = false ∧
  ge_1_3 (parseFloat "13e-1") = true ∧
  ge_1_3 (parseFloat "undefined") = false.
Proof. repeat split; reflexivity. Qed.

(** ** Objects as maps *)

(** Array-index keys are enumerated first, in numeric order; a key that
    is assigned again keeps its place. *)
Example keys_order :
  Js.keys (Js.literal [("b", 1); ("10", 2); ("a", 3); ("9", 4); ("b", 5);
                       ("01", 6)])
  = ["9"; "10"; "b"; "a"; "01"].
Proof. reflexivity. Qed.

Section JsFacts.
Context {V : Type}.
Implicit Types (o d s : Js.obj V) (k : string) (v : V).

Lemma get_None k o : Js.get k o = None ↔ k ∉ Js.keys o.
Proof.
  induction o as [|[k' v'] r IH]; simpl.
  - split; [intros _; apply not_elem_of_nil | done].
  - case_bool_decide as E.
    + subst. split; [done | intros Hn; exfalso; apply Hn; left].
    + rewrite IH, not_elem_of_cons.
      split; [intros ?; split; [congruence | done] | by intros [_ ?]].
Qed.

Lemma get_Some_elem_of k v o : Js.get k o = Some v → (k, v) ∈ o.
Proof.
  induction o as [|[k' v'] r IH]; simpl; [done |].
  case_bool_decide; [intros [= ->]; subst; left | right; auto].
Qed.

Lemma get_is_Some k o : is_Some (Js.get k o) ↔ k ∈ Js.keys o.
Proof.
  rewrite <- not_eq_None_Some, get_None.
  split; [apply dec_stable | auto].
Qed.

Lemma has_true k o : Js.has k o = true ↔ k ∈ Js.keys o.
Proof.
  unfold Js.has. rewrite <- get_is_Some.
  destruct (Js.get k o); (split; [eauto; done | by intros [? ?]]).
Qed.

Lemma has_false k o : Js.has k o = false ↔ k ∉ Js.keys o.
Proof. rewrite <- has_true. destruct (Js.has k o); naive_solver. Qed.

Lemma NoDup_get k v o : NoDup (Js.keys o) → (k, v) ∈ o → Js.get k o = Some v.
Proof.
  induction o as [|[k' v'] r IH]; simpl; intros ND Hin.
  - by apply elem_of_nil in Hin.
  - apply NoDup_cons in ND as [Hk ND].
    apply elem_of_cons in Hin as [[= -> ->] | Hin].
    + by rewrite bool_decide_true.
    + case_bool_decide; [| auto].
      subst. exfalso. apply Hk.
      apply list_elem_of_fmap. by exists (k, v).
Qed.

Lemma keys_replace k v o : Js.keys (Js.replace k v o) = Js.keys o.
Proof.
  induction o as [|[k' v'] r IH]; simpl; [done |].
  case_bool_decide; simpl; [by subst | by rewrite IH].
Qed.

Lemma get_replace_eq k v o :
  k ∈ Js.keys o → Js.get k (Js.replace k v o) = Some v.
Proof.
  induction o as [|[k' v'] r IH]; simpl; intros Hin.
  - by apply elem_of_nil in Hin.
  - case_bool_decide; simpl.
    + by rewrite bool_decide_true.
    + rewrite bool_decide_false by done.
      apply IH. by apply elem_of_cons in Hin as [-> |].
Qed.

Lemma get_replace_ne k k' v o :
  k ≠ k' → Js.get k (Js.replace k' v o) = Js.get k o.
Proof.
  intros Hne. induction o as [|[k1 v1] r IH]; simpl; [done |].
  case_bool_decide; simpl.
  - subst. by rewrite !bool_decide_false.
  - by rewrite IH.
Qed.

Lemma keys_insert_index n k v o :
  Js.keys (Js.insert_index n k v o) ≡ₚ k :: Js.keys o.
Proof.
  induction o as [|[k' v'] r IH]; simpl; [done |].
  destruct (Js.array_index k') as [n'|]; [| done].
  destruct (n' <? n)%N; simpl; [| done].
  rewrite IH. apply Permutation_swap.
Qed.

Lemma get_insert_index_eq n k v o :
  k ∉ Js.keys o → Js.get k (Js.insert_index n k v o) = Some v.
Proof.
  induction o as [|[k' v'] r IH]; simpl; intros Hk.
  - by rewrite bool_decide_true.
  - apply not_elem_of_cons in Hk as [Hne Hk].
    destruct (Js.array_index k') as [n'|]; simpl.
    + destruct (n' <? n)%N; simpl.
      * rewrite bool_decide_false by done. auto.
      * by rewrite bool_decide_true.
    + by rewrite bool_decide_true.
Qed.

Lemma get_insert_index_ne n k k' v o :
  k ≠ k' → Js.get k (Js.insert_index n k' v o) = Js.get k o.
Proof.
  intros Hne. induction o as [|[k1 v1] r IH]; simpl.
  - by rewrite bool_decide_false.
  - destruct (Js.array_index k1) as [n'|]; simpl.
    + destruct (n' <? n)%N; simpl.
      * by rewrite IH.
      * by rewrite (bool_decide_false (k' = k)).
    + by rewrite (bool_decide_false (k' = k)).
Qed.

Lemma get_app_l k o o' :
  k ∈ Js.keys o → Js.get k (o ++ o') = Js.get k o.
Proof.
  induction o as [|[k1 v1] r IH]; simpl; intros Hin.
  - by apply elem_of_nil in Hin.
  - case_bool_decide; [done |].
    apply IH. by apply elem_of_cons in Hin as [-> |].
Qed.

Lemma get_app_r k o o' :
  k ∉ Js.keys o → Js.get k (o ++ o') = Js.get k o'.
Proof.
  induction o as [|[k1 v1] r IH]; simpl; intros Hin; [done |].
  apply not_elem_of_cons in Hin as [Hne Hin].
  rewrite bool_decide_false by done. auto.
Qed.

Lemma get_define_eq k v o : Js.get k (Js.define k v o) = Some v.
Proof.
  unfold Js.define. destruct (Js.has k o) eqn:E.
  - apply get_replace_eq. by apply has_true.
  - apply has_false in E.
    destruct (Js.array_index k); [by apply get_insert_index_eq |].
    rewrite get_app_r by done. simpl. by rewrite bool_decide_true.
Qed.

Lemma get_define_ne k k' v o :
  k ≠ k' → Js.get k (Js.define k' v o) = Js.get k o.
Proof.
  intros Hne. unfold Js.define. destruct (Js.has k' o) eqn:E.
  - by apply get_replace_ne.
  - destruct (Js.array_index k'); [by apply get_insert_index_ne |].
    destruct (decide (k ∈ Js.keys o)) as [Hin | Hin].
    + by apply get_app_l.
    + rewrite get_app_r by done. simpl.
      rewrite (bool_decide_false (k' = k)) by done.
      symmetry. by apply get_None.
Qed.

Lemma keys_define_perm k v o :
  Js.keys (Js.define k v o) ≡ₚ
  if Js.has k o then Js.keys o else k :: Js.keys o.
Proof.
  unfold Js.define. destruct (Js.has k o).
  - by rewrite keys_replace.
  - destruct (Js.array_index k); [apply keys_insert_index |].
    unfold Js.keys. rewrite fmap_app. simpl.
    by rewrite <- Permutation_cons_append.
Qed.

(** An assignment is a definition, except the one that reaches the
    setter of [__proto__]. *)
Lemma set_define k v o :
  k ≠ "__proto__" ∨ Js.has k o = true → Js.set k v o = Js.define k v o.
Proof.
  intros Hk. unfold Js.set. case_bool_decide as E; [| done].
  destruct (Js.has k o); [done |]. by destruct Hk.
Qed.

Lemma set_proto v o :
  Js.has "__proto__" o = false → Js.set "__proto__" v o = o.
Proof. intros Hh. unfold Js.set. by rewrite Hh. Qed.

Lemma get_set_eq k v o :
  k ≠ "__proto__" → Js.get k (Js.set k v o) = Some v.
Proof. intros Hk. rewrite set_define by auto. apply get_define_eq. Qed.

Lemma get_set_ne k k' v o : k ≠ k' → Js.get k (Js.set k' v o) = Js.get k o.
Proof.
  intros Hne. unfold Js.set. destruct (_ && _); [done |].
  by apply get_define_ne.
Qed.

Lemma get_set k k' v o :
  k' ≠ "__proto__" →
  Js.get k (Js.set k' v o) = if decide (k = k') then Some v else Js.get k o.
Proof.
  intros Hk. case_decide; [subst; by apply get_set_eq | by apply get_set_ne].
Qed.

(** The setter of [__proto__] gives the object no property. *)
Lemma get_set_proto v o :
  Js.get "__proto__" o = None → Js.get "__proto__" (Js.set "__proto__" v o) = None.
Proof.
  intros Hn. rewrite set_proto; [done |]. unfold Js.has. by rewrite Hn.
Qed.

Lemma replace_id k v o : Js.get k o = Some v → Js.replace k v o = o.
Proof.
  induction o as [|[k' v'] r IH]; simpl; [done |].
  case_bool_decide; [by intros [= ->]; subst | intros; f_equal; auto].
Qed.

(** Writing the value a property already has changes nothing. *)
Lemma set_id k v o : Js.get k o = Some v → Js.set k v o = o.
Proof.
  intros Hg. unfold Js.set, Js.define, Js.has. rewrite Hg.
  rewrite andb_false_r. by apply replace_id.
Qed.

Lemma keys_set_perm k v o :
  k ≠ "__proto__" →
  Js.keys (Js.set k v o) ≡ₚ
  if Js.has k o then Js.keys o else k :: Js.keys o.
Proof. intros Hk. rewrite set_define by auto. apply keys_define_perm. Qed.

Lemma elem_of_keys_set k k' v o :
  k' ≠ "__proto__" →
  k ∈ Js.keys (Js.set k' v o) ↔ k = k' ∨ k ∈ Js.keys o.
Proof.
  intros Hk. rewrite keys_set_perm by done. destruct (Js.has k' o) eqn:E.
  - apply has_true in E. split; [auto | by intros [-> | ?]].
  - by rewrite elem_of_cons.
Qed.

(** In general an assignment adds at most its own name, and [__proto__]
    never. *)
Lemma elem_of_keys_set_any k k' v o :
  k ∈ Js.keys (Js.set k' v o) ↔
  (k = k' ∧ k' ≠ "__proto__") ∨ k ∈ Js.keys o.
Proof.
  destruct (decide (k' = "__proto__")) as [-> | Hk].
  - destruct (Js.has "__proto__" o) eqn:E.
    + rewrite set_define by auto. rewrite keys_define_perm, E.
      split; [auto | by intros [[_ ?] | ?]].
    + rewrite set_proto by done. split; [auto | by intros [[_ ?] | ?]].
  - rewrite elem_of_keys_set by done.
    split; [intros [-> | ?]; auto | intros [[-> _] | ?]; auto].
Qed.

Lemma NoDup_keys_set k v o :
  NoDup (Js.keys o) → NoDup (Js.keys (Js.set k v o)).
Proof.
  intros ND. unfold Js.set. destruct (_ && _); [done |].
  rewrite keys_define_perm. destruct (Js.has k o) eqn:E; [done |].
  apply has_false in E. by apply NoDup_cons.
Qed.

Lemma keys_delete k o :
  Js.keys (Js.delete k o) = filter (fun k' => k' ≠ k) (Js.keys o).
Proof.
  induction o as [|[k' v'] r IH]; [done |].
  unfold Js.delete, Js.keys in *. rewrite fmap_cons. simpl.
  destruct (decide (k' = k)) as [-> | Hne].
  - rewrite !filter_cons_False by (simpl; intros Hx; by apply Hx). apply IH.
  - rewrite !filter_cons_True by (simpl; auto).
    rewrite fmap_cons. simpl. f_equal. apply IH.
Qed.

Lemma elem_of_keys_delete k k' o :
  k ∈ Js.keys (Js.delete k' o) ↔ k ≠ k' ∧ k ∈ Js.keys o.
Proof. rewrite keys_delete, list_elem_of_filter. done. Qed.

Lemma NoDup_keys_delete k o :
  NoDup (Js.keys o) → NoDup (Js.keys (Js.delete k o)).
Proof. rewrite keys_delete. apply NoDup_filter. Qed.

Lemma get_delete_eq k o : Js.get k (Js.delete k o) = None.
Proof. apply get_None. rewrite elem_of_keys_delete. by intros [? _]. Qed.

Lemma get_delete_ne k k' o :
  k ≠ k' → Js.get k (Js.delete k' o) = Js.get k o.
Proof.
  intros Hne. induction o as [|[k1 v1] r IH]; [done |].
  unfold Js.delete in *. rewrite filter_cons. simpl.
  case_decide; simpl; case_bool_decide; try done.
  subst. done.
Qed.

Lemma get_extend_notin k d s :
  k ∉ Js.keys s → Js.get k (Js.extend d s) = Js.get k d.
Proof.
  unfold Js.extend. revert d.
  induction s as [|[k' v'] r IH]; simpl; intros d Hk; [done |].
  apply not_elem_of_cons in Hk as [Hne Hk].
  rewrite IH by done. by apply get_set_ne.
Qed.

(** [L.extend]: the source's properties override the destination's. *)
Lemma get_extend k d s :
  NoDup (Js.keys s) → k ≠ "__proto__" →
  Js.get k (Js.extend d s) =
  match Js.get k s with Some v => Some v | None => Js.get k d end.
Proof.
  unfold Js.extend. revert d.
  induction s as [|[k' v'] r IH]; simpl; intros d ND Hk; [done |].
  apply NoDup_cons in ND as [Hk' ND].
  case_bool_decide as E.
  - subst. fold (Js.extend (Js.set k v' d) r).
    rewrite get_extend_notin by done. by apply get_set_eq.
  - rewrite IH by done.
    destruct (Js.get k r); [done |]. by apply get_set_ne.
Qed.

(** ... except [__proto__], which no merge creates. *)
Lemma get_extend_proto d s :
  Js.get "__proto__" d = None → Js.get "__proto__" (Js.extend d s) = None.
Proof.
  unfold Js.extend. revert d.
  induction s as [|[k' v'] r IH]; simpl; intros d Hd; [done |].
  apply IH. destruct (decide (k' = "__proto__")) as [-> | Hk].
  - by apply get_set_proto.
  - by rewrite get_set_ne.
Qed.

Lemma elem_of_keys_extend k d s :
  k ∈ Js.keys (Js.extend d s) ↔
  k ∈ Js.keys d ∨ (k ∈ Js.keys s ∧ k ≠ "__proto__").
Proof.
  unfold Js.extend. revert d.
  induction s as [|[k' v'] r IH]; simpl; intros d.
  - split; [auto | intros [? | [Hn _]]; [done | by apply elem_of_nil in Hn]].
  - rewrite IH, elem_of_keys_set_any, elem_of_cons.
    split.
    + intros [[[-> ?] | ?] | [? ?]]; auto.
    + intros [? | [[-> | ?] ?]]; auto.
Qed.

Lemma NoDup_keys_extend d s :
  NoDup (Js.keys d) → NoDup (Js.keys (Js.extend d s)).
Proof.
  unfold Js.extend. revert d.
  induction s as [|[k' v'] r IH]; simpl; intros d ND; [done |].
  apply IH. by apply NoDup_keys_set.
Qed.

Lemma NoDup_keys_literal (l : list (string * V)) : NoDup (Js.keys (Js.literal l)).
Proof. apply NoDup_keys_extend. constructor. Qed.

(** Merging properties an object already has, with the values it has,
    changes nothing. *)
Lemma extend_id d s :
  (∀ k v, (k, v) ∈ s → Js.get k d = Some v) → Js.extend d s = d.
Proof.
  unfold Js.extend.
  induction s as [|[k' v'] r IH]; simpl; intros Hs; [done |].
  rewrite set_id by (apply Hs; left).
  apply IH. intros k v Hin. apply Hs. by right.
Qed.

Lemma extend_idem d s :
  NoDup (Js.keys s) → "__proto__" ∉ Js.keys s →
  Js.extend (Js.extend d s) s = Js.extend d s.
Proof.
  intros ND Hp. apply extend_id. intros k v Hin.
  assert (Hk : k ≠ "__proto__").
  { intros ->. apply Hp. apply list_elem_of_fmap. by exists ("__proto__", v). }
  rewrite get_extend by done. by rewrite (NoDup_get k v s).
Qed.

Lemma extend_nil_r d : Js.extend d [] = d.
Proof. done. Qed.

End JsFacts.

(** ** The Overlay's spatial parameters *)
Section OverlayFacts.
Context {HT : HostTypes} {HH : Host}.
Implicit Types (m : map) (o : overlay) (w : world) (c : crs).

Lemma spatial_params_eq m o c :
  Overlay.spatial_params m o c =
  [("width", VNum (px (m_size m))); ("height", VNum (py (m_size m)));
   (Overlay.projectionKey o, crs_code c);
   ("bbox", VStr (Overlay.bbox o c (crs_project c (getNorthWest (m_bounds m)))
                    (crs_project c (getSouthEast (m_bounds m)))))].
Proof.
  unfold Overlay.spatial_params, Overlay.projectionKey.
  by destruct (Overlay.version_ge_1_3 _).
Qed.

Lemma spatial_keys m o c :
  Js.keys (Overlay.spatial_params m o c) =
  ["width"; "height"; Overlay.projectionKey o; "bbox"].
Proof. by rewrite spatial_params_eq. Qed.

Lemma NoDup_spatial_keys m o c : NoDup (Js.keys (Overlay.spatial_params m o c)).
Proof.
  rewrite spatial_keys. unfold Overlay.projectionKey.
  destruct (Overlay.version_ge_1_3 _); by apply (bool_decide_unpack (NoDup _)).
Qed.

Lemma proto_not_spatial m o c :
  "__proto__" ∉ Js.keys (Overlay.spatial_params m o c).
Proof.
  rewrite spatial_keys. unfold Overlay.projectionKey.
  destruct (Overlay.version_ge_1_3 _); by apply (bool_decide_unpack (_ ∉ _)).
Qed.

Lemma updateWmsParams_Ok m o c :
  Overlay.chosen_crs m o = Ok c →
  Overlay.updateWmsParams m o =
  Ok (ov_with_wmsParams o
        (Js.extend (wmsParams o) (Overlay.spatial_params m o c))).
Proof. unfold Overlay.updateWmsParams. by intros ->. Qed.

Lemma updateWmsParams_inv m o o' :
  Overlay.updateWmsParams m o = Ok o' →
  ∃ c, Overlay.chosen_crs m o = Ok c ∧
       o' = ov_with_wmsParams o
              (Js.extend (wmsParams o) (Overlay.spatial_params m o c)).
Proof.
  unfold Overlay.updateWmsParams.
  destruct (Overlay.chosen_crs m o) as [c|e|y]; simpl; [| done..].
  intros [= <-]. by exists c.
Qed.

(** The version is not a spatial key: recomputing the spatial parameters
    leaves it, and what depends on it, as it was. *)
Lemma version_after_spatial m o c :
  prop "version" (Js.extend (wmsParams o) (Overlay.spatial_params m o c)) =
  prop "version" (wmsParams o).
Proof.
  unfold prop. rewrite get_extend_notin; [done |].
  rewrite spatial_keys. unfold Overlay.projectionKey.
  destruct (Overlay.version_ge_1_3 _); by apply (bool_decide_unpack (_ ∉ _)).
Qed.

Lemma spatial_params_version m o o' c :
  prop "version" (wmsParams o') = prop "version" (wmsParams o) →
  Overlay.spatial_params m o' c = Overlay.spatial_params m o c.
Proof.
  intros Hv. rewrite !spatial_params_eq.
  unfold Overlay.projectionKey, Overlay.bbox, Overlay.version_ge_1_3.
  by rewrite Hv.
Qed.

Lemma spatial_params_stable m o c :
  Overlay.spatial_params m
    (ov_with_wmsParams o
       (Js.extend (wmsParams o) (Overlay.spatial_params m o c))) c =
  Overlay.spatial_params m o c.
Proof. apply spatial_params_version, version_after_spatial. Qed.

Lemma updateWmsParams_idempotent m o o' :
  Overlay.updateWmsParams m o = Ok o' → Overlay.updateWmsParams m o' = Ok o'.
Proof.
  intros (c & Hc & ->)%updateWmsParams_inv.
  rewrite (updateWmsParams_Ok _ _ c) by done.
  rewrite spatial_params_stable. cbn [wmsParams ov_with_wmsParams].
  by rewrite extend_idem
    by first [apply NoDup_spatial_keys | apply proto_not_spatial].
Qed.

(** *** [update] *)

Lemma update_detached w : ov_map (ov w) = false → Overlay.update w = Ok w.
Proof. unfold Overlay.update. by intros ->. Qed.

Lemma update_attached w c :
  ov_map (ov w) = true →
  Overlay.chosen_crs (the_map w) (ov w) = Ok c →
  let o := ov_with_wmsParams (ov w)
             (Js.extend (wmsParams (ov w))
                (Overlay.spatial_params (the_map w) (ov w) c)) in
  Overlay.update w =
  Ok (if bool_decide (_currentUrl (ov w) = Some (Overlay.getImageUrl o))
      then with_ov w o
      else Overlay.issue (Overlay.getImageUrl o) o w).
Proof.
  intros Hm Hc o. unfold Overlay.update. rewrite Hm. simpl.
  rewrite (updateWmsParams_Ok _ _ c) by done. simpl. fold o.
  by case_bool_decide.
Qed.

Lemma update_inv w w' :
  Overlay.update w = Ok w' →
  ov_map (ov w) = false ∧ w' = w ∨
  ∃ c, ov_map (ov w) = true ∧
       Overlay.chosen_crs (the_map w) (ov w) = Ok c ∧
       let o := ov_with_wmsParams (ov w)
                  (Js.extend (wmsParams (ov w))
                     (Overlay.spatial_params (the_map w) (ov w) c)) in
       w' = if bool_decide (_currentUrl (ov w) = Some (Overlay.getImageUrl o))
            then with_ov w o
            else Overlay.issue (Overlay.getImageUrl o) o w.
Proof.
  intros Hu. destruct (ov_map (ov w)) eqn:Hm.
  - right.
    destruct (Overlay.chosen_crs (the_map w) (ov w)) as [c|e|y] eqn:Hc.
    + exists c. rewrite (update_attached w c) in Hu by done.
      injection Hu as <-. done.
    + unfold Overlay.update, Overlay.updateWmsParams in Hu.
      rewrite Hm, Hc in Hu. done.
    + unfold Overlay.update, Overlay.updateWmsParams in Hu.
      rewrite Hm, Hc in Hu. done.
  - left. rewrite update_detached in Hu by done. by injection Hu as <-.
Qed.

Lemma updateWmsParams_frame m m' o u :
  Overlay.updateWmsParams m o = Ok o →
  m_bounds m' = m_bounds m → m_size m' = m_size m → m_crs m' = m_crs m →
  Overlay.updateWmsParams m' (ov_with_currentUrl o u) =
  Ok (ov_with_currentUrl o u).
Proof.
  intros (c & Hc & Ho)%updateWmsParams_inv Hb Hs Hcrs.
  assert (Hc' : Overlay.chosen_crs m' (ov_with_currentUrl o u) = Ok c).
  { unfold Overlay.chosen_crs in *. by rewrite Hcrs. }
  rewrite (updateWmsParams_Ok _ _ c) by done.
  assert (Hsp : Overlay.spatial_params m' (ov_with_currentUrl o u) c =
                Overlay.spatial_params m o c).
  { unfold Overlay.spatial_params. by rewrite Hb, Hs. }
  rewrite Hsp. apply (f_equal wmsParams) in Ho.
  cbn [wmsParams ov_with_wmsParams ov_with_currentUrl] in *.
  rewrite <- Ho. by destruct o.
Qed.

Lemma update_fixed w w' : Overlay.update w = Ok w' → Overlay.update w' = Ok w'.
Proof.
  intros [[Hm ->] | (c & Hm & Hc & Hw)]%update_inv.
  - by apply update_detached.
  - cbn zeta in Hw.
    set (o := ov_with_wmsParams _ _) in Hw.
    assert (Ho : Overlay.updateWmsParams (the_map w) o = Ok o).
    { apply (updateWmsParams_idempotent _ (ov w)).
      by apply updateWmsParams_Ok. }
    case_bool_decide as Hurl; subst w'.
    + unfold Overlay.update. cbn [ov the_map with_ov].
      change (ov_map o) with (ov_map (ov w)). rewrite Hm, Ho. simpl.
      change (_currentUrl o) with (_currentUrl (ov w)).
      by rewrite bool_decide_true.
    + unfold Overlay.update, Overlay.issue.
      cbn [ov the_map with_ov register_layer with_images with_map].
      change (ov_map (ov_with_currentUrl o _)) with (ov_map (ov w)).
      rewrite Hm. cbn [negb].
      rewrite (updateWmsParams_frame (the_map w)) by done. simpl.
      by rewrite bool_decide_true.
Qed.

Lemma update_wmsParams w w' c :
  ov_map (ov w) = true →
  Overlay.chosen_crs (the_map w) (ov w) = Ok c →
  Overlay.update w = Ok w' →
  wmsParams (ov w') =
  Js.extend (wmsParams (ov w)) (Overlay.spatial_params (the_map w) (ov w) c).
Proof.
  intros Hm Hc. rewrite (update_attached w c) by done.
  intros [= <-]. by case_bool_decide.
Qed.

Lemma get_spatial_params k m o c :
  Js.get k (Overlay.spatial_params m o c) =
  if decide (k = "width") then Some (VNum (px (m_size m)))
  else if decide (k = "height") then Some (VNum (py (m_size m)))
  else if decide (k = Overlay.projectionKey o) then Some (crs_code c)
  else if decide (k = "bbox")
       then Some (VStr (Overlay.bbox o c
                          (crs_project c (getNorthWest (m_bounds m)))
                          (crs_project c (getSouthEast (m_bounds m)))))
  else None.
Proof.
  rewrite spatial_params_eq. cbn [Js.get].
  repeat (case_decide; case_bool_decide; try congruence).
Qed.

(** C4 (as amended). [updateWmsParams] writes the bounding box
    latitude-first, [se.y, nw.x, nw.y, se.x], exactly when the version is
    at least 1.3 and the reference system is EPSG:4326, and as
    [nw.x, se.y, se.x, nw.y] otherwise; the reference system's code is
    written under the key [crs] when the version is at least 1.3, whatever
    the reference system, and under [srs] otherwise, the other of the two
    keys being left as it was. *)
Theorem updateWmsParams_axis_order m o c :
  Overlay.chosen_crs m o = Ok c →
  let v13 := Overlay.version_ge_1_3 o in
  let nw := crs_project c (getNorthWest (m_bounds m)) in
  let se := crs_project c (getSouthEast (m_bounds m)) in
  ∃ o', Overlay.updateWmsParams m o = Ok o' ∧
    Js.get "bbox" (wmsParams o') =
      Some (VStr (join ","
                    (num_to_string <$>
                       (if v13 && bool_decide (c = EPSG4326)
                        then [py se; px nw; py nw; px se]
                        else [px nw; py se; px se; py nw])))) ∧
    Js.get (if v13 then "crs" else "srs") (wmsParams o') = Some (crs_code c) ∧
    Js.get (if v13 then "srs" else "crs") (wmsParams o') =
      Js.get (if v13 then "srs" else "crs") (wmsParams o).
Proof.
  intros Hc v13 nw se. eexists. split; [by apply updateWmsParams_Ok |].
  cbn [wmsParams ov_with_wmsParams].
  subst v13 nw se.
  destruct (Overlay.version_ge_1_3 o) eqn:Ev;
    rewrite !get_extend, !get_spatial_params
      by first [apply NoDup_spatial_keys | done];
    unfold Overlay.projectionKey, Overlay.bbox; rewrite Ev;
    repeat split; by repeat case_decide.
Qed.

Lemma L_extend_Ok (d src : Js.obj value) :
  Js.has "hasOwnProperty" src = false → "__proto__" ∉ Js.keys src →
  L_extend d src = Ok (Js.extend d src).
Proof.
  intros Hh Hp. unfold L_extend. rewrite Hh.
  apply has_false in Hp. rewrite Hp. by rewrite andb_false_r.
Qed.

Lemma L_extend_inv (d src merged : Js.obj value) :
  L_extend d src = Ok merged → merged = Js.extend d src.
Proof.
  unfold L_extend. destruct (Js.has "hasOwnProperty" src); [done |].
  destruct (_ && _); [done |]. by intros [= <-].
Qed.

(** [L.extend] on an object without an own [__proto__]: the source's
    properties override the destination's, whatever the name. *)
Lemma get_extend_plain {V} k (d src : Js.obj V) :
  NoDup (Js.keys src) → "__proto__" ∉ Js.keys src →
  Js.get k (Js.extend d src) =
  match Js.get k src with Some v => Some v | None => Js.get k d end.
Proof.
  intros ND Hp. destruct (decide (k = "__proto__")) as [-> | Hk].
  - rewrite get_extend_notin by done.
    apply get_None in Hp. by rewrite Hp.
  - by apply get_extend.
Qed.

(** C7 (as amended). Let [partial] have no own property named
    [__proto__] or [hasOwnProperty].  [setParams(partial)] merges
    [partial] into the parameters, new values overriding old ones, and
    runs [update].  On an Overlay that is on a map the spatial keys
    [width], [height], [bbox] and the projection key then hold the values
    computed from the viewport, whatever [partial] or the old parameters
    held for them, every other key holds [partial]'s value when it has
    one and its old value otherwise, the URL built from these parameters
    is the one last requested, and an image overlay for it has been
    created exactly if it differs from the URL requested before.  On an
    Overlay that is on no map, where [update] does nothing, the merge is
    all that happens. *)
Theorem setParams_merges_then_viewport_wins w (partial : Js.obj value) c :
  NoDup (Js.keys partial) →
  Js.has "hasOwnProperty" partial = false → "__proto__" ∉ Js.keys partial →
  let merged :=
    ov_with_wmsParams (ov w) (Js.extend (wmsParams (ov w)) partial) in
  let m := the_map w in
  let nw := crs_project c (getNorthWest (m_bounds m)) in
  let se := crs_project c (getSouthEast (m_bounds m)) in
  let merge k :=
    match Js.get k partial with
    | Some v => Some v
    | None => Js.get k (wmsParams (ov w))
    end in
  (ov_map (ov w) = false →
   Overlay.setParams partial w = Ok (with_ov w merged) ∧
   ∀ k, Js.get k (wmsParams merged) = merge k) ∧
  (ov_map (ov w) = true →
   Overlay.chosen_crs (the_map w) (ov w) = Ok c →
   ∃ w', Overlay.setParams partial w = Ok w' ∧
     Js.get "width" (wmsParams (ov w')) = Some (VNum (px (m_size m))) ∧
     Js.get "height" (wmsParams (ov w')) = Some (VNum (py (m_size m))) ∧
     Js.get (Overlay.projectionKey merged) (wmsParams (ov w')) =
       Some (crs_code c) ∧
     Js.get "bbox" (wmsParams (ov w')) =
       Some (VStr (Overlay.bbox merged c nw se)) ∧
     (∀ k, k ∉ ["width"; "height"; Overlay.projectionKey merged; "bbox"] →
       Js.get k (wmsParams (ov w')) = merge k) ∧
     let url := Overlay.getImageUrl (ov w') in
     _currentUrl (ov w') = Some url ∧
     images w' =
       if bool_decide (_currentUrl (ov w) = Some url) then images w
       else images w ++
              [{| io_url := url; io_bounds := m_bounds m;
                  io_opacity := VNum num_0; io_load_once := true |}]).
Proof.
  intros ND Hh Hp merged m nw se merge.
  assert (Hmerge : ∀ k, Js.get k (wmsParams merged) = merge k).
  { intros k. by apply get_extend_plain. }
  unfold Overlay.setParams. rewrite L_extend_Ok by done.
  change (Ok (Js.extend (wmsParams (ov w)) partial) ≫= _)
    with (Overlay.update (with_ov w merged)).
  split.
  { intros Hm. split; [by apply update_detached | done]. }
  intros Hm Hc.
  rewrite (update_attached (with_ov w merged) c) by done. cbn zeta.
  cbn [ov the_map with_ov]. fold m.
  set (o := ov_with_wmsParams merged _).
  assert (Hg : ∀ k, Js.get k (wmsParams o) =
                    match Js.get k (Overlay.spatial_params m merged c) with
                    | Some v => Some v
                    | None => Js.get k (wmsParams merged)
                    end).
  { intros k. apply get_extend_plain;
      [apply NoDup_spatial_keys | apply proto_not_spatial]. }
  change (_currentUrl merged) with (_currentUrl (ov w)).
  set (url := Overlay.getImageUrl o).
  assert (Hw : ∀ w',
            w' = (if bool_decide (_currentUrl (ov w) = Some url)
                  then with_ov (with_ov w merged) o
                  else Overlay.issue url o (with_ov w merged)) →
            wmsParams (ov w') = wmsParams o ∧
            Overlay.getImageUrl (ov w') = url ∧
            _currentUrl (ov w') = Some url ∧
            images w' =
              if bool_decide (_currentUrl (ov w) = Some url) then images w
              else images w ++
                     [{| io_url := url; io_bounds := m_bounds m;
                         io_opacity := VNum num_0; io_load_once := true |}]).
  { intros w' ->. case_bool_decide as E; [| done].
    repeat split. exact E. }
  eexists. split; [reflexivity |].
  destruct (Hw _ eq_refl) as (Hwp & Hurl & Hcur & Himg).
  rewrite Hwp, Hurl. rewrite !Hg, !get_spatial_params.
  split; [done |]. split; [done |].
  split; [unfold Overlay.projectionKey;
          destruct (Overlay.version_ge_1_3 merged); by repeat case_decide |].
  split; [unfold Overlay.projectionKey;
          destruct (Overlay.version_ge_1_3 merged); by repeat case_decide |].
  split; [| by split].
  intros k Hk. rewrite Hg, get_spatial_params.
  rewrite !not_elem_of_cons in Hk. destruct Hk as (? & ? & ? & ? & _).
  rewrite !decide_False by done. apply Hmerge.
Qed.

(** C3. [update()] does nothing when the Overlay is not attached to a
    map; and when a call of [update()] returns, a second call with nothing
    changed in between returns the same world: it issues no request, so the
    two calls together create at most one image overlay. *)
Theorem update_idempotent w :
  (ov_map (ov w) = false → Overlay.update w = Ok w) ∧
  (∀ w1, Overlay.update w = Ok w1 →
     Overlay.update w1 = Ok w1 ∧
     (length (images w1) ≤ S (length (images w)))%nat).
Proof.
  split; [apply update_detached |].
  intros w1 Hu. split; [by apply (update_fixed w) |].
  apply update_inv in Hu as [[_ ->] | (c & _ & _ & ->)]; [lia |].
  cbn zeta. case_bool_decide; simpl; [lia |].
  rewrite length_app. simpl. lia.
Qed.

End OverlayFacts.

(** ** Image events *)
Section ImageFacts.
Context {HT : HostTypes} {HH : Host}.
Implicit Types (m : map) (o : overlay) (w : world) (g : image_overlay).

Lemma fire_update t w w' :
  Overlay.fire t w = Ok w' →
  ∃ w0, Overlay.update w0 = Ok w' ∧
        images w0 = images w ∧
        m_layers (the_map w0) = m_layers (the_map w) ∧
        _currentOverlay (ov w0) = _currentOverlay (ov w) ∧
        ov_options (ov w0) = ov_options (ov w).
Proof.
  destruct t as [|params|b s]; simpl; intros Hf.
  - eexists. split; [exact Hf |]. done.
  - unfold Overlay.setParams in Hf.
    destruct (L_extend (wmsParams (ov w)) params) as [merged|e|y];
      simpl in Hf; [| done..].
    eexists. split; [exact Hf |]. done.
  - eexists. split; [exact Hf |]. done.
Qed.

(** A call of [update] that created image overlay [g]. *)
Lemma update_issued w w' g :
  Overlay.update w = Ok w' →
  images w' = images w ++ [g] →
  ov_map (ov w') = true ∧
  _currentUrl (ov w') = Some (io_url g) ∧
  io_load_once g = true ∧
  io_opacity g = VNum num_0 ∧
  m_layers (the_map w') =
    m_layers (the_map w) ++ [LImage (length (images w))] ∧
  _currentOverlay (ov w') = _currentOverlay (ov w) ∧
  ov_options (ov w') = ov_options (ov w).
Proof.
  intros [[Hm ->] | (c & Hm & Hc & ->)]%update_inv Himg.
  - apply (f_equal length) in Himg. rewrite length_app in Himg.
    simpl in Himg. lia.
  - cbn zeta in *. case_bool_decide.
    + apply (f_equal length) in Himg. rewrite length_app in Himg.
      simpl in Himg. lia.
    + unfold Overlay.issue in *. simpl in Himg.
      apply app_inv_head in Himg. injection Himg as <-. by simpl.
Qed.

Lemma swap_fresh i g w :
  ov_map (ov w) = true →
  _currentUrl (ov w) = Some (io_url g) →
  let v := if truthy (prop "opacity" (ov_options (ov w)))
           then prop "opacity" (ov_options (ov w)) else VNum num_1 in
  let w' := Overlay._swap i g w in
  _currentOverlay (ov w') = Some i ∧
  images w' = alter (fun g' => Overlay.image_with_opacity g' v) i (images w) ∧
  m_layers (the_map w') =
    match _currentOverlay (ov w) with
    | Some c => filter (fun l => l ≠ LImage c) (m_layers (the_map w))
    | None => m_layers (the_map w)
    end ∧
  _currentUrl (ov w') = _currentUrl (ov w) ∧
  ov_map (ov w') = true ∧
  ov_options (ov w') = ov_options (ov w).
Proof.
  intros Hm Hu. unfold Overlay._swap. rewrite Hm, Hu.
  rewrite bool_decide_true by done. simpl.
  by destruct (_currentOverlay (ov w)).
Qed.

Lemma swap_stale i g w :
  ov_map (ov w) = true →
  _currentUrl (ov w) ≠ Some (io_url g) →
  Overlay._swap i g w = unregister_layer (LImage i) w.
Proof.
  intros Hm Hu. unfold Overlay._swap. rewrite Hm. simpl.
  by rewrite bool_decide_false.
Qed.

Lemma image_load_pending i g w :
  images w !! i = Some g → io_load_once g = true →
  Overlay.image_load i w =
  Ok (Overlay._swap i g
        (with_images w (alter Overlay.image_loaded i (images w)))).
Proof. unfold Overlay.image_load. by intros -> ->. Qed.

(** C2. Last requested wins.  Let two calls reach [update], A and then B,
    each issuing a request, B's URL differing from A's, with neither image
    loaded in between.  When B's image loads and then A's, both handlers
    return, the displayed image is B's after each of them, A's image is
    taken off the map with the opacity 0 it was created with, and B's
    stays on the map with the configured opacity.  In general a [load]
    changes the displayed image only to the image that loaded, and only
    when that image's URL is the last requested one. *)
Theorem last_requested_wins :
  (∀ w tA tB wA wB gA gB,
     (∀ c, _currentOverlay (ov w) = Some c → (c < length (images w))%nat) →
     Overlay.fire tA w = Ok wA → images wA = images w ++ [gA] →
     Overlay.fire tB wA = Ok wB → images wB = images wA ++ [gB] →
     io_url gB ≠ io_url gA →
     let a := length (images w) in
     let b := length (images wA) in
     let shown := if truthy (prop "opacity" (ov_options (ov w)))
                  then prop "opacity" (ov_options (ov w)) else VNum num_1 in
     ∃ w3 w4,
       Overlay.image_load b wB = Ok w3 ∧
       Overlay.image_load a w3 = Ok w4 ∧
       _currentOverlay (ov w3) = Some b ∧
       _currentOverlay (ov w4) = Some b ∧
       (LImage a ∉ m_layers (the_map w4)) ∧
       io_opacity <$> (images w3 !! a) = Some (VNum num_0) ∧
       io_opacity <$> (images w4 !! a) = Some (VNum num_0) ∧
       LImage b ∈ m_layers (the_map w4) ∧
       io_url <$> (images w4 !! b) = Some (io_url gB) ∧
       io_opacity <$> (images w4 !! b) = Some shown) ∧
  (∀ w i w',
     Overlay.image_load i w = Ok w' →
     _currentOverlay (ov w') = _currentOverlay (ov w) ∨
     ∃ g, images w !! i = Some g ∧
          _currentUrl (ov w) = Some (io_url g) ∧
          _currentOverlay (ov w') = Some i).
Proof.
  split.
  - intros w tA tB wA wB gA gB Hwf HfA HiA HfB HiB Hne a b shown.
    apply fire_update in HfA as (w0 & HuA & Hi0 & Hl0 & Hc0 & Ho0).
    rewrite <- Hi0 in HiA.
    destruct (update_issued _ _ _ HuA HiA)
      as (HmA & HurlA & HonceA & HopA & HlayA & HcurA & HoptA).
    apply fire_update in HfB as (w1 & HuB & Hi1 & Hl1 & Hc1 & Ho1).
    rewrite <- Hi1 in HiB.
    destruct (update_issued _ _ _ HuB HiB)
      as (HmB & HurlB & HonceB & HopB & HlayB & HcurB & HoptB).
    assert (Hab : a ≠ b).
    { subst a b. rewrite HiA, length_app, Hi0. simpl. lia. }
    assert (HB_b : images wB !! b = Some gB).
    { rewrite HiB, Hi1. by apply list_lookup_middle. }
    assert (HB_a : images wB !! a = Some gA).
    { rewrite HiB, Hi1, HiA, Hi0, <- app_assoc. by apply list_lookup_middle. }
    assert (Hcur : ∀ c, _currentOverlay (ov wB) = Some c → c ≠ b ∧ c ≠ a).
    { intros c. rewrite HcurB, Hc1, HcurA, Hc0. intros Hc%Hwf.
      subst a b. rewrite HiA, length_app, Hi0. simpl. lia. }
    pose (wB' := with_images wB (alter Overlay.image_loaded b (images wB))).
    destruct (swap_fresh b gB wB') as (Hc3 & Hi3 & Hl3 & Hu3 & Hm3 & Ho3);
      [done | done |].
    set (w3 := Overlay._swap b gB wB') in *.
    assert (H3_a : images w3 !! a = Some gA).
    { rewrite Hi3. subst wB'. cbn [images with_images].
      by rewrite !list_lookup_alter_ne. }
    pose (w3' := with_images w3 (alter Overlay.image_loaded a (images w3))).
    assert (Hstale : Overlay._swap a gA w3' = unregister_layer (LImage a) w3').
    { apply swap_stale; [done |].
      subst w3'. cbn [ov with_images]. rewrite Hu3. subst wB'.
      cbn [ov with_images]. rewrite HurlB. congruence. }
    exists w3, (unregister_layer (LImage a) w3').
    split; [by apply image_load_pending |].
    split; [rewrite (image_load_pending a gA) by done; fold w3';
            by rewrite Hstale |].
    assert (Hshown : (if truthy (prop "opacity" (ov_options (ov wB')))
                      then prop "opacity" (ov_options (ov wB'))
                      else VNum num_1) = shown).
    { subst wB' shown. cbn [ov with_images].
      by rewrite HoptB, Ho1, HoptA, Ho0. }
    rewrite Hshown in Hi3.
    repeat split; try done.
    + cbn [the_map unregister_layer with_map map_with_layers m_layers].
      rewrite list_elem_of_filter. intros [Hx _]. by apply Hx.
    + by rewrite H3_a, <- HopA.
    + subst w3'. cbn [images unregister_layer with_map with_images].
      rewrite list_lookup_alter_eq, H3_a. simpl. by rewrite <- HopA.
    + cbn [the_map unregister_layer with_map map_with_layers m_layers].
      apply list_elem_of_filter. split; [congruence |].
      subst w3'. cbn [the_map with_images]. rewrite Hl3.
      assert (Hin : LImage b ∈ m_layers (the_map wB')).
      { subst wB'. cbn [the_map with_images]. rewrite HlayB, Hi1.
        apply elem_of_app. right. by left. }
      subst wB'. cbn [ov with_images] in *.
      destruct (_currentOverlay (ov wB)) as [c|] eqn:Ec; [| done].
      apply list_elem_of_filter. split; [| done].
      destruct (Hcur c eq_refl). congruence.
    + subst w3'. cbn [images unregister_layer with_map with_images].
      rewrite list_lookup_alter_ne by done. rewrite Hi3.
      rewrite list_lookup_alter_eq. subst wB'. cbn [images with_images].
      rewrite list_lookup_alter_eq, HB_b. done.
    + subst w3'. cbn [images unregister_layer with_map with_images].
      rewrite list_lookup_alter_ne by done. rewrite Hi3.
      rewrite list_lookup_alter_eq. subst wB'. cbn [images with_images].
      rewrite list_lookup_alter_eq, HB_b. done.
  - intros w i w'. unfold Overlay.image_load.
    destruct (images w !! i) as [g|] eqn:Eg; [| intros [= <-]; by left].
    destruct (io_load_once g); [| intros [= <-]; by left].
    intros [= <-]. unfold Overlay._swap. cbn [ov with_images].
    destruct (ov_map (ov w)); [| by left]. cbn [negb].
    case_bool_decide as Eu; cbn [negb]; [| by left].
    right. exists g. split; [done |]. split; [done |].
    by destruct (_currentOverlay (ov w)).
Qed.

(** C6. When image overlay [i] fails to load: with a function configured
    as [onError], that function is called once, with the message and the
    address of the failing image; with no [onError] the world is left as it
    is.  Either way the handler returns, and the Overlay (displayed image,
    last requested URL), the image overlays, the map and the pending
    requests are untouched: nothing is displayed, removed or requested
    again. *)
Theorem image_error_reports_or_swallows w i g :
  images w !! i = Some g →
  (∀ f, onError (ov w) = VFun f →
     Overlay.image_error i w =
     Ok (with_calls w
           (calls w ++
              [CallOnError f "Failed to load layer" (image_src (io_url g))]))) ∧
  (onError (ov w) = VUndef → Overlay.image_error i w = Ok w) ∧
  (∀ w', Overlay.image_error i w = Ok w' →
     ov w' = ov w ∧ images w' = images w ∧ the_map w' = the_map w ∧
     requests w' = requests w ∧ src w' = src w).
Proof.
  intros Hg. unfold Overlay.image_error. rewrite Hg.
  split; [by intros f -> |]. split; [by intros -> |].
  intros w'. destruct (onError (ov w)); try done; by intros [= <-].
Qed.

End ImageFacts.

(** ** Sub-layers *)
Section SourceFacts.
Context {HT : HostTypes} {HH : Host}.
Implicit Types (m : map) (o : overlay) (w : world).

Lemma join_comma_empty (l : list string) :
  "" ∉ l → join "," l = "" → l = [].
Proof.
  destruct l as [|x [|y r]]; simpl; [done | |].
  - intros Hx ->. exfalso. apply Hx. left.
  - intros _. by destruct x.
Qed.

Lemma hasLayer_register l l' w :
  l ≠ l' → hasLayer l (register_layer l' w) = hasLayer l w.
Proof.
  intros Hne. unfold hasLayer, register_layer. simpl.
  apply bool_decide_ext. rewrite elem_of_app, list_elem_of_singleton.
  split; [by intros [? | ?] | auto].
Qed.

Lemma hasLayer_unregister l l' w :
  l ≠ l' → hasLayer l (unregister_layer l' w) = hasLayer l w.
Proof.
  intros Hne. unfold hasLayer, unregister_layer. simpl.
  apply bool_decide_ext. rewrite list_elem_of_filter.
  split; [by intros [_ ?] | auto].
Qed.

Lemma hasLayer_unregister_eq l w : hasLayer l (unregister_layer l w) = false.
Proof.
  unfold hasLayer, unregister_layer. simpl.
  apply bool_decide_eq_false. rewrite list_elem_of_filter. by intros [? _].
Qed.

Lemma hasLayer_register_eq l w : hasLayer l (register_layer l w) = true.
Proof.
  unfold hasLayer, register_layer. simpl.
  apply bool_decide_eq_true. rewrite elem_of_app. right. by left.
Qed.

Lemma update_total w : Overlay.crs_ok w → ∃ w', Overlay.update w = Ok w'.
Proof.
  intros [c Hc]. destruct (ov_map (ov w)) eqn:Hm.
  - rewrite (update_attached w c) by done. by eexists.
  - rewrite update_detached by done. by eexists.
Qed.

(** What [update] leaves alone. *)
Lemma update_frame w w' :
  Overlay.update w = Ok w' →
  src w' = src w ∧
  ov_map (ov w') = ov_map (ov w) ∧
  ov_options (ov w') = ov_options (ov w) ∧
  m_crs (the_map w') = m_crs (the_map w) ∧
  hasLayer LOverlay w' = hasLayer LOverlay w ∧
  Js.get "layers" (wmsParams (ov w')) = Js.get "layers" (wmsParams (ov w)).
Proof.
  intros [[Hm ->] | (c & Hm & Hc & ->)]%update_inv; [done |].
  cbn zeta.
  assert (Hl : Js.get "layers"
                 (Js.extend (wmsParams (ov w))
                    (Overlay.spatial_params (the_map w) (ov w) c)) =
               Js.get "layers" (wmsParams (ov w))).
  { apply get_extend_notin. rewrite spatial_keys.
    unfold Overlay.projectionKey.
    destruct (Overlay.version_ge_1_3 _); by apply (bool_decide_unpack (_ ∉ _)). }
  case_bool_decide; [done |].
  unfold Overlay.issue. rewrite hasLayer_register by done. done.
Qed.

Lemma crs_ok_frame w w' :
  ov_options (ov w') = ov_options (ov w) →
  m_crs (the_map w') = m_crs (the_map w) →
  Overlay.crs_ok w → Overlay.crs_ok w'.
Proof.
  unfold Overlay.crs_ok, Overlay.chosen_crs. by intros -> ->.
Qed.

Lemma onRemove_frame w :
  src (Overlay.onRemove w) = src w ∧
  ov_map (ov (Overlay.onRemove w)) = false ∧
  ov_options (ov (Overlay.onRemove w)) = ov_options (ov w) ∧
  m_crs (the_map (Overlay.onRemove w)) = m_crs (the_map w) ∧
  hasLayer LOverlay (Overlay.onRemove w) = hasLayer LOverlay w ∧
  wmsParams (ov (Overlay.onRemove w)) = wmsParams (ov w).
Proof.
  unfold Overlay.onRemove.
  destruct (_currentOverlay (ov w)) as [c|]; simpl;
    destruct (_currentUrl (ov w)) as [u|]; simpl;
    try case_bool_decide; simpl; repeat split; try done;
    by apply (hasLayer_unregister LOverlay (LImage c)).
Qed.

(** [setParams({'layers': s})] *)
Lemma setParams_layers s w :
  Overlay.setParams (Js.literal [("layers", VStr s)]) w =
  Overlay.update
    (with_ov w
       (ov_with_wmsParams (ov w)
          (Js.extend (wmsParams (ov w)) (Js.literal [("layers", VStr s)])))).
Proof.
  unfold Overlay.setParams. rewrite L_extend_Ok; [done | done |].
  by apply (bool_decide_unpack (_ ∉ _)).
Qed.

Lemma refreshOverlay_spec w :
  src_map (src w) = true → Source.consistent w → Overlay.crs_ok w →
  let s := join "," (Js.keys (_subLayers (src w))) in
  ∃ w', Source.refreshOverlay w = Ok w' ∧
        src w' = src w ∧ Source.consistent w' ∧ Overlay.crs_ok w' ∧
        if bool_decide (s = "")
        then hasLayer LOverlay w' = false ∧
             wmsParams (ov w') = wmsParams (ov w)
        else hasLayer LOverlay w' = true ∧
             Js.get "layers" (wmsParams (ov w')) = Some (VStr s).
Proof.
  intros Hsrc Hcons Hcrs s. unfold Source.refreshOverlay. fold s.
  rewrite Hsrc. cbn [negb]. case_bool_decide as Es.
  - eexists. split; [done |]. unfold Overlay.removeFrom.
    destruct (hasLayer LOverlay w) eqn:Hl.
    + destruct (onRemove_frame w) as (Hs & Hm & Ho & Hc & Hh & Hp).
      repeat split.
      * done.
      * unfold Source.consistent. rewrite hasLayer_unregister_eq. apply Hm.
      * by apply (crs_ok_frame w).
      * apply hasLayer_unregister_eq.
      * done.
    + repeat split; done.
  - rewrite setParams_layers. set (w1 := with_ov w _).
    assert (Hcrs1 : Overlay.crs_ok w1) by done.
    destruct (update_total w1 Hcrs1) as [w2 Hu]. rewrite Hu. simpl.
    destruct (update_frame _ _ Hu) as (Hs2 & Hm2 & Ho2 & Hc2 & Hh2 & Hl2).
    assert (Hlay : Js.get "layers" (wmsParams (ov w2)) = Some (VStr s)).
    { rewrite Hl2. subst w1. cbn [ov with_ov wmsParams ov_with_wmsParams].
      rewrite get_extend by (apply NoDup_keys_literal || done). done. }
    assert (Hcrs2 : Overlay.crs_ok w2) by by apply (crs_ok_frame w1).
    unfold Overlay.addTo. destruct (hasLayer LOverlay w2) eqn:Hl.
    + exists w2. repeat split; try done.
      unfold Source.consistent. rewrite Hm2, Hl, Hh2. apply Hcons.
    + unfold Overlay.onAdd. set (w3 := with_ov _ _).
      assert (Hcrs3 : Overlay.crs_ok w3) by done.
      destruct (update_total w3 Hcrs3) as [w4 Hu4]. rewrite Hu4.
      destruct (update_frame _ _ Hu4) as (Hs4 & Hm4 & Ho4 & Hc4 & Hh4 & Hl4).
      assert (Hh3 : hasLayer LOverlay w3 = true)
        by apply (hasLayer_register_eq LOverlay w2).
      exists w4. repeat split.
      * rewrite Hs4. exact Hs2.
      * unfold Source.consistent. by rewrite Hm4, Hh4, Hh3.
      * by apply (crs_ok_frame w3).
      * by rewrite Hh4.
      * by rewrite Hl4.
Qed.

(** Adding a Source to a map it is not on makes it [ready]. *)
Lemma addTo_ready w :
  hasLayer LSource w = false →
  Source.consistent w → Overlay.crs_ok w →
  NoDup (Js.keys (_subLayers (src w))) →
  "" ∉ Js.keys (_subLayers (src w)) →
  ∃ w', Source.addTo w = Ok w' ∧ Source.ready w'.
Proof.
  intros Hl Hcons Hcrs ND Hne. unfold Source.addTo, Source.onAdd. rewrite Hl.
  set (w1 := with_src _ _).
  destruct (refreshOverlay_spec w1) as (w' & Hr & Hs' & Hcons' & Hcrs' & _).
  - done.
  - unfold Source.consistent. subst w1. cbn [ov with_src].
    rewrite Hcons. symmetry. by apply (hasLayer_register LOverlay LSource).
  - done.
  - exists w'. split; [done |]. unfold Source.ready. rewrite Hs'. done.
Qed.

Lemma keys_set_as_set (n : string) (v : bool) (o : Js.obj bool) :
  n ≠ "__proto__" →
  list_to_set (Js.keys (Js.set n v o)) =@{gset string}
  {[n]} ∪ list_to_set (Js.keys o).
Proof.
  intros Hn. apply set_eq. intros x.
  rewrite elem_of_union, elem_of_singleton, !elem_of_list_to_set.
  by apply elem_of_keys_set.
Qed.

Lemma keys_delete_as_set (n : string) (o : Js.obj bool) :
  list_to_set (Js.keys (Js.delete n o)) =@{gset string}
  list_to_set (Js.keys o) ∖ {[n]}.
Proof.
  apply set_eq. intros x.
  rewrite elem_of_difference, elem_of_singleton, !elem_of_list_to_set.
  rewrite elem_of_keys_delete. split; intros [? ?]; done.
Qed.

(** One call of [addSubLayer] or [removeSubLayer]. *)
Lemma sub_apply_spec c w :
  Source.ready w → Source.plain_name (Source.sub_name c) →
  ∃ w', Source.sub_apply c w = Ok w' ∧ Source.ready w' ∧
    let names := Js.keys (_subLayers (src w')) in
    list_to_set names =
      Source.active (list_to_set (Js.keys (_subLayers (src w)))) [c] ∧
    (hasLayer LOverlay w' = true ↔ names ≠ []) ∧
    (names ≠ [] →
     Js.get "layers" (wmsParams (ov w')) = Some (VStr (join "," names))) ∧
    (names = [] → wmsParams (ov w') = wmsParams (ov w)).
Proof.
  intros (Hsrc & Hcons & Hcrs & ND & Hne) [Hc Hproto].
  set (subs := match c with
               | Source.AddSubLayer n => Js.set n true (_subLayers (src w))
               | Source.RemoveSubLayer n => Js.delete n (_subLayers (src w))
               end).
  set (w1 := with_src w (src_with_subLayers (src w) subs)).
  assert (Happ : Source.sub_apply c w = Source.refreshOverlay w1).
  { by destruct c. }
  assert (ND1 : NoDup (Js.keys subs)).
  { subst subs. destruct c; [by apply NoDup_keys_set | by apply NoDup_keys_delete]. }
  assert (Hne1 : "" ∉ Js.keys subs).
  { subst subs. destruct c as [n|n]; simpl in Hc, Hproto.
    - rewrite elem_of_keys_set by done. intros [? | ?]; [congruence | done].
    - rewrite elem_of_keys_delete. by intros [_ ?]. }
  assert (Hset : list_to_set (Js.keys subs) =
                 Source.active (list_to_set (Js.keys (_subLayers (src w)))) [c]).
  { subst subs.
    destruct c; [by apply keys_set_as_set | apply keys_delete_as_set]. }
  destruct (refreshOverlay_spec w1) as (w' & Hr & Hs' & Hcons' & Hcrs' & Hpost);
    [done | done | done |].
  exists w'. rewrite Happ. split; [done |].
  assert (Hk : Js.keys (_subLayers (src w')) = Js.keys subs) by by rewrite Hs'.
  cbn zeta in *. rewrite Hs', Hk in *.
  change (Js.keys (_subLayers (src w1))) with (Js.keys subs) in Hpost.
  split; [unfold Source.ready; rewrite Hs'; by repeat split |].
  split; [done |].
  case_bool_decide as Es.
  - apply join_comma_empty in Es; [| done]. destruct Hpost as [Hh Hp].
    rewrite Es, Hh. split; [split; done |]. split; [done |].
    intros _. apply Hp.
  - destruct Hpost as [Hh Hl]. rewrite Hh.
    assert (Hnn : Js.keys subs ≠ []).
    { intros Hnil. apply Es. by rewrite Hnil. }
    split; [split; done |]. split; done.
Qed.

Lemma run_app l1 l2 w :
  Source.run (l1 ++ l2) w = (w' ← Source.run l1 w; Source.run l2 w').
Proof.
  revert w. induction l1 as [|c r IH]; intros w; simpl; [done |].
  destruct (Source.sub_apply c w); simpl; [apply IH | done..].
Qed.

Lemma active_app s l1 l2 :
  Source.active s (l1 ++ l2) = Source.active (Source.active s l1) l2.
Proof. apply fold_left_app. Qed.

Lemma run_ready l w :
  Source.ready w → Forall (fun c => Source.plain_name (Source.sub_name c)) l →
  ∃ w', Source.run l w = Ok w' ∧ Source.ready w' ∧
        list_to_set (Js.keys (_subLayers (src w'))) =
        Source.active (list_to_set (Js.keys (_subLayers (src w)))) l.
Proof.
  intros Hr Hl. revert w Hr.
  induction Hl as [|c r Hc Hl IH]; intros w Hr; simpl.
  - by exists w.
  - destruct (sub_apply_spec c w Hr Hc) as (w1 & -> & Hr1 & Hset & _ & _ & _).
    destruct (IH w1 Hr1) as (w' & Hrun & Hr' & Hset').
    exists w'. simpl. rewrite Hset in Hset'. done.
Qed.

(** C1 (as amended). Take a Source attached to a map and any run of
    [addSubLayer] and [removeSubLayer] calls whose names are neither
    empty nor [__proto__].  Every call returns, and after each of them
    (the last call of any run) the names registered in the Source are
    exactly the active set, the
    Overlay is on the map if and only if that set is not empty, and, when
    it is not empty, the Overlay's [layers] parameter is the comma-join of
    the names in the order [Object.keys] lists them; when it is empty the
    call has left the Overlay's parameters as they were. *)
Theorem sublayers_tracked w (calls : list Source.sub_call)
    (last : Source.sub_call) :
  Source.ready w →
  Forall (fun c => Source.plain_name (Source.sub_name c)) (calls ++ [last]) →
  ∃ w1 w',
    Source.run calls w = Ok w1 ∧
    Source.sub_apply last w1 = Ok w' ∧
    Source.run (calls ++ [last]) w = Ok w' ∧
    let names := Js.keys (_subLayers (src w')) in
    NoDup names ∧
    list_to_set names =
      Source.active (list_to_set (Js.keys (_subLayers (src w))))
        (calls ++ [last]) ∧
    (hasLayer LOverlay w' = true ↔ names ≠ []) ∧
    (names ≠ [] →
     Js.get "layers" (wmsParams (ov w')) = Some (VStr (join "," names))) ∧
    (names = [] → wmsParams (ov w') = wmsParams (ov w1)).
Proof.
  intros Hr [Hcalls Hlast]%Forall_app.
  apply Forall_inv in Hlast.
  destruct (run_ready calls w Hr Hcalls) as (w1 & Hrun & Hr1 & Hset1).
  destruct (sub_apply_spec last w1 Hr1 Hlast)
    as (w' & Happ & Hr' & Hset' & Hatt & Hlay & Hkeep).
  exists w1, w'. split; [done |]. split; [done |].
  split; [rewrite run_app, Hrun; simpl; by rewrite Happ |].
  cbn zeta in *.
  split; [apply Hr' |]. split; [| done].
  by rewrite active_app, <- Hset1.
Qed.

(** *** GetFeatureInfo responses *)

(** C9. The failure of a request is signalled in band.  The handler of
    a completed request whose status is not 200 hands the string "error"
    on in place of the response; [parseFeatureInfo] puts the frame in
    place of the text exactly when the text it is handed is that string,
    and hands every other text back.  So the hook of a failed request is
    called with the frame that points at the request's URL, and so is
    the hook of a request with status 200 whose body is "error": the two
    leave the world exactly the same. *)
Theorem error_sentinel_is_in_band :
  (∀ url, Source.parseFeatureInfo "error" url =
          "<iframe src='" +:+ url +:+ "' style='border:none'>") ∧
  (∀ result url, result ≠ "error" →
                 Source.parseFeatureInfo result url = result) ∧
  (∀ w i x status body,
     requests w !! i = Some x →
     let frame := "<iframe src='" +:+ x_url x +:+ "' style='border:none'>" in
     (status ≠ 200 →
      Source.change i 4 status body w = Ok (Source.done x "error" w) ∧
      Source.change i 4 status body w =
      Ok (Source.call_hook (x_callback x) (x_latlng x) frame
            (Source.hideWaiting w))) ∧
     Source.change i 4 200 "error" w =
     Ok (Source.call_hook (x_callback x) (x_latlng x) frame
           (Source.hideWaiting w))) ∧
  (∀ w i status body,
     status ≠ 200 →
     Source.change i 4 200 "error" w = Source.change i 4 status body w).
Proof.
  split; [done |]. split; [| split].
  - intros result url Hne. unfold Source.parseFeatureInfo.
    by rewrite bool_decide_false.
  - intros w i x status body Hx frame. unfold Source.change, Source.done.
    rewrite Hx. simpl. split; [| done].
    intros Hs. by rewrite bool_decide_false.
  - intros w i status body Hs. unfold Source.change.
    destruct (requests w !! i); [| done]. simpl.
    by rewrite (bool_decide_false (status = 200)).
Qed.

(** C5 (as amended). When request [i], sent to [U], completes: if the
    status is not 200 the hook is handed a frame that points at [U]; if
    the status is 200 and the body is not the string "error" the hook is
    handed the body unchanged.  In both cases the handler returns. *)
Theorem transport_failure_falls_back w i x status body :
  requests w !! i = Some x →
  (status ≠ 200 →
   Source.change i 4 status body w =
   Ok (Source.call_hook (x_callback x) (x_latlng x)
         ("<iframe src='" +:+ x_url x +:+ "' style='border:none'>")
         (Source.hideWaiting w))) ∧
  (status = 200 → body ≠ "error" →
   Source.change i 4 status body w =
   Ok (Source.call_hook (x_callback x) (x_latlng x) body
         (Source.hideWaiting w))).
Proof.
  intros Hx. unfold Source.change, Source.done. rewrite Hx. simpl. split.
  - intros Hs. by rewrite bool_decide_false.
  - intros -> Hb. simpl. unfold Source.parseFeatureInfo.
    by rewrite bool_decide_false.
Qed.

End SourceFacts.

(** ** The Overlay constructor and its caller's options *)
Section InitializeFacts.
Context {HT : HostTypes} {HH : Host}.
Implicit Types (k : string) (ks : list string) (P O : Js.obj value).

Lemma optNames_recognized k :
  truthy (prop k Overlay.optNames) = true ↔ k ∈ Overlay.recognized.
Proof.
  change Overlay.optNames with
    [("crs", VBool true); ("uppercase", VBool true); ("tiled", VBool true);
     ("identify", VBool true); ("opacity", VBool true);
     ("attribution", VBool true)].
  unfold prop, Overlay.recognized. cbn [Js.get].
  rewrite !elem_of_cons, elem_of_nil.
  repeat (case_bool_decide; [subst; simpl; split; [auto 10 | done] |]).
  simpl. split; [done |]. intros Hx. repeat destruct Hx as [-> | Hx]; done.
Qed.

Lemma filter_ext_elem {A} (Q1 Q2 : A → Prop)
    `{!∀ x, Decision (Q1 x), !∀ x, Decision (Q2 x)} (l : list A) :
  (∀ x, x ∈ l → Q1 x ↔ Q2 x) → filter Q1 l = filter Q2 l.
Proof.
  induction l as [|a l IH]; intros Hext; [done |].
  rewrite !filter_cons.
  rewrite IH by (intros x Hx; apply Hext; by right).
  destruct (decide (Q1 a)) as [H1 | H1], (decide (Q2 a)) as [H2 | H2];
    try done; exfalso; apply (Hext a) in H1 || apply (Hext a) in H2;
    done || by left.
Qed.

Lemma get_filter_keys (Q : string → Prop)
    `{!∀ e : string * value, Decision (Q e.1)} k O :
  (Q k → Js.get k (filter (fun e => Q e.1) O) = Js.get k O) ∧
  (¬ Q k → Js.get k (filter (fun e => Q e.1) O) = None).
Proof.
  induction O as [|[k' v'] r [IH1 IH2]]; simpl; [done |].
  rewrite filter_cons. simpl.
  destruct (decide (Q k')) as [Hq | Hq]; simpl.
  - case_bool_decide; [subst; by split | by split].
  - case_bool_decide; [subst; by split | by split].
Qed.

Lemma in_optNames_unmoved k :
  Overlay.in_optNames k = true ↔ k ∈ Overlay.unmoved.
Proof.
  unfold Overlay.in_optNames, Overlay.unmoved, Js.inherits.
  rewrite orb_true_iff, elem_of_app, optNames_recognized.
  by rewrite bool_decide_eq_true.
Qed.

Lemma proto_unmoved : "__proto__" ∈ Overlay.unmoved.
Proof. by apply (bool_decide_unpack (_ ∈ _)). Qed.

Lemma hasOwnProperty_unmoved : "hasOwnProperty" ∈ Overlay.unmoved.
Proof. by apply (bool_decide_unpack (_ ∈ _)). Qed.

Lemma move_param_step P O k0 :
  Js.get "hasOwnProperty" O = None →
  Overlay.move_param (P, O) k0 =
  Ok (if Js.has k0 O && negb (Overlay.in_optNames k0)
      then (Js.set k0 (prop k0 O) P, Js.delete k0 O)
      else (P, O)).
Proof.
  intros Hh. unfold Overlay.move_param, Overlay.hasOwnProperty.
  rewrite Hh. cbn [mbind result_bind]. by destruct (_ && _).
Qed.

(** The loop over the keys [ks], from parameters [P] and options [O],
    when [options.hasOwnProperty] is the inherited method: what is left
    of the options, and the parameters collected. *)
Lemma move_params_Ok ks P O :
  Js.get "hasOwnProperty" O = None →
  ∃ P' O',
    each Overlay.move_param ks (P, O) = Ok (P', O') ∧
    O' = filter (fun e => e.1 ∈ Overlay.unmoved ∨ e.1 ∉ ks) O ∧
    (∀ k, Js.get k P' =
          if decide ((k ∉ Overlay.unmoved) ∧ k ∈ ks ∧ k ∈ Js.keys O)
          then Js.get k O else Js.get k P) ∧
    (NoDup (Js.keys P) → NoDup (Js.keys P')).
Proof.
  revert P O. induction ks as [|k0 ks IH]; intros P O Hh.
  - exists P, O. split; [done |]. split; [| split; [| done]].
    + clear Hh. symmetry. induction O as [|e O IHO]; [done |].
      rewrite filter_cons_True, IHO; [done |]. right. apply not_elem_of_nil.
    + intros k. rewrite decide_False; [done |]. intros (_ & Hn & _).
      by apply elem_of_nil in Hn.
  - cbn [each]. rewrite move_param_step by done. cbn [mbind result_bind].
    destruct (Js.has k0 O) eqn:Hk0; cbn [andb].
    + destruct (Overlay.in_optNames k0) eqn:Ht; cbn [negb].
      * apply in_optNames_unmoved in Ht.
        destruct (IH P O Hh) as (P' & O' & He & HO & HP & HN).
        exists P', O'. split; [done |]. split; [| split; [| done]].
        -- rewrite HO. apply list_filter_iff. intros e.
           rewrite not_elem_of_cons.
           split; [intros [? | ?]; auto | intros [? | [_ ?]]; auto].
           destruct (decide (e.1 = k0)) as [-> | ?]; auto.
        -- intros k. rewrite HP. apply decide_ext. rewrite elem_of_cons.
           split; [intros (? & ? & ?); auto |].
           intros (? & [-> | ?] & ?); done.
      * assert (Hk : k0 ∉ Overlay.unmoved).
        { rewrite <- in_optNames_unmoved. by rewrite Ht. }
        assert (Hp0 : k0 ≠ "__proto__").
        { intros ->. apply Hk, proto_unmoved. }
        assert (Hh' : Js.get "hasOwnProperty" (Js.delete k0 O) = None).
        { apply get_None. rewrite elem_of_keys_delete.
          intros [_ Hin]. by apply get_None in Hh. }
        destruct (IH (Js.set k0 (prop k0 O) P) (Js.delete k0 O) Hh')
          as (P' & O' & He & HO & HP & HN).
        exists P', O'. split; [done |]. split; [| split].
        -- rewrite HO. unfold Js.delete. rewrite list_filter_filter.
           apply list_filter_iff. intros e. rewrite not_elem_of_cons.
           split; [intros [[? | ?] ?]; auto | intros [? | [? ?]]; auto].
           split; [auto | congruence].
        -- intros k. rewrite HP. apply has_true in Hk0.
           destruct (decide (k = k0)) as [-> | Hne].
           ++ rewrite decide_False
                by (rewrite elem_of_keys_delete; intros (_ & _ & [? _]); done).
              rewrite get_set_eq by done.
              rewrite decide_True by (repeat split; [done | by left | done]).
              unfold prop. apply get_is_Some in Hk0 as [v ->]. done.
           ++ rewrite get_set_ne, get_delete_ne by done.
              apply decide_ext. rewrite elem_of_keys_delete, elem_of_cons.
              split; [intros (? & ? & _ & ?); auto |].
              intros (? & [? | ?] & ?); done.
        -- intros ND. apply HN. by apply NoDup_keys_set.
    + destruct (IH P O Hh) as (P' & O' & He & HO & HP & HN).
      exists P', O'. split; [done |]. apply has_false in Hk0.
      split; [| split; [| done]].
      * rewrite HO. apply filter_ext_elem. intros e He'.
        rewrite not_elem_of_cons.
        split; [intros [? | ?]; auto | intros [? | [_ ?]]; auto].
        right. split; [| done]. intros Heq. apply Hk0. rewrite <- Heq.
        apply list_elem_of_fmap. by exists e.
      * intros k. rewrite HP. apply decide_ext. rewrite elem_of_cons.
        split; [intros (? & ? & ?); auto |].
        intros (? & [-> | ?] & ?); done.
Qed.

(** The loop when [options] has an own property [hasOwnProperty]: its
    first turn ends it. *)
Lemma move_params_own ks P O v :
  Js.get "hasOwnProperty" O = Some v → ks ≠ [] →
  each Overlay.move_param ks (P, O) =
  match v with
  | VFun _ => Beyond "options.hasOwnProperty is a function of the caller"
  | _ => Throw "TypeError: options.hasOwnProperty is not a function"
  end.
Proof.
  intros Hh Hks. destruct ks as [|k0 ks]; [done |].
  cbn [each]. unfold Overlay.move_param, Overlay.hasOwnProperty.
  rewrite Hh. by destruct v.
Qed.

(** What is left of the options after the whole loop. *)
Lemma filter_unmoved O :
  filter (fun e => e.1 ∈ Overlay.unmoved ∨ e.1 ∉ Js.keys O) O =
  filter (fun e => e.1 ∈ Overlay.unmoved) O.
Proof.
  apply filter_ext_elem. intros e He.
  split; [intros [? | Hn]; [done |] | auto].
  exfalso. apply Hn. apply list_elem_of_fmap. by exists e.
Qed.

Lemma get_unmoved k O :
  (k ∈ Overlay.unmoved →
   Js.get k (filter (fun e => e.1 ∈ Overlay.unmoved) O) = Js.get k O) ∧
  (k ∉ Overlay.unmoved →
   Js.get k (filter (fun e => e.1 ∈ Overlay.unmoved) O) = None).
Proof. apply (get_filter_keys (fun k => k ∈ Overlay.unmoved)). Qed.


(** The constructor when it returns: the shape of the new Overlay. *)
Lemma initialize_inv url options ovl options' :
  Overlay.initialize url options = Ok (ovl, options') →
  ∃ P opts,
    ovl = {| ov_url := url; ov_options := opts;
             wmsParams := Js.extend (Js.extend [] Overlay.defaultWmsParams) P;
             onError :=
               match options with
               | Some o =>
                   if truthy (prop "onError" o) then prop "onError" o
                   else VUndef
               | None => VUndef
               end;
             ov_map := false; _currentUrl := None;
             _currentOverlay := None |} ∧
    Overlay.setOptions options' = Ok opts ∧
    match options with
    | Some o =>
        Js.get "hasOwnProperty" o = None ∧
        options' = Some (filter (fun e => e.1 ∈ Overlay.unmoved) o) ∧
        (∀ k, Js.get k P =
              if decide ((k ∉ Overlay.unmoved) ∧ k ∈ Js.keys o)
              then Js.get k o else None) ∧
        NoDup (Js.keys P)
    | None => options' = None ∧ P = []
    end.
Proof.
  unfold Overlay.initialize. destruct options as [o|].
  - destruct (Js.get "hasOwnProperty" o) as [v|] eqn:Hh.
    + assert (Hks : Js.keys o ≠ []).
      { intros Hnil. apply get_Some_elem_of in Hh.
        assert (Hin : "hasOwnProperty" ∈ Js.keys o)
          by (apply list_elem_of_fmap; by exists ("hasOwnProperty", v)).
        rewrite Hnil in Hin. by apply elem_of_nil in Hin. }
      rewrite (move_params_own _ _ _ v Hh Hks). by destruct v.
    + destruct (move_params_Ok (Js.keys o) [] o Hh)
        as (P' & O' & -> & HO & HP & HN).
      cbn [mbind result_bind].
      destruct (Overlay.setOptions (Some O')) as [opts|e|y] eqn:Hs;
        cbn [mbind result_bind]; [| done..].
      intros [= <- <-]. exists P', opts. split; [done |]. split; [done |].
      split; [done |]. rewrite filter_unmoved in HO. split; [by rewrite HO |].
      split; [| apply HN; constructor].
      intros k. rewrite HP. simpl.
      destruct (decide (k ∈ Js.keys o)) as [Hin | Hin].
      * apply decide_ext. tauto.
      * rewrite !decide_False by tauto. done.
  - cbn [mbind result_bind].
    destruct (Overlay.setOptions None) as [opts|e|y] eqn:Hs;
      cbn [mbind result_bind]; [| done..].
    intros [= <- <-]. exists [], opts. done.
Qed.

(** ... and when it does: [options] has no own [hasOwnProperty], and no
    own [__proto__] that holds an object or [null]. *)
Lemma initialize_Ok url O :
  Js.get "hasOwnProperty" O = None →
  is_prototype (prop "__proto__" O) = false →
  ∃ ovl,
    Overlay.initialize url (Some O) =
      Ok (ovl, Some (filter (fun e => e.1 ∈ Overlay.unmoved) O)) ∧
    ov_options ovl =
      Js.extend [] (filter (fun e => e.1 ∈ Overlay.unmoved) O).
Proof.
  intros Hh Hp. unfold Overlay.initialize.
  destruct (move_params_Ok (Js.keys O) [] O Hh) as (P' & O' & -> & HO & _).
  rewrite filter_unmoved in HO. subst O'. cbn [mbind result_bind].
  unfold Overlay.setOptions, L_extend. cbn [default from_option]. unfold id.
  assert (Hh' : Js.has "hasOwnProperty"
                  (filter (fun e => e.1 ∈ Overlay.unmoved) O) = false).
  { unfold Js.has.
    rewrite (proj1 (get_unmoved _ O) hasOwnProperty_unmoved). by rewrite Hh. }
  rewrite Hh'.
  assert (Hp' : prop "__proto__" (filter (fun e => e.1 ∈ Overlay.unmoved) O) =
                prop "__proto__" O).
  { unfold prop. by rewrite (proj1 (get_unmoved _ O) proto_unmoved). }
  rewrite Hp', Hp. cbn [andb mbind result_bind]. by eexists.
Qed.

Lemma initialize_None url :
  ∃ ovl, Overlay.initialize url None = Ok (ovl, None) ∧
         wmsParams ovl = Js.extend [] Overlay.defaultWmsParams.
Proof. eexists. split; [reflexivity | done]. Qed.


End InitializeFacts.

(** ** The cache of Sources *)
Section CacheFacts.
Context {HT : HostTypes} {HH : Host}.
Implicit Types (r : Cache.registry).

(** The constructor of a Source returns when [options] has no own
    [hasOwnProperty], and no own [__proto__] that holds an object or
    [null]; the Source is one of the URL. *)
Lemma Source_initialize_Ok url opts :
  Js.has "hasOwnProperty" (default [] opts) = false →
  is_prototype (prop "__proto__" (default [] opts)) = false →
  ∃ x, Source.initialize url opts = Ok x ∧ src_url x.1 = url.
Proof.
  intros Hh Hp. unfold Source.initialize, Source.setOptions, L_extend.
  rewrite Hh, Hp. cbn [andb mbind result_bind].
  set (merged := Js.extend _ _).
  assert (Hm : Js.get "hasOwnProperty" merged = None).
  { unfold merged. rewrite get_extend_notin by by apply has_false. done. }
  assert (Hq : is_prototype (prop "__proto__" merged) = false).
  { unfold prop, merged. by rewrite get_extend_proto. }
  unfold Source.createOverlay.
  destruct (truthy (prop "tiled" merged)); cbn [mbind result_bind].
  { by eexists. }
  destruct (initialize_Ok url merged Hm Hq) as (ovl & -> & _).
  cbn [mbind result_bind]. by eexists.
Qed.

Lemma Source_initialize_url url opts x :
  Source.initialize url opts = Ok x → src_url x.1 = url.
Proof.
  unfold Source.initialize.
  destruct (Source.setOptions opts) as [m | |]; [| done..].
  cbn [mbind result_bind].
  destruct (Source.createOverlay url m) as [[o m'] | |]; [| done..].
  cbn [mbind result_bind]. by intros [= <-].
Qed.

Lemma getSourceForUrl_cached url opts r s :
  Js.get url (Cache.sources r) = Some s →
  Cache.getSourceForUrl url opts r = Ok (Cache.Source_at s, r).
Proof. unfold Cache.getSourceForUrl. by intros ->. Qed.

(** A name of a member of [Object.prototype] that is no own property of
    the cache: the member is returned, nothing is created or stored. *)
Lemma getSourceForUrl_inherited url opts r :
  Js.inherits url = true → Js.get url (Cache.sources r) = None →
  Cache.getSourceForUrl url opts r = Ok (Cache.Inherited url, r).
Proof. unfold Cache.getSourceForUrl. by intros -> ->. Qed.

Lemma inherits_proto url : Js.inherits url = false → url ≠ "__proto__".
Proof. by intros H ->. Qed.

(** A lookup that creates a Source. *)
Lemma getSourceForUrl_new url opts r x :
  Js.inherits url = false → Js.get url (Cache.sources r) = None →
  Source.initialize url opts = Ok x →
  Cache.getSourceForUrl url opts r =
  Ok (Cache.Source_at (length (Cache.heap r)),
      {| Cache.heap := Cache.heap r ++ [x];
         Cache.sources :=
           Js.set url (length (Cache.heap r)) (Cache.sources r) |}).
Proof. unfold Cache.getSourceForUrl. by intros -> -> ->. Qed.

(** What a lookup that returns has returned and done. *)
Lemma getSourceForUrl_inv url opts r c r' :
  Cache.getSourceForUrl url opts r = Ok (c, r') →
  (∃ s, Js.get url (Cache.sources r) = Some s ∧ c = Cache.Source_at s ∧
        r' = r) ∨
  (Js.get url (Cache.sources r) = None ∧ Js.inherits url = true ∧
   c = Cache.Inherited url ∧ r' = r) ∨
  (∃ x, Js.get url (Cache.sources r) = None ∧ Js.inherits url = false ∧
        Source.initialize url opts = Ok x ∧
        c = Cache.Source_at (length (Cache.heap r)) ∧
        r' = {| Cache.heap := Cache.heap r ++ [x];
                Cache.sources :=
                  Js.set url (length (Cache.heap r)) (Cache.sources r) |}).
Proof.
  unfold Cache.getSourceForUrl.
  destruct (Js.get url (Cache.sources r)) as [s|] eqn:E.
  { intros [= <- <-]. left. by exists s. }
  destruct (Js.inherits url) eqn:Ei.
  { intros [= <- <-]. right. by left. }
  destruct (Source.initialize url opts) as [x | |]; [| done..].
  cbn [mbind result_bind]. intros [= <- <-]. right. right. by exists x.
Qed.

(** A lookup keeps what the cache and the heap hold. *)
Lemma getSourceForUrl_keeps url opts r c r' url' s' :
  Cache.getSourceForUrl url opts r = Ok (c, r') →
  Js.get url' (Cache.sources r) = Some s' →
  Js.get url' (Cache.sources r') = Some s'.
Proof.
  intros Hg Hc.
  destruct (getSourceForUrl_inv _ _ _ _ _ Hg)
    as [(s & _ & _ & ->) | [(_ & _ & _ & ->) | (x & E & _ & _ & _ & ->)]];
    [done.. |].
  simpl. rewrite get_set_ne; [done |]. intros ->. congruence.
Qed.

Lemma getSourceForUrl_heap url opts r c r' i x :
  Cache.getSourceForUrl url opts r = Ok (c, r') →
  Cache.heap r !! i = Some x → Cache.heap r' !! i = Some x.
Proof.
  intros Hg Hx.
  destruct (getSourceForUrl_inv _ _ _ _ _ Hg)
    as [(s & _ & _ & ->) | [(_ & _ & _ & ->) | (y & _ & _ & _ & _ & ->)]];
    [done.. |].
  simpl. by apply lookup_app_l_Some.
Qed.

Lemma lookups_cons u o l r :
  Cache.lookups ((u, o) :: l) r =
  '(_, r') ← Cache.getSourceForUrl u o r; Cache.lookups l r'.
Proof.
  unfold Cache.lookups. cbn [each fst snd].
  destruct (Cache.getSourceForUrl u o r) as [[c r'] | |]; done.
Qed.

Lemma lookups_keep later r r2 :
  Cache.lookups later r = Ok r2 →
  (∀ url s, Js.get url (Cache.sources r) = Some s →
            Js.get url (Cache.sources r2) = Some s) ∧
  (∀ i x, Cache.heap r !! i = Some x → Cache.heap r2 !! i = Some x).
Proof.
  revert r. induction later as [|[u o] l IH]; intros r.
  { by intros [= <-]. }
  rewrite lookups_cons.
  destruct (Cache.getSourceForUrl u o r) as [[c r'] | |] eqn:Hg; [| done..].
  cbn [mbind result_bind]. intros Hl. destruct (IH _ Hl) as [IH1 IH2].
  split.
  - intros url s Hs. by eapply IH1, getSourceForUrl_keeps.
  - intros i x Hx. by eapply IH2, getSourceForUrl_heap.
Qed.


End CacheFacts.

(** ** What the Overlay keeps true of its image overlays *)
Section LifecycleFacts.
Context {HT : HostTypes} {HH : Host}.
Implicit Types (m : map) (o : overlay) (w : world).

(** [kept] looks at the map's layers, the image overlays and the Overlay
    only. *)
Lemma kept_ext w w' :
  m_layers (the_map w') = m_layers (the_map w) →
  images w' = images w → ov w' = ov w →
  Events.kept w → Events.kept w'.
Proof.
  intros Hl Hi Ho [K1 K2 K3 K4 K5 K6].
  split; unfold hasLayer; rewrite ?Hl, ?Hi, ?Ho; done.
Qed.

Lemma kept_no_current w :
  Events.kept w → ov_map (ov w) = false → _currentOverlay (ov w) = None.
Proof.
  intros K Hm. destruct (_currentOverlay (ov w)) as [c|] eqn:Ec; [| done..].
  destruct (Events.kept_current w K c Ec) as [Ht _]. congruence.
Qed.

Lemma elem_of_unregister l l' (L : list layer) :
  l ∈ filter (fun x => x ≠ l') L ↔ l ∈ L ∧ l ≠ l'.
Proof. rewrite list_elem_of_filter. tauto. Qed.

Lemma kept_wmsParams w p :
  NoDup (Js.keys p) → Events.kept w →
  Events.kept (with_ov w (ov_with_wmsParams (ov w) p)).
Proof. intros ND [K1 K2 K3 K4 K5 K6]. by split. Qed.

Lemma kept_issue w url p :
  NoDup (Js.keys p) → Events.kept w →
  Events.kept (Overlay.issue url (ov_with_wmsParams (ov w) p) w).
Proof.
  intros ND [K1 K2 K3 K4 K5 K6]. unfold Overlay.issue. split.
  - cbn [ov the_map with_ov register_layer with_images with_map
         ov_map ov_with_currentUrl ov_with_wmsParams].
    rewrite K1. symmetry. by rewrite hasLayer_register.
  - intros c Hc. simpl in Hc. destruct (K2 c Hc) as (Hm & Hin & g & Hg & Hl).
    split; [done |]. split.
    + simpl. apply elem_of_app. by left.
    + exists g. split; [| done..]. simpl. by apply lookup_app_l_Some.
  - intros i. simpl. rewrite elem_of_app, list_elem_of_singleton.
    intros [Hin | [= ->]].
    + destruct (K3 i Hin) as [g Hg]. exists g. by apply lookup_app_l_Some.
    + rewrite list_lookup_middle by done. by eexists.
  - intros i g. simpl. intros Hg Hl. apply elem_of_app.
    destruct (decide (i = length (images w))) as [-> | Hne].
    + right. by left.
    + left. apply (K4 i g); [| done..].
      apply lookup_app_Some in Hg as [Hg | [Hlen Hg]]; [done |].
      destruct (i - length (images w))%nat as [|n] eqn:En; [lia |].
      by destruct n.
  - intros i g. simpl. intros Hg Hin Hc.
    apply lookup_app_Some in Hg as [Hg | [Hlen Hg]].
    + apply (K5 i g); [done | | done].
      apply elem_of_app in Hin as [Hin | Hin]; [done |].
      apply list_elem_of_singleton in Hin as [= ->].
      apply lookup_lt_Some in Hg. lia.
    + destruct (i - length (images w))%nat as [|n] eqn:En.
      * by injection Hg as <-.
      * by destruct n.
  - done.
Qed.

Lemma kept_update w w' :
  Events.kept w → Overlay.update w = Ok w' → Events.kept w'.
Proof.
  intros K [[Hm ->] | (c & Hm & Hc & ->)]%update_inv; [done |].
  cbn zeta.
  assert (ND : NoDup (Js.keys (Js.extend (wmsParams (ov w))
                 (Overlay.spatial_params (the_map w) (ov w) c)))).
  { apply NoDup_keys_extend, K. }
  case_bool_decide; [by apply kept_wmsParams | by apply kept_issue].
Qed.

Lemma kept_fire t w w' :
  Events.kept w → Overlay.fire t w = Ok w' → Events.kept w'.
Proof.
  intros K. destruct t as [|params|b s]; simpl.
  - by apply kept_update.
  - unfold Overlay.setParams.
    destruct (L_extend (wmsParams (ov w)) params) as [merged | |] eqn:E;
      [| done..].
    apply L_extend_inv in E as ->. cbn [mbind result_bind].
    apply kept_update. apply kept_wmsParams; [| done..].
    apply NoDup_keys_extend, K.
  - apply kept_update. by apply (kept_ext w).
Qed.

(** The [load] listener has run. *)
Lemma kept_loaded i w :
  Events.kept w →
  Events.kept (with_images w (alter Overlay.image_loaded i (images w))).
Proof.
  intros [K1 K2 K3 K4 K5 K6]. split; cbn [ov the_map images with_images].
  - done.
  - intros c Hc. destruct (K2 c Hc) as (Hm & Hin & g & Hg & Hl).
    split; [done |]. split; [done |].
    destruct (decide (c = i)) as [-> | Hne].
    + exists (Overlay.image_loaded g).
      by rewrite list_lookup_alter_eq, Hg.
    + exists g. by rewrite list_lookup_alter_ne.
  - intros j Hin. destruct (K3 j Hin) as [g Hg].
    destruct (decide (j = i)) as [-> | Hne].
    + rewrite list_lookup_alter_eq, Hg. by eexists.
    + rewrite list_lookup_alter_ne by done. by eexists.
  - intros j g Hg Hl. destruct (decide (j = i)) as [-> | Hne].
    + rewrite list_lookup_alter_eq in Hg.
      destruct (images w !! i); simpl in Hg; [| done..].
      injection Hg as <-. done.
    + rewrite list_lookup_alter_ne in Hg by done. by apply (K4 j g).
  - intros j g Hg Hin Hc. destruct (decide (j = i)) as [-> | Hne].
    + rewrite list_lookup_alter_eq in Hg.
      destruct (images w !! i) as [g0|] eqn:E0; simpl in Hg; [| done..].
      injection Hg as <-. by apply (K5 i g0).
    + rewrite list_lookup_alter_ne in Hg by done. by apply (K5 j g).
  - done.
Qed.

Lemma kept_unregister_image i w :
  Events.kept w → _currentOverlay (ov w) ≠ Some i →
  (∀ g, images w !! i = Some g → io_load_once g = false) →
  Events.kept (unregister_layer (LImage i) w).
Proof.
  intros [K1 K2 K3 K4 K5 K6] Hc Hl. split.
  - rewrite (hasLayer_unregister LOverlay (LImage i)) by done. done.
  - intros c Ec. simpl in Ec. destruct (K2 c Ec) as (Hm & Hin & g & Hg & Hlg).
    split; [done |]. split; [| by exists g].
    simpl. apply elem_of_unregister. split; [done |]. congruence.
  - intros j [Hin _]%elem_of_unregister. by apply K3.
  - intros j g Hg Hlg. simpl. apply elem_of_unregister.
    split; [by apply (K4 j g) |].
    intros [= ->]. simpl in Hg. rewrite (Hl g Hg) in Hlg. done.
  - intros j g Hg [Hin _]%elem_of_unregister Hcj. by apply (K5 j g).
  - done.
Qed.

Lemma kept_swap i g w :
  Events.kept w → LImage i ∈ m_layers (the_map w) →
  _currentOverlay (ov w) ≠ Some i →
  (∀ g', images w !! i = Some g' → io_load_once g' = false) →
  Events.kept (Overlay._swap i g w).
Proof.
  intros K Hin Hc Hl. unfold Overlay._swap.
  destruct (ov_map (ov w)) eqn:Hm; cbn [negb]; [| done..].
  destruct (negb _); [by apply kept_unregister_image |].
  set (v := if truthy _ then _ else _). clearbody v.
  pose proof K as [K1 K2 K3 K4 K5 K6].
  assert (Hinc : ∀ j, LImage j ∈ m_layers (the_map
            match _currentOverlay (ov w) with
            | Some c => unregister_layer (LImage c) w
            | None => w
            end) ↔
          LImage j ∈ m_layers (the_map w) ∧ _currentOverlay (ov w) ≠ Some j).
  { intros j. destruct (_currentOverlay (ov w)) as [c|]; simpl.
    - rewrite elem_of_unregister. split; intros [? ?]; split; congruence.
    - split; [by intros ? | by intros [? _]]. }
  assert (Hsame : ∀ P : world → Prop,
            P w → (∀ c, P (unregister_layer (LImage c) w)) →
            P match _currentOverlay (ov w) with
              | Some c => unregister_layer (LImage c) w
              | None => w
              end).
  { intros P H1 H2. by destruct (_currentOverlay (ov w)). }
  set (w1 := match _currentOverlay (ov w) with
             | Some c => unregister_layer (LImage c) w
             | None => w
             end) in *.
  assert (Hov : ov w1 = ov w) by (subst w1; by apply Hsame).
  assert (Him : images w1 = images w) by (subst w1; by apply Hsame).
  assert (Hh : hasLayer LOverlay w1 = hasLayer LOverlay w).
  { subst w1. apply (Hsame (fun x => hasLayer LOverlay x = _)); [done |].
    intros c. by apply (hasLayer_unregister LOverlay (LImage c)). }
  unfold Overlay.setOpacity. split;
    cbn [ov the_map images with_images with_ov _currentOverlay ov_map
         ov_with_currentOverlay wmsParams].
  - rewrite Hov, K1, <- Hh. done.
  - intros c [= <-]. rewrite Hov. split; [done |]. split.
    + by apply Hinc.
    + rewrite Him. destruct (K3 i Hin) as [g0 Hg0].
      exists (Overlay.image_with_opacity g0 v).
      rewrite list_lookup_alter_eq, Hg0. split; [done |].
      simpl. by apply Hl.
  - intros j [Hj _]%Hinc. rewrite Him. destruct (K3 j Hj) as [g0 Hg0].
    destruct (decide (j = i)) as [-> | Hne].
    + rewrite list_lookup_alter_eq, Hg0. by eexists.
    + rewrite list_lookup_alter_ne by done. by eexists.
  - intros j g0. rewrite Him. intros Hg0 Hl0.
    destruct (decide (j = i)) as [-> | Hne].
    + rewrite list_lookup_alter_eq in Hg0.
      destruct (images w !! i) as [g1|] eqn:E1; simpl in Hg0; [| done..].
      injection Hg0 as <-. simpl in Hl0. rewrite (Hl g1) in Hl0; done.
    + rewrite list_lookup_alter_ne in Hg0 by done.
      apply Hinc. split; [by apply (K4 j g0) |].
      intros Ec. destruct (K2 j Ec) as (_ & _ & g1 & Hg1 & Hl1). congruence.
  - intros j g0. rewrite Him. intros Hg0 [Hj Hcj]%Hinc Hji.
    assert (Hne : j ≠ i) by congruence.
    rewrite list_lookup_alter_ne in Hg0 by done. by apply (K5 j g0).
  - rewrite Hov. done.
Qed.

Lemma kept_image_load i w w' :
  Events.kept w → Overlay.image_load i w = Ok w' → Events.kept w'.
Proof.
  intros K. unfold Overlay.image_load.
  destruct (images w !! i) as [g|] eqn:Eg; [| by intros [= <-]].
  destruct (io_load_once g) eqn:El; [| by intros [= <-]].
  intros [= <-]. apply kept_swap.
  - by apply kept_loaded.
  - apply (Events.kept_pending w K i g); done.
  - cbn [ov with_images]. intros Ec.
    destruct (Events.kept_current w K i Ec) as (_ & _ & g1 & Hg1 & Hl1).
    congruence.
  - cbn [images with_images]. intros g'.
    rewrite list_lookup_alter_eq, Eg. by intros [= <-].
Qed.

Lemma kept_image_error i w w' :
  Events.kept w → Overlay.image_error i w = Ok w' → Events.kept w'.
Proof.
  intros K. unfold Overlay.image_error.
  destruct (images w !! i); [| by intros [= <-]].
  destruct (onError (ov w)); try done; intros [= <-]; [done |].
  by apply (kept_ext w).
Qed.

Lemma kept_overlay_addTo w w' :
  Events.kept w → Overlay.addTo w = Ok w' → Events.kept w'.
Proof.
  intros K. unfold Overlay.addTo.
  destruct (hasLayer LOverlay w) eqn:Hh; [by intros [= <-] |].
  unfold Overlay.onAdd. apply kept_update.
  pose proof K as [K1 K2 K3 K4 K5 K6].
  assert (Hnone : _currentOverlay (ov w) = None).
  { apply kept_no_current; [done | congruence]. }
  split; cbn [ov the_map images with_ov register_layer with_map
              map_with_layers m_layers ov_map ov_with_map _currentOverlay
              wmsParams].
  - symmetry. apply (hasLayer_register_eq LOverlay w).
  - intros c Ec. congruence.
  - intros i. rewrite elem_of_app, list_elem_of_singleton.
    intros [Hin | [=]]. by apply K3.
  - intros i g Hg Hl. apply elem_of_app. left. by apply (K4 i g).
  - intros i g Hg Hin _. apply (K5 i g); [done | | congruence].
    apply elem_of_app in Hin as [Hin | Hin]; [done |].
    by apply list_elem_of_singleton in Hin.
  - done.
Qed.

Lemma onRemove_layers w j :
  LImage j ∈ m_layers (the_map (Overlay.onRemove w)) ↔
  LImage j ∈ m_layers (the_map w) ∧ _currentOverlay (ov w) ≠ Some j.
Proof.
  unfold Overlay.onRemove.
  destruct (_currentOverlay (ov w)) as [c|]; simpl;
    destruct (_currentUrl (ov w)) as [u|]; simpl;
    try case_bool_decide; simpl; rewrite ?elem_of_unregister;
    split; intros [? ?] || intros ?; try split; congruence.
Qed.

Lemma onRemove_images w : images (Overlay.onRemove w) = images w.
Proof.
  unfold Overlay.onRemove.
  destruct (_currentOverlay (ov w)) as [c|]; simpl;
    destruct (_currentUrl (ov w)) as [u|]; simpl;
    try case_bool_decide; done.
Qed.

Lemma onRemove_current w : _currentOverlay (ov (Overlay.onRemove w)) = None.
Proof.
  unfold Overlay.onRemove.
  destruct (_currentOverlay (ov w)) as [c|] eqn:Ec; simpl;
    destruct (_currentUrl (ov w)) as [u|]; simpl;
    try case_bool_decide; done.
Qed.

Lemma onRemove_currentUrl w :
  _currentUrl (ov w) ≠ Some "" → _currentUrl (ov (Overlay.onRemove w)) = None.
Proof.
  intros Hu. unfold Overlay.onRemove.
  destruct (_currentOverlay (ov w)) as [c|] eqn:Ec; simpl;
    destruct (_currentUrl (ov w)) as [u|] eqn:Eu; simpl;
    try case_bool_decide; subst; simpl; congruence.
Qed.

Lemma kept_overlay_removeFrom w :
  Events.kept w → Events.kept (Overlay.removeFrom w).
Proof.
  intros K. unfold Overlay.removeFrom.
  destruct (hasLayer LOverlay w) eqn:Hh; [| done..].
  pose proof K as [K1 K2 K3 K4 K5 K6].
  pose proof (onRemove_layers w) as Hl.
  pose proof (onRemove_images w) as Hi.
  pose proof (onRemove_current w) as Hc.
  destruct (onRemove_frame w) as (_ & Hm & _ & _ & _ & Hp).
  split; cbn [ov the_map images unregister_layer with_map map_with_layers
              m_layers].
  - rewrite Hm. symmetry. apply hasLayer_unregister_eq.
  - intros c Ec. congruence.
  - intros i [[Hin _]%Hl _]%elem_of_unregister. rewrite Hi. by apply K3.
  - intros i g. rewrite Hi. intros Hg Hlg. apply elem_of_unregister.
    split; [| done..]. apply Hl. split; [by apply (K4 i g) |].
    intros Ec. destruct (K2 i Ec) as (_ & _ & g1 & Hg1 & Hl1). congruence.
  - intros i g. rewrite Hi.
    intros Hg [[Hin Hci]%Hl _]%elem_of_unregister _. by apply (K5 i g).
  - by rewrite Hp.
Qed.

Lemma kept_refreshOverlay w w' :
  Events.kept w → Source.refreshOverlay w = Ok w' → Events.kept w'.
Proof.
  intros K. unfold Source.refreshOverlay.
  destruct (negb _); [by intros [= <-] |].
  case_bool_decide.
  - intros [= <-]. by apply kept_overlay_removeFrom.
  - destruct (Overlay.setParams _ w) as [w1|e|y] eqn:E1; simpl; [| done..].
    apply kept_overlay_addTo. revert E1. apply (kept_fire (Overlay.SetParams _)).
    done.
Qed.

Lemma kept_sub_apply c w w' :
  Events.kept w → Source.sub_apply c w = Ok w' → Events.kept w'.
Proof.
  intros K. destruct c; apply kept_refreshOverlay; by apply (kept_ext w).
Qed.

Lemma kept_source_addTo w w' :
  Events.kept w → Source.addTo w = Ok w' → Events.kept w'.
Proof.
  intros K. unfold Source.addTo.
  destruct (hasLayer LSource w); [by intros [= <-] |].
  apply kept_refreshOverlay.
  pose proof K as [K1 K2 K3 K4 K5 K6].
  split; cbn [ov the_map images with_src register_layer with_map
              map_with_layers m_layers].
  - rewrite K1. symmetry. by apply (hasLayer_register LOverlay LSource).
  - intros c Ec. destruct (K2 c Ec) as (? & ? & ?).
    split; [done |]. split; [| done..]. apply elem_of_app. by left.
  - intros i. rewrite elem_of_app, list_elem_of_singleton.
    intros [Hin | [=]]. by apply K3.
  - intros i g Hg Hl. apply elem_of_app. left. by apply (K4 i g).
  - intros i g Hg Hin Hc. apply (K5 i g); [done | | done].
    apply elem_of_app in Hin as [Hin | Hin]; [done |].
    by apply list_elem_of_singleton in Hin.
  - done.
Qed.

Lemma kept_source_removeFrom w :
  Events.kept w → Events.kept (Source.removeFrom w).
Proof.
  intros K. unfold Source.removeFrom.
  destruct (hasLayer LSource w); [| done..].
  pose proof K as [K1 K2 K3 K4 K5 K6].
  split; cbn [ov the_map images Source.onRemove with_src unregister_layer
              with_map map_with_layers m_layers].
  - rewrite K1. symmetry.
    by rewrite (hasLayer_unregister LOverlay LSource).
  - intros c Ec. destruct (K2 c Ec) as (? & ? & ?).
    split; [done |]. split; [| done..]. by apply elem_of_unregister.
  - intros i [Hin _]%elem_of_unregister. by apply K3.
  - intros i g Hg Hl. apply elem_of_unregister. split; [| done..].
    by apply (K4 i g).
  - intros i g Hg [Hin _]%elem_of_unregister Hc. by apply (K5 i g).
  - done.
Qed.

Lemma kept_getFeatureInfo p ll layers h w w' :
  Events.kept w → Source.getFeatureInfo p ll layers h w = Ok w' →
  Events.kept w'.
Proof.
  intros K. unfold Source.getFeatureInfo.
  destruct (Source.getFeatureInfoParams p layers w) as [[params w1]|e|y] eqn:E;
    simpl; [| done..].
  intros [= <-].
  assert (K1 : Events.kept w1).
  { revert E. unfold Source.getFeatureInfoParams.
    destruct (truthy _).
    - destruct (Overlay.initialize _ _) as [[o opts'] | |]; [| done..].
      cbn [mbind result_bind]. destruct (negb _); [done |].
      destruct (Overlay.updateWmsParams _ _); simpl; [| done..].
      intros [= _ <-]. by apply (kept_ext w).
    - by intros [= _ <-]. }
  apply (kept_ext w1); try done;
    unfold Source.showWaiting; by destruct (negb _).
Qed.

Lemma kept_change i rs st body w w' :
  Events.kept w → Source.change i rs st body w = Ok w' → Events.kept w'.
Proof.
  intros K. unfold Source.change.
  destruct (requests w !! i) as [x|]; [| by intros [= <-]].
  assert (Hd : ∀ r, Events.kept (Source.done x r w)).
  { intros r. apply (kept_ext w); try done;
      unfold Source.done, Source.call_hook, Source.showFeatureInfo,
        Source.hideWaiting;
      destruct (x_callback x); simpl;
      destruct (src_map (src w)) eqn:E; simpl; rewrite ?E; done. }
  repeat case_bool_decide; by intros [= <-].
Qed.

Lemma kept_step e w w' :
  Events.kept w → Events.step e w = Ok w' → Events.kept w'.
Proof.
  intros K. destruct e; simpl.
  - by apply kept_fire.
  - by apply kept_image_load.
  - by apply kept_image_error.
  - by apply kept_overlay_addTo.
  - intros [= <-]. by apply kept_overlay_removeFrom.
  - by apply kept_sub_apply.
  - by apply kept_source_addTo.
  - intros [= <-]. by apply kept_source_removeFrom.
  - unfold Layer.onAdd. destruct (negb _).
    + destruct (Source.addTo w) as [w1| |] eqn:E1; simpl; [| done..].
      apply (kept_sub_apply (Source.AddSubLayer _)).
      by apply (kept_source_addTo w).
    + by apply (kept_sub_apply (Source.AddSubLayer _)).
  - by apply (kept_sub_apply (Source.RemoveSubLayer _)).
  - by apply kept_getFeatureInfo.
  - by apply kept_change.
Qed.

Lemma kept_steps l w w' :
  Events.kept w → Events.steps l w = Ok w' → Events.kept w'.
Proof.
  revert w. induction l as [|e l IH]; intros w K; simpl.
  - by intros [= <-].
  - destruct (Events.step e w) as [w1| |] eqn:E1; simpl; [| done..].
    apply IH. by apply (kept_step e w).
Qed.

Lemma kept_fresh m s url opts o opts' :
  Overlay.initialize url opts = Ok (o, opts') →
  Events.kept (Events.fresh m s o).
Proof.
  intros (P & O & -> & _)%initialize_inv.
  split; unfold hasLayer; cbn [Events.fresh ov the_map images m_layers
                                map_with_layers ov_map _currentOverlay
                                wmsParams].
  - symmetry. apply bool_decide_eq_false. apply not_elem_of_nil.
  - intros c Ec. congruence.
  - intros i Hin. by apply elem_of_nil in Hin.
  - intros i g Hg. done.
  - intros i g Hg. done.
  - repeat apply NoDup_keys_extend. constructor.
Qed.

(** X1. The Overlay owns the image it displays.  Start from a new
    Overlay on a map that holds no layer yet and let anything happen, in
    any order: updates, parameter changes, map moves, image loads and
    failures, the Overlay, the Source and Layers being added and removed,
    feature requests and their responses.  Then, whenever the run has not
    thrown: the image the Overlay displays has loaded and is on the map;
    every other image overlay on the map still has the opacity 0 it was
    created with, so at most one image is visible; an Overlay that is off
    the map displays none; and the images whose load is awaited are on
    the map. *)
Theorem displayed_image_is_kept m s url opts o opts'
    (l : list Events.event) w :
  Overlay.initialize url opts = Ok (o, opts') →
  Events.steps l (Events.fresh m s o) = Ok w →
  Events.kept w.
Proof. intros Hi. by eapply kept_steps, kept_fresh. Qed.

Lemma swap_lookup i g w g0 :
  images w !! i = Some g0 →
  ∃ g1, images (Overlay._swap i g w) !! i = Some g1 ∧
        io_load_once g1 = io_load_once g0.
Proof.
  intros Hg. unfold Overlay._swap.
  destruct (negb (ov_map (ov w))); [by exists g0 |].
  destruct (negb _); [by exists g0 |].
  unfold Overlay.setOpacity. cbn [images with_images with_ov].
  eexists. split.
  - rewrite list_lookup_alter_eq.
    destruct (_currentOverlay (ov w)); simpl; by rewrite Hg.
  - done.
Qed.

(** X2. A [load] event is acted on once.  [image_load] always returns,
    and a second [load] of the same image overlay changes nothing: the
    listener was registered with [once]. *)
Theorem image_load_acts_once i w :
  ∃ w', Overlay.image_load i w = Ok w' ∧ Overlay.image_load i w' = Ok w' ∧
        length (images w') = length (images w).
Proof.
  unfold Overlay.image_load at 1.
  destruct (images w !! i) as [g|] eqn:Eg.
  - destruct (io_load_once g) eqn:El.
    + eexists. split; [done |].
      destruct (swap_lookup i g
                  (with_images w (alter Overlay.image_loaded i (images w)))
                  (Overlay.image_loaded g)) as (g1 & Hg1 & Hl1).
      { cbn [images with_images]. by rewrite list_lookup_alter_eq, Eg. }
      split.
      * unfold Overlay.image_load. rewrite Hg1, Hl1. done.
      * unfold Overlay._swap, Overlay.setOpacity.
        destruct (negb (ov_map _)); [simpl; by rewrite length_alter |].
        destruct (negb (bool_decide _)); [simpl; by rewrite length_alter |].
        cbn [images with_images with_ov]. rewrite length_alter.
        destruct (_currentOverlay _); simpl; by rewrite length_alter.
    + exists w. split; [done |]. split; [| done..].
      unfold Overlay.image_load. by rewrite Eg, El.
  - exists w. split; [done |]. split; [| done..].
    unfold Overlay.image_load. by rewrite Eg.
Qed.

(** X3. Removing the Overlay from the map does not remove the image
    overlays whose load is still awaited.  Such an image stays on the
    map; when it then loads, the map and the Overlay stay as they are:
    the image is not displayed, it keeps its opacity 0, and, its listener
    having run, no later [load] displays it. *)
Theorem removal_strands_pending_image w i g :
  Events.kept w → hasLayer LOverlay w = true →
  images w !! i = Some g → io_load_once g = true →
  let w1 := Overlay.removeFrom w in
  hasLayer LOverlay w1 = false ∧
  LImage i ∈ m_layers (the_map w1) ∧
  ∃ w2, Overlay.image_load i w1 = Ok w2 ∧
        the_map w2 = the_map w1 ∧ ov w2 = ov w1 ∧
        _currentOverlay (ov w2) = None ∧
        images w2 !! i = Some (Overlay.image_loaded g) ∧
        io_opacity g = VNum num_0 ∧
        Overlay.image_load i w2 = Ok w2.
Proof.
  intros K Hh Hg Hl w1. subst w1. unfold Overlay.removeFrom. rewrite Hh.
  assert (Hci : _currentOverlay (ov w) ≠ Some i).
  { intros Ec. destruct (Events.kept_current w K i Ec) as (_ & _ & g1 & ? & ?).
    congruence. }
  assert (Hin : LImage i ∈ m_layers (the_map w))
    by by apply (Events.kept_pending w K i g).
  destruct (onRemove_frame w) as (_ & Hm & _).
  set (w1 := unregister_layer LOverlay (Overlay.onRemove w)).
  assert (Hi1 : images w1 = images w) by apply onRemove_images.
  assert (Hm1 : ov_map (ov w1) = false) by apply Hm.
  split; [apply hasLayer_unregister_eq |].
  split.
  { apply elem_of_unregister. split; [| done..]. by apply onRemove_layers. }
  set (w2 := with_images w1 (alter Overlay.image_loaded i (images w1))).
  assert (H12 : Overlay.image_load i w1 = Ok w2).
  { unfold Overlay.image_load. rewrite Hi1, Hg, Hl. unfold Overlay._swap.
    cbn [ov with_images]. rewrite Hm1. subst w2. by rewrite Hi1. }
  assert (Hg2 : images w2 !! i = Some (Overlay.image_loaded g)).
  { subst w2. cbn [images with_images].
    by rewrite Hi1, list_lookup_alter_eq, Hg. }
  exists w2. split; [done |]. split; [done |]. split; [done |].
  split; [apply onRemove_current |]. split; [done |].
  split; [by apply (Events.kept_hidden w K i g) |].
  unfold Overlay.image_load. by rewrite Hg2.
Qed.

(** X4. Removing the Overlay forgets what it displayed and what it last
    requested: the displayed image leaves the map at once, and adding the
    Overlay again requests an image anew, although neither the viewport
    nor a parameter has changed; until that image loads the Overlay
    displays none. *)
Theorem readding_requests_again w :
  Events.kept w → hasLayer LOverlay w = true → Overlay.crs_ok w →
  _currentUrl (ov w) ≠ Some "" →
  let w1 := Overlay.removeFrom w in
  (∀ c, _currentOverlay (ov w) = Some c → LImage c ∉ m_layers (the_map w1)) ∧
  _currentOverlay (ov w1) = None ∧ _currentUrl (ov w1) = None ∧
  ∃ w' g, Overlay.addTo w1 = Ok w' ∧
    images w' = images w ++ [g] ∧
    io_load_once g = true ∧ io_opacity g = VNum num_0 ∧
    _currentUrl (ov w') = Some (io_url g) ∧
    _currentOverlay (ov w') = None ∧
    hasLayer LOverlay w' = true ∧
    LImage (length (images w)) ∈ m_layers (the_map w') ∧
    (∀ c, _currentOverlay (ov w) = Some c → LImage c ∉ m_layers (the_map w')).
Proof.
  intros K Hh [c Hc] Hu w1. subst w1. unfold Overlay.removeFrom. rewrite Hh.
  set (w1 := unregister_layer LOverlay (Overlay.onRemove w)).
  assert (Hgone : ∀ d, _currentOverlay (ov w) = Some d →
                       LImage d ∉ m_layers (the_map w1)).
  { intros d Ed [[_ Hd]%onRemove_layers _]%elem_of_unregister. done. }
  assert (Hcur : _currentOverlay (ov w1) = None) by apply onRemove_current.
  assert (Hurl : _currentUrl (ov w1) = None) by by apply onRemove_currentUrl.
  split; [done |]. split; [done |]. split; [done |].
  assert (Hh1 : hasLayer LOverlay w1 = false) by apply hasLayer_unregister_eq.
  unfold Overlay.addTo, Overlay.onAdd. rewrite Hh1.
  set (w2 := with_ov _ _).
  destruct (onRemove_frame w) as (_ & _ & Ho & Hcrs & _).
  assert (Hc2 : Overlay.chosen_crs (the_map w2) (ov w2) = Ok c).
  { revert Hc. unfold Overlay.chosen_crs. subst w2 w1.
    cbn [ov the_map with_ov register_layer unregister_layer with_map
         map_with_layers m_crs ov_options ov_with_map].
    by rewrite Ho, Hcrs. }
  rewrite (update_attached w2 c) by done. cbn zeta.
  rewrite bool_decide_false
    by (subst w2; cbn [ov with_ov register_layer with_map _currentUrl
                       ov_with_map]; rewrite Hurl; done).
  eexists _, _. split; [done |].
  unfold Overlay.issue.
  cbn [images ov the_map with_images with_ov register_layer with_map
       map_with_layers m_layers _currentUrl _currentOverlay
       ov_with_currentUrl ov_with_wmsParams].
  assert (Hi2 : images w2 = images w) by apply onRemove_images.
  rewrite Hi2. split; [done |]. split; [done |]. split; [done |].
  split; [done |].
  split; [subst w2; cbn [ov with_ov _currentOverlay ov_with_map]; done |].
  split.
  { unfold hasLayer. apply bool_decide_eq_true.
    cbn [the_map with_map map_with_layers m_layers].
    apply elem_of_app. left. subst w2.
    cbn [the_map with_ov register_layer with_map map_with_layers m_layers].
    apply elem_of_app. right. by left. }
  split; [apply elem_of_app; right; by left |].
  intros d Ed. subst w2.
  cbn [the_map with_ov register_layer with_map map_with_layers m_layers].
  rewrite !elem_of_app, !list_elem_of_singleton.
  intros [[Hd | [=]] | [= ->]].
  - by apply (Hgone d).
  - destruct (Events.kept_current w K _ Ed) as (_ & _ & g1 & Hg1 & _).
    apply lookup_lt_Some in Hg1. lia.
Qed.

Lemma update_calls w w' c :
  Overlay.update w = Ok w' →
  Overlay.update (with_calls w c) = Ok (with_calls w' c).
Proof.
  unfold Overlay.update. cbn [ov the_map with_calls].
  destruct (negb (ov_map (ov w))); [by intros [= <-] |].
  destruct (Overlay.updateWmsParams (the_map w) (ov w)) as [o|e|y]; simpl;
    [| done..].
  case_bool_decide; by intros [= <-].
Qed.

(** X18. A failed image is not requested again.  When the image an
    update asked for fails to load, the Overlay still holds its URL as
    the last one requested: a further [update()] returns without a new
    request, and goes on doing so until the viewport or a parameter
    changes the URL. *)
Theorem failed_image_is_not_retried w w1 w2 i :
  Overlay.update w = Ok w1 → Overlay.image_error i w1 = Ok w2 →
  Overlay.update w2 = Ok w2 ∧ images w2 = images w1 ∧
  _currentUrl (ov w2) = _currentUrl (ov w1).
Proof.
  intros Hu%update_fixed. unfold Overlay.image_error.
  destruct (images w1 !! i) as [g|]; [| by intros [= <-]].
  destruct (onError (ov w1)); try done; intros [= <-]; [done |].
  split; [by apply update_calls | done].
Qed.

(** X19. The image that was requested last, when it loads on an Overlay
    that is on the map, takes the place of the displayed one: it becomes
    the displayed image, with the opacity of the [opacity] option when
    that is truthy and 1 otherwise (so also for an opacity of 0); the
    image displayed before leaves the map; every other layer of the map
    and every other image overlay stay as they are. *)
Theorem loaded_image_replaces_displayed w i g :
  Events.kept w → images w !! i = Some g → io_load_once g = true →
  ov_map (ov w) = true → _currentUrl (ov w) = Some (io_url g) →
  let shown := if truthy (prop "opacity" (ov_options (ov w)))
               then prop "opacity" (ov_options (ov w)) else VNum num_1 in
  ∃ w', Overlay.image_load i w = Ok w' ∧
    _currentOverlay (ov w') = Some i ∧
    LImage i ∈ m_layers (the_map w') ∧
    images w' !! i =
      Some (Overlay.image_with_opacity (Overlay.image_loaded g) shown) ∧
    (∀ c, _currentOverlay (ov w) = Some c →
          c ≠ i ∧ LImage c ∉ m_layers (the_map w')) ∧
    (∀ l, l ∈ m_layers (the_map w') ↔
          l ∈ m_layers (the_map w) ∧
          ∀ c, _currentOverlay (ov w) = Some c → l ≠ LImage c) ∧
    (∀ j, j ≠ i → images w' !! j = images w !! j).
Proof.
  intros K Hg Hl Hm Hu shown.
  rewrite (image_load_pending i g) by done.
  set (w0 := with_images w (alter Overlay.image_loaded i (images w))).
  destruct (swap_fresh i g w0 Hm Hu) as (Hc & Hi & Hlay & _).
  cbn zeta in Hc, Hi, Hlay. fold shown in Hi.
  change (_currentOverlay (ov w0)) with (_currentOverlay (ov w)) in Hlay.
  change (m_layers (the_map w0)) with (m_layers (the_map w)) in Hlay.
  change (images w0) with (alter Overlay.image_loaded i (images w)) in Hi.
  assert (Hci : ∀ c, _currentOverlay (ov w) = Some c → c ≠ i).
  { intros c Ec ->.
    destruct (Events.kept_current w K i Ec) as (_ & _ & g1 & Hg1 & Hl1).
    congruence. }
  assert (Hin : LImage i ∈ m_layers (the_map w))
    by by apply (Events.kept_pending w K i g).
  assert (Hmem : ∀ l, l ∈ m_layers (the_map (Overlay._swap i g w0)) ↔
            l ∈ m_layers (the_map w) ∧
            ∀ c, _currentOverlay (ov w) = Some c → l ≠ LImage c).
  { intros l. rewrite Hlay. destruct (_currentOverlay (ov w)) as [c|].
    - rewrite elem_of_unregister.
      split; [intros [? ?]; split; [done |]; by intros ? [= <-] |].
      intros [? Hne]. split; [done |]. by apply Hne.
    - split; [by intros ? | by intros [? _]]. }
  eexists. split; [reflexivity |]. split; [done |].
  split.
  { apply Hmem. split; [done |]. intros c Ec [= ->]. by apply (Hci c). }
  split.
  { rewrite Hi, !list_lookup_alter_eq, Hg. done. }
  split.
  { intros c Ec. split; [by apply Hci |].
    intros [_ Hne]%Hmem. by apply (Hne c). }
  split; [done |].
  intros j Hj. rewrite Hi, !list_lookup_alter_ne by done. done.
Qed.

(** X20. No call of [update], [setParams] or map move takes anything
    away: the displayed image stays the displayed one, every layer of
    the map stays on it, and every image overlay stays as it is; at most
    one image overlay is created.  What is displayed stays in place until
    a new image has loaded. *)
Theorem triggers_keep_displayed t w w' :
  Overlay.fire t w = Ok w' →
  _currentOverlay (ov w') = _currentOverlay (ov w) ∧
  (∀ l, l ∈ m_layers (the_map w) → l ∈ m_layers (the_map w')) ∧
  (∀ i g, images w !! i = Some g → images w' !! i = Some g) ∧
  (length (images w') ≤ S (length (images w)))%nat.
Proof.
  intros (w0 & Hu & Hi & Hl & Hc & _)%fire_update.
  rewrite <- Hi, <- Hl, <- Hc.
  apply update_inv in Hu as [[Hm ->] | (c & Hm & Hcrs & ->)].
  - repeat split; try done. lia.
  - cbn zeta. case_bool_decide.
    + repeat split; try done. simpl. lia.
    + unfold Overlay.issue.
      cbn [ov the_map images with_images with_ov register_layer with_map
           map_with_layers m_layers _currentOverlay ov_with_currentUrl
           ov_with_wmsParams].
      split; [done |].
      split; [intros l Hin; apply elem_of_app; by left |].
      split; [intros i g Hg; by apply lookup_app_l_Some |].
      rewrite length_app. simpl. lia.
Qed.

End LifecycleFacts.

(** ** The names of the WMS parameters *)
Section ParameterFacts.
Context {HT : HostTypes} {HH : Host}.
Implicit Types (m : map) (o : overlay) (w : world).

Lemma plain_ext w w' :
  wmsParams (ov w') = wmsParams (ov w) → Events.plain w → Events.plain w'.
Proof. unfold Events.plain. by intros ->. Qed.

Lemma has_extend k (d s : Js.obj value) :
  Js.has k d = false → Js.has k s = false → Js.has k (Js.extend d s) = false.
Proof.
  rewrite !has_false, elem_of_keys_extend. tauto.
Qed.

Lemma has_extend_proto (d s : Js.obj value) :
  Js.has "__proto__" d = false → Js.has "__proto__" (Js.extend d s) = false.
Proof.
  rewrite !has_false, elem_of_keys_extend. tauto.
Qed.

Lemma hasOwnProperty_not_spatial m o c :
  Js.has "hasOwnProperty" (Overlay.spatial_params m o c) = false.
Proof.
  apply has_false. rewrite spatial_keys. unfold Overlay.projectionKey.
  destruct (Overlay.version_ge_1_3 _); by apply (bool_decide_unpack (_ ∉ _)).
Qed.

Lemma plain_wmsParams w p :
  Js.has "hasOwnProperty" p = false → Events.plain w →
  Events.plain
    (with_ov w (ov_with_wmsParams (ov w) (Js.extend (wmsParams (ov w)) p))).
Proof.
  intros Hp [H1 H2]. split; cbn [ov with_ov wmsParams ov_with_wmsParams].
  - by apply has_extend.
  - by apply has_extend_proto.
Qed.

Lemma plain_update w w' :
  Events.plain w → Overlay.update w = Ok w' → Events.plain w'.
Proof.
  intros P [[Hm ->] | (c & Hm & Hc & ->)]%update_inv; [done |].
  cbn zeta.
  pose proof (plain_wmsParams w _ (hasOwnProperty_not_spatial
                                     (the_map w) (ov w) c) P) as P1.
  case_bool_decide; [done |]. revert P1. by apply plain_ext.
Qed.

Lemma plain_fire t w w' :
  Events.plain w → Overlay.fire t w = Ok w' → Events.plain w'.
Proof.
  intros P. destruct t as [|params|b s]; simpl.
  - by apply plain_update.
  - unfold Overlay.setParams, L_extend.
    destruct (Js.has "hasOwnProperty" params) eqn:Hh; [done |].
    destruct (_ && _); [done |]. cbn [mbind result_bind].
    apply plain_update. by apply plain_wmsParams.
  - apply plain_update. by apply (plain_ext w).
Qed.

Lemma plain_image_load i w w' :
  Events.plain w → Overlay.image_load i w = Ok w' → Events.plain w'.
Proof.
  intros P. unfold Overlay.image_load.
  destruct (images w !! i) as [g|]; [| by intros [= <-]].
  destruct (io_load_once g); [| by intros [= <-]].
  intros [= <-]. revert P. apply plain_ext.
  unfold Overlay._swap. cbn [ov with_images].
  destruct (negb _); [done |]. destruct (negb _); [done |].
  by destruct (_currentOverlay (ov w)).
Qed.

Lemma plain_image_error i w w' :
  Events.plain w → Overlay.image_error i w = Ok w' → Events.plain w'.
Proof.
  intros P. unfold Overlay.image_error.
  destruct (images w !! i); [| by intros [= <-]].
  destruct (onError (ov w)); try done; by intros [= <-].
Qed.

Lemma plain_overlay_addTo w w' :
  Events.plain w → Overlay.addTo w = Ok w' → Events.plain w'.
Proof.
  intros P. unfold Overlay.addTo.
  destruct (hasLayer LOverlay w); [by intros [= <-] |].
  unfold Overlay.onAdd. apply plain_update. by apply (plain_ext w).
Qed.

Lemma plain_overlay_removeFrom w :
  Events.plain w → Events.plain (Overlay.removeFrom w).
Proof.
  unfold Overlay.removeFrom. destruct (hasLayer LOverlay w); [| done].
  apply plain_ext. cbn [ov unregister_layer with_map].
  by destruct (onRemove_frame w) as (_ & _ & _ & _ & _ & ->).
Qed.

Lemma plain_refreshOverlay w w' :
  Events.plain w → Source.refreshOverlay w = Ok w' → Events.plain w'.
Proof.
  intros P. unfold Source.refreshOverlay.
  destruct (negb _); [by intros [= <-] |].
  case_bool_decide.
  - intros [= <-]. by apply plain_overlay_removeFrom.
  - destruct (Overlay.setParams _ w) as [w1|e|y] eqn:E1; simpl; [| done..].
    apply plain_overlay_addTo. revert E1.
    by apply (plain_fire (Overlay.SetParams _)).
Qed.

Lemma plain_sub_apply c w w' :
  Events.plain w → Source.sub_apply c w = Ok w' → Events.plain w'.
Proof.
  intros P. destruct c; apply plain_refreshOverlay; by apply (plain_ext w).
Qed.

Lemma plain_source_addTo w w' :
  Events.plain w → Source.addTo w = Ok w' → Events.plain w'.
Proof.
  intros P. unfold Source.addTo.
  destruct (hasLayer LSource w); [by intros [= <-] |].
  apply plain_refreshOverlay. by apply (plain_ext w).
Qed.

Lemma plain_getFeatureInfo p ll layers h w w' :
  Events.plain w → Source.getFeatureInfo p ll layers h w = Ok w' →
  Events.plain w'.
Proof.
  intros P. unfold Source.getFeatureInfo.
  destruct (Source.getFeatureInfoParams p layers w) as [[params w1]|e|y] eqn:E;
    simpl; [| done..].
  intros [= <-].
  assert (P1 : Events.plain w1).
  { revert E. unfold Source.getFeatureInfoParams.
    destruct (truthy _).
    - destruct (Overlay.initialize _ _) as [[o opts'] | |]; [| done..].
      cbn [mbind result_bind]. destruct (negb _); [done |].
      destruct (Overlay.updateWmsParams _ _); simpl; [| done..].
      intros [= _ <-]. by apply (plain_ext w).
    - by intros [= _ <-]. }
  revert P1. apply plain_ext.
  unfold Source.showWaiting. by destruct (negb _).
Qed.

Lemma plain_change i rs st body w w' :
  Events.plain w → Source.change i rs st body w = Ok w' → Events.plain w'.
Proof.
  intros P. unfold Source.change.
  destruct (requests w !! i) as [x|]; [| by intros [= <-]].
  assert (Hd : ∀ r, Events.plain (Source.done x r w)).
  { intros r. revert P. apply plain_ext.
    unfold Source.done, Source.call_hook, Source.showFeatureInfo,
      Source.hideWaiting.
    destruct (x_callback x); simpl;
      destruct (src_map (src w)) eqn:E; simpl; rewrite ?E; done. }
  repeat case_bool_decide; by intros [= <-].
Qed.

Lemma plain_step e w w' :
  Events.plain w → Events.step e w = Ok w' → Events.plain w'.
Proof.
  intros P. destruct e; simpl.
  - by apply plain_fire.
  - by apply plain_image_load.
  - by apply plain_image_error.
  - by apply plain_overlay_addTo.
  - intros [= <-]. by apply plain_overlay_removeFrom.
  - by apply plain_sub_apply.
  - by apply plain_source_addTo.
  - intros [= <-]. revert P. apply plain_ext.
    unfold Source.removeFrom. by destruct (hasLayer LSource w).
  - unfold Layer.onAdd. destruct (negb _).
    + destruct (Source.addTo w) as [w1| |] eqn:E1; simpl; [| done..].
      apply (plain_sub_apply (Source.AddSubLayer _)).
      by apply (plain_source_addTo w).
    + by apply (plain_sub_apply (Source.AddSubLayer _)).
  - by apply (plain_sub_apply (Source.RemoveSubLayer _)).
  - by apply plain_getFeatureInfo.
  - by apply plain_change.
Qed.

Lemma plain_fresh m s url opts o opts' :
  Overlay.initialize url opts = Ok (o, opts') →
  Events.plain (Events.fresh m s o).
Proof.
  intros (P & O & -> & _ & HP)%initialize_inv.
  assert (Hn : ∀ k, k ∈ Overlay.unmoved → Js.has k P = false).
  { intros k Hk. apply has_false, get_None. destruct opts as [op|].
    - destruct HP as (_ & _ & -> & _). rewrite decide_False; [done | tauto].
    - by destruct HP as [_ ->]. }
  split; cbn [Events.fresh ov wmsParams].
  - apply has_extend; [done | apply Hn, hasOwnProperty_unmoved].
  - by apply has_extend_proto.
Qed.

(** The WMS parameters of an Overlay never hold a property named
    [hasOwnProperty] or [__proto__], whatever happens to it. *)
Lemma plain_steps l w w' :
  Events.plain w → Events.steps l w = Ok w' → Events.plain w'.
Proof.
  revert w. induction l as [|e l IH]; intros w P; simpl.
  - by intros [= <-].
  - destruct (Events.step e w) as [w1| |] eqn:E1; simpl; [| done..].
    apply IH. by apply (plain_step e w).
Qed.

(** So [L.extend({}, wmsParams, infoParams)] is the copy, property by
    property, that [getFeatureInfoParams] makes. *)
Lemma plain_copy w (infoParams : Js.obj value) :
  Events.plain w →
  Js.has "hasOwnProperty" infoParams = false →
  Js.has "__proto__" infoParams = false →
  (copy ← L_extend [] (wmsParams (ov w)); L_extend copy infoParams) =
  Ok (Js.extend (Js.extend [] (wmsParams (ov w))) infoParams).
Proof.
  intros [H1 H2] H3 H4. unfold L_extend.
  rewrite H1, H2, andb_false_r. cbn [andb mbind result_bind].
  by rewrite H3, H4, andb_false_r.
Qed.

End ParameterFacts.

(** ** The Source and its Overlay *)
Section RefreshFacts.
Context {HT : HostTypes} {HH : Host}.
Implicit Types (m : map) (o : overlay) (w : world).

Lemma with_ov_same w : with_ov w (ov_with_wmsParams (ov w) (wmsParams (ov w))) = w.
Proof. destruct w as [? ? [] ? ? ?]. done. Qed.

Lemma with_src_same w :
  with_src w (src_with_subLayers (src w) (_subLayers (src w))) = w.
Proof. destruct w as [? ? ? [] ? ?]. done. Qed.

Lemma delete_idem {V} (k : string) (o : Js.obj V) :
  Js.delete k (Js.delete k o) = Js.delete k o.
Proof.
  unfold Js.delete. rewrite list_filter_filter. apply list_filter_iff.
  intros e. tauto.
Qed.

Lemma set_idem {V} (k : string) (v : V) (o : Js.obj V) :
  Js.set k v (Js.set k v o) = Js.set k v o.
Proof.
  destruct (decide (k = "__proto__")) as [-> | Hk].
  - destruct (Js.has "__proto__" o) eqn:E.
    + rewrite (set_define _ _ o) by auto. apply set_id, get_define_eq.
    + by rewrite !(set_proto v o E).
  - by apply set_id, get_set_eq.
Qed.

Lemma removeFrom_idem w :
  Overlay.removeFrom (Overlay.removeFrom w) = Overlay.removeFrom w.
Proof.
  unfold Overlay.removeFrom at 1.
  destruct (hasLayer LOverlay (Overlay.removeFrom w)) eqn:E; [| done..].
  exfalso. revert E. unfold Overlay.removeFrom.
  destruct (hasLayer LOverlay w) eqn:E2;
    [rewrite hasLayer_unregister_eq |]; congruence.
Qed.

(** The map holds the Source after [update] exactly if it did before. *)
Lemma update_source_layer w w' :
  Overlay.update w = Ok w' → hasLayer LSource w' = hasLayer LSource w.
Proof.
  intros [[Hm ->] | (c & Hm & Hc & ->)]%update_inv; [done |].
  cbn zeta. case_bool_decide; [done |].
  unfold Overlay.issue. by rewrite hasLayer_register.
Qed.

Lemma removeFrom_source w :
  src (Overlay.removeFrom w) = src w ∧
  hasLayer LSource (Overlay.removeFrom w) = hasLayer LSource w.
Proof.
  unfold Overlay.removeFrom. destruct (hasLayer LOverlay w); [| done..].
  destruct (onRemove_frame w) as (Hs & _). split; [done |].
  rewrite hasLayer_unregister by done.
  unfold Overlay.onRemove.
  destruct (_currentOverlay (ov w)) as [c|]; simpl;
    destruct (_currentUrl (ov w)) as [u|]; simpl;
    try case_bool_decide; simpl; try done;
    by apply (hasLayer_unregister LSource (LImage c)).
Qed.

(** What [overlay.addTo(map)] arrives at. *)
Lemma overlay_addTo_inv w w' :
  Overlay.update w = Ok w → Overlay.addTo w = Ok w' →
  Overlay.update w' = Ok w' ∧ hasLayer LOverlay w' = true ∧
  src w' = src w ∧ hasLayer LSource w' = hasLayer LSource w ∧
  Js.get "layers" (wmsParams (ov w')) = Js.get "layers" (wmsParams (ov w)).
Proof.
  intros Hfix. unfold Overlay.addTo.
  destruct (hasLayer LOverlay w) eqn:Hh; [by intros [= <-] |].
  unfold Overlay.onAdd. intros Hu.
  destruct (update_frame _ _ Hu) as (Hs & _ & _ & _ & Hl & Hlay).
  split; [by apply (update_fixed _ _ Hu) |].
  split; [rewrite Hl; apply (hasLayer_register_eq LOverlay w) |].
  split; [done |]. split; [| done..].
  rewrite (update_source_layer _ _ Hu).
  by apply (hasLayer_register LSource LOverlay).
Qed.

(** What [refreshOverlay] leaves alone. *)
Lemma refreshOverlay_frame w w' :
  Source.refreshOverlay w = Ok w' →
  src w' = src w ∧ hasLayer LSource w' = hasLayer LSource w.
Proof.
  unfold Source.refreshOverlay. destruct (negb _); [by intros [= <-] |].
  case_bool_decide.
  - intros [= <-]. apply removeFrom_source.
  - destruct (Overlay.setParams _ w) as [w1|e|y] eqn:E1; simpl; [| done..].
    intros Ha. rewrite setParams_layers in E1.
    destruct (update_frame _ _ E1) as (Hs1 & _).
    pose proof (update_source_layer _ _ E1) as Hl1.
    destruct (overlay_addTo_inv w1 w' (update_fixed _ _ E1) Ha)
      as (_ & _ & Hs & Hl & _).
    split; [by rewrite Hs, Hs1 | by rewrite Hl, Hl1].
Qed.

(** Refreshing twice is refreshing once. *)
Lemma refreshOverlay_idempotent w w' :
  Source.refreshOverlay w = Ok w' → Source.refreshOverlay w' = Ok w'.
Proof.
  intros Hr. destruct (refreshOverlay_frame _ _ Hr) as [Hs _].
  revert Hr. unfold Source.refreshOverlay. rewrite Hs.
  destruct (negb _); [done |].
  case_bool_decide as Es.
  - intros [= <-]. by rewrite removeFrom_idem.
  - set (s := join "," _) in *.
    destruct (Overlay.setParams _ w) as [w1|e|y] eqn:E1; simpl; [| done..].
    intros Ha. rewrite setParams_layers in E1.
    destruct (update_frame _ _ E1) as (_ & _ & _ & _ & _ & Hlay1).
    destruct (overlay_addTo_inv w1 w' (update_fixed _ _ E1) Ha)
      as (Hfix & Hh & _ & _ & Hlay).
    assert (Hl : Js.get "layers" (wmsParams (ov w')) = Some (VStr s)).
    { rewrite Hlay, Hlay1. cbn [ov with_ov wmsParams ov_with_wmsParams].
      by rewrite get_extend by (apply NoDup_keys_literal || done). }
    rewrite setParams_layers, extend_id.
    + rewrite with_ov_same, Hfix. simpl. unfold Overlay.addTo. by rewrite Hh.
    + intros k v Hin. apply list_elem_of_singleton in Hin as [= -> ->]. done.
Qed.

(** X5. Registering a sub-layer that is registered, or unregistering
    one that is not, changes nothing: a call of [addSubLayer] or
    [removeSubLayer] that is repeated returns the world it is given, so no
    parameter changes, no image is requested and the Overlay stays where
    it is.  Two Layers of the same name are one sub-layer. *)
Theorem sub_call_twice_is_once c w w' :
  Source.sub_apply c w = Ok w' → Source.sub_apply c w' = Ok w'.
Proof.
  intros Hc.
  set (op := fun l : Js.obj bool =>
               match c with
               | Source.AddSubLayer n => Js.set n true l
               | Source.RemoveSubLayer n => Js.delete n l
               end).
  assert (Happ : ∀ x, Source.sub_apply c x =
            Source.refreshOverlay
              (with_src x (src_with_subLayers (src x) (op (_subLayers (src x)))))).
  { intros x. by destruct c. }
  assert (Hop : ∀ l, op (op l) = op l).
  { intros l. subst op. destruct c; [apply set_idem | apply delete_idem]. }
  rewrite Happ in Hc. destruct (refreshOverlay_frame _ _ Hc) as [Hs _].
  rewrite Happ.
  replace (op (_subLayers (src w'))) with (_subLayers (src w'))
    by (rewrite Hs; cbn [src with_src _subLayers src_with_subLayers];
        by rewrite Hop).
  rewrite with_src_same. by apply (refreshOverlay_idempotent _ _ Hc).
Qed.

(** X6. Adding the Source to a map brings the Overlay in line with the
    sub-layers registered so far, also those registered while the Source
    was on no map: the Source is on the map afterwards, and the Overlay
    is on the map exactly when a sub-layer is registered, its [layers]
    parameter then being the comma-join of the names. *)
Theorem source_addTo_shows_registered w :
  hasLayer LSource w = false →
  Source.consistent w → Overlay.crs_ok w →
  "" ∉ Js.keys (_subLayers (src w)) →
  let names := Js.keys (_subLayers (src w)) in
  ∃ w', Source.addTo w = Ok w' ∧
    src_map (src w') = true ∧ hasLayer LSource w' = true ∧
    _subLayers (src w') = _subLayers (src w) ∧
    (hasLayer LOverlay w' = true ↔ names ≠ []) ∧
    (names ≠ [] →
     Js.get "layers" (wmsParams (ov w')) = Some (VStr (join "," names))).
Proof.
  intros Hl Hcons Hcrs Hne names. unfold Source.addTo, Source.onAdd.
  rewrite Hl. set (w1 := with_src _ _).
  destruct (refreshOverlay_spec w1) as (w' & Hr & Hs' & _ & _ & Hpost).
  - done.
  - unfold Source.consistent. subst w1. cbn [ov with_src].
    rewrite Hcons. symmetry. by apply (hasLayer_register LOverlay LSource).
  - done.
  - exists w'. split; [done |].
    destruct (refreshOverlay_frame _ _ Hr) as [_ Hls].
    rewrite Hs', Hls. split; [done |].
    split; [apply (hasLayer_register_eq LSource w) |].
    split; [done |].
    cbn zeta in Hpost.
    change (Js.keys (_subLayers (src w1))) with names in Hpost.
    case_bool_decide as Es.
    + apply join_comma_empty in Es; [| done..]. destruct Hpost as [Hh _].
      rewrite Es, Hh. split; [split; done | done].
    + destruct Hpost as [Hh Hlay]. rewrite Hh.
      assert (Hnn : names ≠ []).
      { intros Hnil. apply Es. by rewrite Hnil. }
      split; [split; done | done].
Qed.

Lemma keys_set_proto_as_set (v : bool) (o : Js.obj bool) :
  list_to_set (Js.keys (Js.set "__proto__" v o)) =@{gset string}
  list_to_set (Js.keys o).
Proof.
  apply set_eq. intros x. rewrite !elem_of_list_to_set.
  rewrite elem_of_keys_set_any. split; [intros [[_ ?] | ?]; done | auto].
Qed.

Lemma run_detached l w :
  src_map (src w) = false →
  ∃ w', Source.run l w = Ok w' ∧
    src_map (src w') = false ∧
    the_map w' = the_map w ∧ images w' = images w ∧ ov w' = ov w ∧
    calls w' = calls w ∧ requests w' = requests w ∧
    list_to_set (Js.keys (_subLayers (src w'))) =
    Source.active (list_to_set (Js.keys (_subLayers (src w))))
      (filter (fun c => Source.registers c = true) l).
Proof.
  revert w. induction l as [|c l IH]; intros w Hm; simpl.
  - by exists w.
  - set (w1 := with_src w
                 (src_with_subLayers (src w)
                    match c with
                    | Source.AddSubLayer n => Js.set n true (_subLayers (src w))
                    | Source.RemoveSubLayer n => Js.delete n (_subLayers (src w))
                    end)).
    assert (Hc : Source.sub_apply c w = Ok w1).
    { destruct c; simpl;
        unfold Source.addSubLayer, Source.removeSubLayer, Source.refreshOverlay;
        cbn [src with_src src_map src_with_subLayers]; by rewrite Hm. }
    rewrite Hc. simpl.
    destruct (IH w1) as (w' & Hrun & Hm' & Hmap & Him & Hov & Hca & Hrq & Hset).
    { done. }
    exists w'. split; [done |]. repeat split; try done.
    rewrite Hset. subst w1.
    cbn [src with_src _subLayers src_with_subLayers].
    rewrite filter_cons. destruct c as [n | n]; cbn [Source.registers].
    + case_bool_decide as En; cbn [negb].
      * subst n. rewrite decide_False by done.
        by rewrite keys_set_proto_as_set.
      * rewrite decide_True by done. unfold Source.active at 2.
        cbn [fold_left]. by rewrite keys_set_as_set.
    + rewrite decide_True by done. unfold Source.active at 2.
      cbn [fold_left]. by rewrite keys_delete_as_set.
Qed.

(** X7. Removing the Source from the map leaves its Overlay where it
    is: the Source has no [onRemove] of its own, so the Overlay stays on
    the map with what it displays.  From then on calls of [addSubLayer]
    and [removeSubLayer] are recorded in the Source and reach neither the
    Overlay nor the map; what is recorded are the calls but those of
    [addSubLayer("__proto__")], which registers no name. *)
Theorem removed_source_leaves_overlay w (l : list Source.sub_call) :
  hasLayer LSource w = true →
  let w0 := Source.removeFrom w in
  src_map (src w0) = false ∧ hasLayer LSource w0 = false ∧
  ov w0 = ov w ∧ images w0 = images w ∧
  hasLayer LOverlay w0 = hasLayer LOverlay w ∧
  ∃ w', Source.run l w0 = Ok w' ∧
    ov w' = ov w ∧ the_map w' = the_map w0 ∧ images w' = images w ∧
    list_to_set (Js.keys (_subLayers (src w'))) =
    Source.active (list_to_set (Js.keys (_subLayers (src w))))
      (filter (fun c => Source.registers c = true) l).
Proof.
  intros Hl w0. subst w0. unfold Source.removeFrom. rewrite Hl.
  set (w0 := unregister_layer LSource (Source.onRemove w)).
  split; [done |]. split; [apply hasLayer_unregister_eq |].
  split; [done |]. split; [done |].
  split; [exact (hasLayer_unregister LOverlay LSource (Source.onRemove w)
                   ltac:(done)) |].
  destruct (run_detached l w0)
    as (w' & Hrun & _ & Hmap & Him & Hov & _ & _ & Hset); [done |].
  exists w'. repeat split; done.
Qed.

End RefreshFacts.

(** ** Feature requests *)
Section FeatureInfoFacts.
Context {HT : HostTypes} {HH : Host}.
Implicit Types (m : map) (o : overlay) (w : world).

Lemma get_infoParams k (p : point) (layers : list string) :
  Js.get k
    (Js.literal
       [("request", VStr "GetFeatureInfo");
        ("query_layers", VStr (join "," layers));
        ("X", VNum (px p)); ("Y", VNum (py p))]) =
  if decide (k = "request") then Some (VStr "GetFeatureInfo")
  else if decide (k = "query_layers") then Some (VStr (join "," layers))
  else if decide (k = "X") then Some (VNum (px p))
  else if decide (k = "Y") then Some (VNum (py p))
  else None.
Proof.
  change (Js.literal _) with
    [("request", VStr "GetFeatureInfo");
     ("query_layers", VStr (join "," layers));
     ("X", VNum (px p)); ("Y", VNum (py p))].
  cbn [Js.get].
  repeat (case_decide; case_bool_decide; try congruence).
Qed.

Lemma get_copy {V} k (o : Js.obj V) :
  NoDup (Js.keys o) → k ≠ "__proto__" →
  Js.get k (Js.extend [] o) = Js.get k o.
Proof. intros ND Hk. rewrite get_extend by done. by destruct (Js.get k o). Qed.

(** The parameters of a request, from the WMS parameters [P]. *)
Lemma get_featureInfoParams k (p : point) (layers : list string)
    (P : Js.obj value) :
  NoDup (Js.keys P) →
  Js.get k
    (Js.extend (Js.extend [] P)
       (Js.literal
          [("request", VStr "GetFeatureInfo");
           ("query_layers", VStr (join "," layers));
           ("X", VNum (px p)); ("Y", VNum (py p))])) =
  if decide (k = "request") then Some (VStr "GetFeatureInfo")
  else if decide (k = "query_layers") then Some (VStr (join "," layers))
  else if decide (k = "X") then Some (VNum (px p))
  else if decide (k = "Y") then Some (VNum (py p))
  else if decide (k = "__proto__") then None
  else Js.get k P.
Proof.
  intros ND. destruct (decide (k = "__proto__")) as [-> | Hk].
  - rewrite !decide_False by done. by apply get_extend_proto, get_extend_proto.
  - rewrite get_extend by (apply NoDup_keys_literal || done).
    rewrite get_infoParams. repeat (case_decide; [done |]). by apply get_copy.
Qed.

(** X8. A feature request of a Source in overlay mode asks for what the
    Overlay shows: its parameters are the Overlay's WMS parameters,
    bounding box, size, reference system and [layers] included, except
    that [request] is GetFeatureInfo and that [query_layers], [X] and [Y]
    are added; a property named [__proto__] is not copied.  Neither the
    Overlay's parameters nor anything else changes. *)
Theorem getFeatureInfoParams_overlay_mode (p : point) (layers : list string) w :
  truthy (prop "tiled" (src_options (src w))) = false →
  NoDup (Js.keys (wmsParams (ov w))) →
  ∃ params,
    Source.getFeatureInfoParams p layers w = Ok (params, w) ∧
    Js.get "request" params = Some (VStr "GetFeatureInfo") ∧
    Js.get "query_layers" params = Some (VStr (join "," layers)) ∧
    Js.get "X" params = Some (VNum (px p)) ∧
    Js.get "Y" params = Some (VNum (py p)) ∧
    (∀ k, k ∉ Source.info_keys → k ≠ "__proto__" →
          Js.get k params = Js.get k (wmsParams (ov w))) ∧
    Js.get "__proto__" params = None ∧
    (∀ k, k ∈ Js.keys params ↔
          (k ∈ Js.keys (wmsParams (ov w)) ∧ k ≠ "__proto__") ∨
          k ∈ Source.info_keys) ∧
    NoDup (Js.keys params).
Proof.
  intros Ht ND. unfold Source.getFeatureInfoParams. rewrite Ht.
  eexists. split; [done |].
  rewrite !get_featureInfoParams by done.
  split; [done |]. split; [done |]. split; [done |]. split; [done |].
  split; [| split; [| split]].
  - intros k Hk Hp. rewrite get_featureInfoParams by done.
    unfold Source.info_keys in Hk. rewrite !not_elem_of_cons in Hk.
    destruct Hk as (? & ? & ? & ? & _).
    by rewrite !decide_False.
  - done.
  - intros k. rewrite !elem_of_keys_extend.
    change (Js.keys (Js.literal _)) with Source.info_keys.
    split.
    + intros [[Hn | ?] | [? _]]; auto. by apply elem_of_nil in Hn.
    + intros [? | Hk]; auto. right. split; [done |].
      intros ->. revert Hk. by apply (bool_decide_unpack (_ ∉ _)).
  - repeat apply NoDup_keys_extend. constructor.
Qed.

(** A request in overlay mode, and its completion. *)
Lemma getFeatureInfo_overlay_mode (p : point) ll (layers : list string) h w :
  truthy (prop "tiled" (src_options (src w))) = false →
  ∃ params,
    Source.getFeatureInfoParams p layers w = Ok (params, w) ∧
    Source.getFeatureInfo p ll layers h w =
    Ok (Source.ajax
          {| x_url := src_url (src w) +:+
                      getParamString params (src_url (src w)) false;
             x_latlng := ll; x_callback := h |}
          (Source.showWaiting w)).
Proof.
  intros Ht. unfold Source.getFeatureInfo, Source.getFeatureInfoParams.
  rewrite Ht. eexists. split; done.
Qed.

Lemma change_done i x status body w :
  requests w !! i = Some x →
  Source.change i 4 status body w =
  Ok (Source.call_hook (x_callback x) (x_latlng x)
        (Source.delivered status body (x_url x)) (Source.hideWaiting w)).
Proof.
  intros Hx. unfold Source.change, Source.done, Source.delivered.
  rewrite Hx. cbn [bool_decide decide_rel]. rewrite bool_decide_true by done.
  by case_bool_decide.
Qed.

Lemma change_pending i readyState status body w :
  readyState ≠ 4 → Source.change i readyState status body w = Ok w.
Proof.
  intros Hr. unfold Source.change. destruct (requests w !! i); [| done..].
  by rewrite bool_decide_false.
Qed.

(** The hook, called on a Source that is on a map. *)
Lemma call_hook_on_map h ll text w :
  src_map (src w) = true →
  let w2 := Source.call_hook h ll text (Source.hideWaiting w) in
  m_cursor (the_map w2) = "default" ∧
  match h with
  | ShowFeatureInfo =>
      m_popup (the_map w2) = Some (text, ll) ∧ calls w2 = calls w
  | Callback f =>
      calls w2 = calls w ++ [CallCallback f ll text] ∧
      m_popup (the_map w2) = m_popup (the_map w)
  end.
Proof.
  intros Hm. unfold Source.call_hook, Source.hideWaiting,
    Source.showFeatureInfo.
  rewrite Hm. cbn [negb]. destruct h; simpl; rewrite ?Hm; done.
Qed.

(** X9. A feature request of a Source that is on a map puts the map's
    cursor to [progress] and sends one request.  Its handler ignores
    every state of the request but 4; in state 4, whatever the status,
    the cursor is put back to [default] and the hook is called once with
    the clicked position and the text: [showFeatureInfo] opens a popup
    there, a function of the caller is called with both. *)
Theorem getFeatureInfo_waits_then_delivers (p : point) ll
    (layers : list string) h w :
  truthy (prop "tiled" (src_options (src w))) = false →
  src_map (src w) = true →
  ∃ w1 x,
    Source.getFeatureInfo p ll layers h w = Ok w1 ∧
    requests w1 = requests w ++ [x] ∧
    x_latlng x = ll ∧ x_callback x = h ∧
    m_cursor (the_map w1) = "progress" ∧
    m_popup (the_map w1) = m_popup (the_map w) ∧
    ∀ readyState status body,
      ∃ w2,
        Source.change (length (requests w)) readyState status body w1 = Ok w2 ∧
        (readyState ≠ 4 → w2 = w1) ∧
        (readyState = 4 →
         m_cursor (the_map w2) = "default" ∧
         match h with
         | ShowFeatureInfo =>
             m_popup (the_map w2) =
               Some (Source.delivered status body (x_url x), ll) ∧
             calls w2 = calls w
         | Callback f =>
             calls w2 =
               calls w ++
               [CallCallback f ll (Source.delivered status body (x_url x))] ∧
             m_popup (the_map w2) = m_popup (the_map w)
         end).
Proof.
  intros Ht Hm.
  destruct (getFeatureInfo_overlay_mode p ll layers h w Ht)
    as (params & _ & ->).
  set (x := {| x_url := _; x_latlng := ll; x_callback := h |}).
  set (w1 := Source.ajax x (Source.showWaiting w)).
  assert (Hw1 : w1 = with_requests
                       (with_map w (map_with_cursor (the_map w) "progress"))
                       (requests w ++ [x])).
  { subst w1. unfold Source.ajax, Source.showWaiting. by rewrite Hm. }
  exists w1, x. split; [done |]. rewrite Hw1.
  split; [done |]. split; [done |]. split; [done |]. split; [done |].
  split; [done |].
  intros readyState status body.
  destruct (decide (readyState = 4)) as [-> | Hr].
  - rewrite (change_done _ x)
      by (cbn [requests with_requests]; by apply list_lookup_middle).
    eexists. split; [reflexivity |]. split; [done |]. intros _.
    apply (call_hook_on_map h ll
             (Source.delivered status body (x_url x))
             (with_requests
                (with_map w (map_with_cursor (the_map w) "progress"))
                (requests w ++ [x]))).
    done.
  - rewrite change_pending by done. eexists. split; [done |]. split; done.
Qed.

(** X10. A Source that is on no map still sends the request in overlay
    mode, but shows nothing: neither the cursor nor a popup changes when
    the request is sent or when its response arrives.  With the hook
    [showFeatureInfo] the response is dropped; a function of the caller
    is still called with it.  In tiled mode the request fails, the
    scratch Overlay having no map to take the viewport from. *)
Theorem getFeatureInfo_off_map (p : point) ll (layers : list string) h w :
  src_map (src w) = false →
  (truthy (prop "tiled" (src_options (src w))) = true →
   Js.get "hasOwnProperty" (src_options (src w)) = None →
   is_prototype (prop "__proto__" (src_options (src w))) = false →
   Source.getFeatureInfo p ll layers h w =
   Throw "TypeError: map is undefined") ∧
  (truthy (prop "tiled" (src_options (src w))) = false →
   ∃ w1 x,
     Source.getFeatureInfo p ll layers h w = Ok w1 ∧
     requests w1 = requests w ++ [x] ∧ the_map w1 = the_map w ∧
     ∀ status body,
       ∃ w2, Source.change (length (requests w)) 4 status body w1 = Ok w2 ∧
             the_map w2 = the_map w ∧
             images w2 = images w ∧ ov w2 = ov w ∧
             calls w2 =
               match h with
               | ShowFeatureInfo => calls w
               | Callback f =>
                   calls w ++
                   [CallCallback f ll
                      (Source.delivered status body (x_url x))]
               end).
Proof.
  intros Hm. split.
  - intros Ht Hh Hp. unfold Source.getFeatureInfo, Source.getFeatureInfoParams.
    rewrite Ht, Hm.
    destruct (initialize_Ok (src_url (src w)) _ Hh Hp) as (o & -> & _).
    done.
  - intros Ht.
    destruct (getFeatureInfo_overlay_mode p ll layers h w Ht)
      as (params & _ & ->).
    set (x := {| x_url := _; x_latlng := ll; x_callback := _ |}).
    set (w1 := Source.ajax x (Source.showWaiting w)).
    assert (Hw1 : w1 = with_requests w (requests w ++ [x])).
    { subst w1. unfold Source.ajax, Source.showWaiting. by rewrite Hm. }
    exists w1, x. split; [done |]. rewrite Hw1.
    split; [done |]. split; [done |].
    intros status body.
    rewrite (change_done _ x)
      by (cbn [requests with_requests]; by apply list_lookup_middle).
    eexists. split; [reflexivity |].
    unfold Source.call_hook, Source.hideWaiting, Source.showFeatureInfo.
    cbn [x_callback x_latlng x src with_requests]. rewrite Hm. cbn [negb].
    destruct h; cbn [src with_requests]; rewrite ?Hm; done.
Qed.

(** X11. A click on the map of a Source in overlay mode whose
    [identifyLayers] option is not set: with no sub-layer registered,
    nothing happens and no request is sent; otherwise one request is sent
    that queries the registered sub-layers at the clicked pixel, and when
    it succeeds with a text other than "error" a popup with that text
    opens at the clicked position. *)
Theorem identify_queries_sublayers (p : point) ll w :
  truthy (prop "tiled" (src_options (src w))) = false →
  truthy (prop "identifyLayers" (src_options (src w))) = false →
  src_map (src w) = true →
  NoDup (Js.keys (wmsParams (ov w))) →
  let names := Js.keys (_subLayers (src w)) in
  Source.getIdentifyLayers w = Some names ∧
  (names = [] → Source.identify p ll w = Some (Ok w)) ∧
  (names ≠ [] →
   ∃ w1 x params,
     Source.identify p ll w = Some (Ok w1) ∧
     requests w1 = requests w ++ [x] ∧
     x_url x = src_url (src w) +:+
               getParamString params (src_url (src w)) false ∧
     Js.get "query_layers" params = Some (VStr (join "," names)) ∧
     Js.get "X" params = Some (VNum (px p)) ∧
     Js.get "Y" params = Some (VNum (py p)) ∧
     ∀ body, body ≠ "error" →
       ∃ w2, Source.change (length (requests w)) 4 200 body w1 = Ok w2 ∧
             m_popup (the_map w2) = Some (body, ll) ∧
             m_cursor (the_map w2) = "default").
Proof.
  intros Ht Hi Hm ND names.
  assert (Hg : Source.getIdentifyLayers w = Some names).
  { unfold Source.getIdentifyLayers. by rewrite Hi. }
  split; [done |].
  unfold Source.identify. rewrite Hg. simpl. unfold Source.identify_with.
  split.
  - intros ->. done.
  - intros Hne. rewrite bool_decide_false by done.
    destruct (getFeatureInfo_overlay_mode p ll names ShowFeatureInfo w Ht)
      as (params & Hp & ->).
    set (x := {| x_url := _; x_latlng := ll; x_callback := _ |}).
    set (w1 := Source.ajax x (Source.showWaiting w)).
    assert (Hw1 : w1 = with_requests
                         (with_map w (map_with_cursor (the_map w) "progress"))
                         (requests w ++ [x])).
    { subst w1. unfold Source.ajax, Source.showWaiting. by rewrite Hm. }
    exists w1, x, params. split; [done |]. rewrite Hw1.
    split; [done |]. split; [done |].
    assert (Hpar : params =
              Js.extend (Js.extend [] (wmsParams (ov w)))
                (Js.literal
                   [("request", VStr "GetFeatureInfo");
                    ("query_layers", VStr (join "," names));
                    ("X", VNum (px p)); ("Y", VNum (py p))])).
    { revert Hp. unfold Source.getFeatureInfoParams. rewrite Ht.
      by intros [= <-]. }
    rewrite Hpar, !get_featureInfoParams by done.
    split; [done |]. split; [done |]. split; [done |].
    intros body Hb.
    rewrite (change_done _ x)
      by (cbn [requests with_requests]; by apply list_lookup_middle).
    eexists. split; [reflexivity |].
    destruct (call_hook_on_map ShowFeatureInfo ll
                (Source.delivered 200 body (x_url x))
                (with_requests
                   (with_map w (map_with_cursor (the_map w) "progress"))
                   (requests w ++ [x])) Hm) as (Hcur & Hpop & _).
    split; [| exact Hcur]. cbn [x_callback x_latlng x].
    rewrite Hpop. unfold Source.delivered, Source.parseFeatureInfo.
    rewrite (bool_decide_true (200 = 200)) by done.
    by rewrite bool_decide_false.
Qed.

End FeatureInfoFacts.

(** ** Options *)
Section OptionFacts.
Context {HT : HostTypes} {HH : Host}.
Implicit Types (m : map) (o : overlay) (w : world).

Lemma get_defaults_copy k :
  Js.get k (Js.extend [] Overlay.defaultWmsParams) =
  Js.get k Overlay.defaultWmsParams.
Proof.
  destruct (decide (k = "__proto__")) as [-> | Hk].
  - by rewrite get_extend_proto.
  - by apply get_copy; [apply NoDup_keys_literal |].
Qed.

Lemma recognized_unmoved k : k ∈ Overlay.recognized → k ∈ Overlay.unmoved.
Proof. intros Hk. unfold Overlay.unmoved. apply elem_of_app. by left. Qed.

Lemma initialize_params_notin url (options : option (Js.obj value)) k
    ovl options' :
  Overlay.initialize url options = Ok (ovl, options') →
  k ∈ Overlay.unmoved ∨ k ∉ Js.keys (default [] options) →
  Js.get k (wmsParams ovl) = Js.get k Overlay.defaultWmsParams.
Proof.
  intros (P & opts & -> & _ & Hm)%initialize_inv Hk. cbn [wmsParams].
  assert (Hn : k ∉ Js.keys P).
  { apply get_None. destruct options as [op|].
    - destruct Hm as (_ & _ & -> & _). rewrite decide_False; [done |].
      intros [? ?]. simpl in Hk. destruct Hk; done.
    - by destruct Hm as [_ ->]. }
  rewrite get_extend_notin by done. apply get_defaults_copy.
Qed.

(** X12. What the Overlay constructor does not move stays at its
    default: a WMS parameter whose name is not among the options handed
    in, or is the name of a recognized option, has the value of
    [defaultWmsParams] if that has one and is absent otherwise.  So a
    recognized option such as [crs] or [opacity] never becomes a request
    parameter, and without a [version] option the version is 1.1.1. *)
Theorem initialize_keeps_defaults url (options : option (Js.obj value)) k
    ovl options' :
  Overlay.initialize url options = Ok (ovl, options') →
  k ∈ Overlay.recognized ∨ k ∉ Js.keys (default [] options) →
  Js.get k (wmsParams ovl) = Js.get k Overlay.defaultWmsParams ∧
  (k ∈ Overlay.recognized → Js.get k (wmsParams ovl) = None).
Proof.
  intros Hi Hk.
  assert (Hd : ∀ k, k ∈ Overlay.unmoved ∨ k ∉ Js.keys (default [] options) →
                 Js.get k (wmsParams ovl) = Js.get k Overlay.defaultWmsParams)
    by (intros k'; apply (initialize_params_notin _ _ _ _ _ Hi)).
  split.
  { apply Hd. destruct Hk; [left; by apply recognized_unmoved | by right]. }
  intros Hr. rewrite Hd by (left; by apply recognized_unmoved).
  apply get_None. revert Hr. unfold Overlay.recognized.
  change (Js.keys Overlay.defaultWmsParams) with
    ["service"; "request"; "version"; "layers"; "styles"; "format";
     "transparent"].
  unfold not. rewrite !elem_of_cons, !elem_of_nil. intros Hx Hy.
  repeat destruct Hx as [-> | Hx]; try done;
    repeat destruct Hy as [Hy | Hy]; done.
Qed.

(** The options of a Source, as [L.setOptions] makes them. *)
Lemma setOptions_inv opts merged :
  Source.setOptions opts = Ok merged →
  merged = Js.extend (Js.extend [] Source.options) (default [] opts) ∧
  Js.get "hasOwnProperty" merged = None ∧
  Js.get "__proto__" merged = None.
Proof.
  unfold Source.setOptions, L_extend.
  destruct (Js.has "hasOwnProperty" (default [] opts)) eqn:Hh; [done |].
  destruct (_ && _); [done |]. intros [= <-]. split; [done |].
  split; [| by apply get_extend_proto].
  rewrite get_extend_notin by by apply has_false. done.
Qed.

(** The Overlay of the options of a Source. *)
Lemma initialize_merged url opts merged :
  Source.setOptions opts = Ok merged →
  ∃ ovl,
    Overlay.initialize url (Some merged) =
    Ok (ovl, Some (filter (fun e => e.1 ∈ Overlay.unmoved) merged)).
Proof.
  intros (_ & Hh & Hp)%setOptions_inv.
  destruct (initialize_Ok url merged Hh) as (ovl & Hi & _).
  { unfold prop. by rewrite Hp. }
  by exists ovl.
Qed.

Lemma identifyLayers_moved : "identifyLayers" ∉ Overlay.unmoved.
Proof. by apply (bool_decide_unpack (_ ∉ _)). Qed.

(** X13. A Source in overlay mode hands its own options object to the
    Overlay constructor, which takes every property out of it but those
    whose name is recognized or names a member of [Object.prototype].
    So the options of the new Source hold such names only;
    [identifyLayers] in particular is gone, and [getIdentifyLayers]
    answers with the registered sub-layers whatever the caller passed. *)
Theorem source_options_lose_parameters url (opts : option (Js.obj value))
    merged :
  Source.setOptions opts = Ok merged →
  truthy (prop "tiled" merged) = false →
  ∃ s o,
    Source.initialize url opts = Ok (s, inl o) ∧
    Overlay.initialize url (Some merged) = Ok (o, Some (src_options s)) ∧
    src_url s = url ∧ _subLayers s = [] ∧ src_map s = false ∧
    src_options s = filter (fun e => e.1 ∈ Overlay.unmoved) merged ∧
    (∀ k, k ∈ Overlay.unmoved →
          Js.get k (src_options s) = Js.get k merged) ∧
    (∀ k, k ∉ Overlay.unmoved → Js.get k (src_options s) = None) ∧
    (∀ w, src_options (src w) = src_options s →
          Source.getIdentifyLayers w = Some (Js.keys (_subLayers (src w)))).
Proof.
  intros Hs Ht. destruct (initialize_merged url opts merged Hs) as [o Hi].
  unfold Source.initialize, Source.createOverlay.
  rewrite Hs. cbn [mbind result_bind]. rewrite Ht, Hi.
  cbn [mbind result_bind default from_option]. unfold id.
  eexists _, _. split; [done |].
  cbn [src_url _subLayers src_map src_options].
  split; [done |]. split; [done |]. split; [done |]. split; [done |].
  split; [done |].
  split; [intros k Hk; by apply get_unmoved |].
  split; [intros k Hk; by apply get_unmoved |].
  intros w Hw. unfold Source.getIdentifyLayers, prop. rewrite Hw.
  by rewrite (proj2 (get_unmoved "identifyLayers" _) identifyLayers_moved).
Qed.

(** X14. In tiled mode every feature request builds a scratch Overlay
    from the Source's own options object, so the first request takes
    every property out of the Source's options but those whose name is
    recognized or names a member of [Object.prototype]: after it
    [identifyLayers] is gone and [getIdentifyLayers] answers with the
    registered sub-layers.  The request itself asks for the queried
    layers, as [layers] and as [query_layers]. *)
Theorem tiled_request_strips_options (p : point) (layers : list string)
    w params w1 :
  truthy (prop "tiled" (src_options (src w))) = true →
  Source.getFeatureInfoParams p layers w = Ok (params, w1) →
  w1 = with_src w
         (src_with_options (src w)
            (filter (fun e => e.1 ∈ Overlay.unmoved) (src_options (src w)))) ∧
  (∀ k, k ∉ Overlay.unmoved → Js.get k (src_options (src w1)) = None) ∧
  Source.getIdentifyLayers w1 = Some (Js.keys (_subLayers (src w))) ∧
  Js.get "layers" params = Some (VStr (join "," layers)) ∧
  Js.get "query_layers" params = Some (VStr (join "," layers)) ∧
  Js.get "request" params = Some (VStr "GetFeatureInfo").
Proof.
  intros Ht. unfold Source.getFeatureInfoParams. rewrite Ht.
  destruct (Overlay.initialize (src_url (src w)) (Some (src_options (src w))))
    as [[o opts'] | |] eqn:Hi; [| done..].
  cbn [mbind result_bind].
  pose proof (initialize_inv _ _ _ _ Hi) as (P & oo & _ & _ & _ & -> & _).
  cbn [default from_option]. unfold id.
  destruct (negb (src_map (src w))); [done |].
  destruct (Overlay.updateWmsParams (the_map w) o) as [o1|e|y] eqn:Hu;
    cbn [mbind result_bind]; [| done..].
  intros [= <- <-]. split; [done |].
  cbn [src with_src src_options src_with_options _subLayers].
  split; [intros k Hk; by apply get_unmoved |].
  split.
  { unfold Source.getIdentifyLayers, prop.
    cbn [src with_src src_options src_with_options _subLayers].
    by rewrite (proj2 (get_unmoved "identifyLayers" _) identifyLayers_moved). }
  assert (ND : NoDup (Js.keys (Js.set "layers" (VStr (join "," layers))
                                 (wmsParams o1)))).
  { apply NoDup_keys_set.
    apply updateWmsParams_inv in Hu as (c & _ & ->).
    cbn [wmsParams ov_with_wmsParams]. apply NoDup_keys_extend.
    apply (Events.kept_params _ (kept_fresh (the_map w) (src w) _ _ _ _ Hi)). }
  split; [| split].
  - rewrite !get_set_ne by done. rewrite get_copy by done.
    by apply get_set_eq.
  - rewrite !(get_set_ne "query_layers") by done. by apply get_set_eq.
  - rewrite !(get_set_ne "request") by done. by apply get_set_eq.
Qed.

End OptionFacts.

(** ** Layers and the cache *)
Section LayerFacts.
Context {HT : HostTypes} {HH : Host}.
Implicit Types (w : world) (r : Cache.registry).

(** The options the constructor of a Source accepts. *)
Lemma Source_initialize_None url :
  ∃ x, Source.initialize url None = Ok x ∧ src_url x.1 = url.
Proof. by apply Source_initialize_Ok. Qed.

Lemma getSourceForUrl_other url opts r c r' url' :
  Cache.getSourceForUrl url opts r = Ok (c, r') →
  url' ≠ url → Js.get url' (Cache.sources r) = None →
  Js.get url' (Cache.sources r') = None.
Proof.
  intros Hg Hne Hn.
  destruct (getSourceForUrl_inv _ _ _ _ _ Hg)
    as [(s & _ & _ & ->) | [(_ & _ & _ & ->) | (x & _ & _ & _ & _ & ->)]];
    [done.. |].
  simpl. by rewrite get_set_ne.
Qed.

(** No member of [Object.prototype] is ever shadowed in the cache. *)
Lemma lookups_inherited l r r2 :
  (∀ url, Js.inherits url = true → Js.get url (Cache.sources r) = None) →
  Cache.lookups l r = Ok r2 →
  ∀ url, Js.inherits url = true → Js.get url (Cache.sources r2) = None.
Proof.
  revert r. induction l as [|[u o] l IH]; intros r Hr.
  { by intros [= <-]. }
  rewrite lookups_cons.
  destruct (Cache.getSourceForUrl u o r) as [[c r'] | |] eqn:Hg; [| done..].
  cbn [mbind result_bind]. apply IH. intros url Hi.
  destruct (getSourceForUrl_inv _ _ _ _ _ Hg)
    as [(s & _ & _ & ->) | [(_ & _ & _ & ->) | (x & _ & Hu & _ & _ & ->)]];
    [by apply Hr.. |].
  simpl. rewrite get_set_ne; [by apply Hr |]. intros ->. congruence.
Qed.

Lemma lookups_first l r r2 url :
  Js.inherits url = false →
  Js.get url (Cache.sources r) = None →
  Cache.lookups l r = Ok r2 →
  match list_find (fun c => c.1 = url) l with
  | Some (_, c) =>
      ∃ s x, Js.get url (Cache.sources r2) = Some s ∧
             Source.initialize url c.2 = Ok x ∧
             Cache.heap r2 !! s = Some x
  | None => Js.get url (Cache.sources r2) = None
  end.
Proof.
  intros Hi. revert r. induction l as [|[u o] l IH]; intros r Hn.
  { by intros [= <-]. }
  rewrite lookups_cons.
  destruct (Cache.getSourceForUrl u o r) as [[c r'] | |] eqn:Hg; [| done..].
  cbn [mbind result_bind]. intros Hl.
  cbn [list_find]. case_decide as Hu; simpl in Hu.
  - subst u. simpl.
    destruct (getSourceForUrl_inv _ _ _ _ _ Hg)
      as [(s & ? & _) | [(_ & ? & _) | (x & _ & _ & Hx & _ & ->)]];
      [congruence.. |].
    destruct (lookups_keep l _ r2 Hl) as [K1 K2].
    exists (length (Cache.heap r)), x.
    split; [apply K1; simpl; by apply get_set_eq, inherits_proto |].
    split; [done |]. apply K2. simpl. by apply list_lookup_middle.
  - specialize (IH r').
    destruct (list_find _ l) as [[i c']|]; simpl;
      apply IH; try done; by eapply getSourceForUrl_other.
Qed.

Lemma ok_lookups l r r2 :
  Cache.ok r → Cache.lookups l r = Ok r2 → Cache.ok r2.
Proof.
  revert r. induction l as [|[u o] l IH]; intros r Hr.
  { by intros [= <-]. }
  rewrite lookups_cons.
  destruct (Cache.getSourceForUrl u o r) as [[c r'] | |] eqn:Hg; [| done..].
  cbn [mbind result_bind]. apply IH.
  destruct (getSourceForUrl_inv _ _ _ _ _ Hg)
    as [(s & _ & _ & ->) | [(_ & _ & _ & ->) | (x & _ & Hi & Hx & _ & ->)]];
    [done.. |].
  intros u' s. simpl.
  destruct (decide (u' = u)) as [-> | Hne].
  - rewrite get_set_eq by by apply inherits_proto. intros [= <-].
    exists x. split; [by apply list_lookup_middle |].
    by apply (Source_initialize_url _ o).
  - rewrite get_set_ne by done. intros Hs.
    destruct (Hr u' s Hs) as (y & Hy & Huy). exists y.
    split; [by apply lookup_app_l_Some | done].
Qed.

(** A run of lookups returns when every [options] is one the constructor
    of a Source accepts. *)
Lemma lookups_Ok l r :
  Forall (fun c : string * option (Js.obj value) =>
            Js.has "hasOwnProperty" (default [] c.2) = false ∧
            is_prototype (prop "__proto__" (default [] c.2)) = false) l →
  ∃ r2, Cache.lookups l r = Ok r2.
Proof.
  intros Hl. revert r. induction Hl as [|[u o] l [Hh Hp] _ IH]; intros r.
  { by exists r. }
  rewrite lookups_cons. simpl in Hh, Hp.
  destruct (Source_initialize_Ok u o Hh Hp) as (x & Hx & _).
  unfold Cache.getSourceForUrl.
  destruct (Js.get u (Cache.sources r)); cbn [mbind result_bind];
    [apply IH |].
  destruct (Js.inherits u); cbn [mbind result_bind]; [apply IH |].
  rewrite Hx. cbn [mbind result_bind]. apply IH.
Qed.

(** X15. The cache after any run of lookups, from the empty cache.  The
    run returns when every [options] is one the constructor of a Source
    accepts.  When it has returned: for a URL that names no member of
    [Object.prototype], the Source kept is the one built with the options
    of the first lookup of that URL, the options of later lookups having
    no effect, and a URL that was not looked up has no Source; a URL that
    names a member of [Object.prototype] never has one; and two URLs
    never share a Source. *)
Theorem cache_holds_first_options
    (l : list (string * option (Js.obj value))) :
  let empty := {| Cache.heap := []; Cache.sources := [] |} in
  (Forall (fun c : string * option (Js.obj value) =>
             Js.has "hasOwnProperty" (default [] c.2) = false ∧
             is_prototype (prop "__proto__" (default [] c.2)) = false) l →
   ∃ r, Cache.lookups l empty = Ok r) ∧
  ∀ r, Cache.lookups l empty = Ok r →
    (∀ url, Js.inherits url = false →
       match list_find (fun c => c.1 = url) l with
       | Some (_, c) =>
           ∃ s x, Js.get url (Cache.sources r) = Some s ∧
                  Source.initialize url c.2 = Ok x ∧
                  Cache.heap r !! s = Some x
       | None => Js.get url (Cache.sources r) = None
       end) ∧
    (∀ url, Js.inherits url = true → Js.get url (Cache.sources r) = None) ∧
    (∀ url url' s,
       Js.get url (Cache.sources r) = Some s →
       Js.get url' (Cache.sources r) = Some s → url = url').
Proof.
  intros empty. split; [apply lookups_Ok |].
  intros r Hl. split; [| split].
  - intros url Hi. by apply (lookups_first l empty).
  - by apply (lookups_inherited l empty).
  - intros url url' s Hs Hs'.
    assert (Hok : Cache.ok r) by (by apply (ok_lookups l empty)).
    destruct (Hok url s Hs) as (x & Hx & <-).
    destruct (Hok url' s Hs') as (x' & Hx' & <-). congruence.
Qed.

(** X16. [wms.layer(url, name)] passes its second argument on as the
    layer name and no options at all.  For a URL that names no member of
    [Object.prototype] and that the cache does not hold, the Source it
    creates is built without options, and the next Layer for that URL
    shares this Source and leaves the cache alone, as does [getLayer].
    For a URL that names a member of [Object.prototype], the Layer gets
    that member for its Source and the cache stays as it is. *)
Theorem layer_factory_shares_source url (n1 n2 : string) r :
  Js.get url (Cache.sources r) = None →
  (Js.inherits url = true →
   Layer.layer (inl url) n1 r =
   Ok ({| Layer._source := Cache.Inherited url; Layer._name := n1 |}, r)) ∧
  (Js.inherits url = false →
   ∃ l1 l2 r1 s x,
    Layer.layer (inl url) n1 r = Ok (l1, r1) ∧
    Layer.layer (inl url) n2 r1 = Ok (l2, r1) ∧
    Layer._name l1 = n1 ∧ Layer._name l2 = n2 ∧
    Layer._source l1 = Cache.Source_at s ∧
    Layer._source l2 = Cache.Source_at s ∧
    Source.initialize url None = Ok x ∧
    Cache.heap r1 !! s = Some x ∧
    Layer.getLayer s n2 r1 = Ok (l2, r1)).
Proof.
  intros Hn. unfold Layer.getLayer, Layer.layer, Layer.initialize. split.
  - intros Hi. by rewrite getSourceForUrl_inherited.
  - intros Hi. destruct (Source_initialize_None url) as (x & Hx & _).
    rewrite (getSourceForUrl_new url None r x Hi Hn Hx).
    cbn [mbind result_bind].
    set (r1 := {| Cache.heap := _; Cache.sources := _ |}).
    assert (Hg : Js.get url (Cache.sources r1) = Some (length (Cache.heap r)))
      by (simpl; by apply get_set_eq, inherits_proto).
    exists {| Layer._source := Cache.Source_at (length (Cache.heap r));
              Layer._name := n1 |},
      {| Layer._source := Cache.Source_at (length (Cache.heap r));
         Layer._name := n2 |}, r1, (length (Cache.heap r)), x.
    rewrite (getSourceForUrl_cached url None r1 _ Hg).
    repeat split; try done. simpl. by apply list_lookup_middle.
Qed.

(** X17. A Layer whose name is neither empty nor [__proto__], added to
    the map, puts its Source on the map if it is not there, and
    registers its name: the Overlay is then on the map and asks for the
    registered names.  Removing the Layer unregisters the
    name, and takes the Overlay off the map if no name is left; the
    Source stays on the map. *)
Theorem layer_shows_and_hides (name : string) w :
  src_map (src w) = hasLayer LSource w →
  Source.consistent w → Overlay.crs_ok w →
  NoDup (Js.keys (_subLayers (src w))) →
  "" ∉ Js.keys (_subLayers (src w)) → Source.plain_name name →
  ∃ w1 w2,
    Layer.onAdd name w = Ok w1 ∧
    hasLayer LSource w1 = true ∧ src_map (src w1) = true ∧
    hasLayer LOverlay w1 = true ∧
    list_to_set (Js.keys (_subLayers (src w1))) =@{gset string}
      {[name]} ∪ list_to_set (Js.keys (_subLayers (src w))) ∧
    Js.get "layers" (wmsParams (ov w1)) =
      Some (VStr (join "," (Js.keys (_subLayers (src w1))))) ∧
    Layer.onRemove name w1 = Ok w2 ∧
    hasLayer LSource w2 = true ∧ src_map (src w2) = true ∧
    list_to_set (Js.keys (_subLayers (src w2))) =@{gset string}
      list_to_set (Js.keys (_subLayers (src w))) ∖ {[name]} ∧
    (hasLayer LOverlay w2 = true ↔ Js.keys (_subLayers (src w2)) ≠ []).
Proof.
  intros Hsm Hcons Hcrs ND Hne Hname.
  assert (H0 : ∃ w0, (if negb (src_map (src w)) then Source.addTo w
                      else Ok w) = Ok w0 ∧
                     Source.ready w0 ∧ hasLayer LSource w0 = true ∧
                     _subLayers (src w0) = _subLayers (src w)).
  { destruct (src_map (src w)) eqn:Em; cbn [negb].
    - exists w. split; [done |]. split; [by repeat split |]. by split.
    - destruct (addTo_ready w) as (w0 & Ha & Hr0); try done.
      exists w0. split; [done |]. split; [done |].
      revert Ha. unfold Source.addTo, Source.onAdd. rewrite <- Hsm.
      intros [Hs Hl]%refreshOverlay_frame. rewrite Hs, Hl.
      split; [apply (hasLayer_register_eq LSource w) | done]. }
  destruct H0 as (w0 & Hw0 & Hr0 & Hl0 & Hsub0).
  destruct (sub_apply_spec (Source.AddSubLayer name) w0 Hr0 Hname)
    as (w1 & Ha & Hr1 & Hset1 & Hatt1 & Hlay1 & _).
  destruct (sub_apply_spec (Source.RemoveSubLayer name) w1 Hr1 Hname)
    as (w2 & Hrm & Hr2 & Hset2 & Hatt2 & _ & _).
  cbn zeta in *. simpl in Hset1, Hset2.
  assert (Hin : name ∈ Js.keys (_subLayers (src w1))).
  { apply (elem_of_list_to_set (C:=gset string)). rewrite Hset1.
    apply elem_of_union. left. by apply elem_of_singleton. }
  assert (Hnn : Js.keys (_subLayers (src w1)) ≠ []).
  { intros Hnil. rewrite Hnil in Hin. by apply elem_of_nil in Hin. }
  pose proof Ha as [Hs1 Hl1]%refreshOverlay_frame.
  pose proof Hrm as [Hs2 Hl2]%refreshOverlay_frame.
  change (hasLayer LSource w1 = hasLayer LSource w0) in Hl1.
  change (hasLayer LSource w2 = hasLayer LSource w1) in Hl2.
  exists w1, w2.
  split; [unfold Layer.onAdd; rewrite Hw0; exact Ha |].
  split; [rewrite Hl1; exact Hl0 |].
  split; [apply Hr1 |].
  split; [by apply Hatt1 |].
  split; [by rewrite Hset1, Hsub0 |].
  split; [by apply Hlay1 |].
  split; [exact Hrm |].
  split; [rewrite Hl2, Hl1; exact Hl0 |].
  split; [apply Hr2 |].
  split; [| done..].
  rewrite Hset2, Hset1, Hsub0. apply set_eq. intros x.
  rewrite !elem_of_difference, elem_of_union, elem_of_singleton.
  split; [intros [[? | ?] ?]; by split | intros [? ?]; split; auto].
Qed.

End LayerFacts.

(** ** The theorems at work on the sample worlds *)
Section Witnesses.
#[local] Existing Instance ZHost.types.
#[local] Existing Instance ZHost.host.

Lemma ready_attached : Source.ready Sample.attached.
Proof.
  repeat split; try reflexivity.
  - by eexists.
  - constructor.
  - apply not_elem_of_nil.
Defined.

(** Sub-layers [roads] and [rivers] are added and [roads] is removed
    again: the Overlay is on the map with [layers=rivers]. *)
Lemma sublayers_tracked_witness :
  Source.ready Sample.attached ∧
  ∃ w', Source.run
          ([Source.AddSubLayer "roads"; Source.AddSubLayer "rivers"]
             ++ [Source.RemoveSubLayer "roads"]) Sample.attached = Ok w' ∧
        hasLayer LOverlay w' = true ∧
        Js.get "layers" (wmsParams (ov w')) = Some (VStr "rivers").
Proof.
  split; [exact ready_attached |].
  destruct (sublayers_tracked Sample.attached
              [Source.AddSubLayer "roads"; Source.AddSubLayer "rivers"]
              (Source.RemoveSubLayer "roads") ready_attached)
    as (w1 & w' & _ & _ & Hrun & ND & Hset & Hatt & Hlay & _).
  { repeat constructor; discriminate. }
  exists w'. split; [exact Hrun |].
  vm_compute in Hrun. injection Hrun as <-.
  split; [reflexivity |]. apply Hlay. discriminate.
Defined.

(** The sample Source shows [roads]; [rivers] is added, [roads] is
    removed, then [rivers]: the parameter reads [roads,rivers], then
    [rivers], and at the end the Overlay is off the map. *)
Example sublayers_example :
  ∃ w1 w2 w3,
    Source.addSubLayer "rivers" Sample.showing = Ok w1 ∧
    Source.removeSubLayer "roads" w1 = Ok w2 ∧
    Source.removeSubLayer "rivers" w2 = Ok w3 ∧
    Js.get "layers" (wmsParams (ov w1)) = Some (VStr "roads,rivers") ∧
    Js.get "layers" (wmsParams (ov w2)) = Some (VStr "rivers") ∧
    hasLayer LOverlay w2 = true ∧
    hasLayer LOverlay w3 = false.
Proof.
  eexists _, _, _.
  split; [by vm_compute |]. split; [by vm_compute |].
  split; [by vm_compute |]. by vm_compute.
Qed.

(** C1, as stated, fails: once the last sub-layer is removed the Overlay
    is taken off the map but its [layers] parameter still names the
    sub-layer, while the join of the empty set is the empty string. *)
Lemma sublayers_layers_counterexample :
  ∃ w', Source.run [Source.AddSubLayer "roads"; Source.RemoveSubLayer "roads"]
          Sample.attached = Ok w' ∧
        Js.keys (_subLayers (src w')) = [] ∧
        join "," (Js.keys (_subLayers (src w'))) = "" ∧
        Js.get "layers" (wmsParams (ov w')) = Some (VStr "roads") ∧
        hasLayer LOverlay w' = false.
Proof. eexists. split; [by vm_compute |]. by vm_compute. Qed.

(** Version 1.1.1, corners NW = (10, 20) and SE = (5, 15), EPSG:3857:
    the bounding box is [10,15,5,20] under the key [srs]. *)
Lemma updateWmsParams_axis_order_witness :
  Overlay.chosen_crs Sample.viewport Sample.overlay_111 = Ok ZHost.EPSG3857 ∧
  ∃ o', Overlay.updateWmsParams Sample.viewport Sample.overlay_111 = Ok o' ∧
        Js.get "bbox" (wmsParams o') = Some (VStr "10,15,5,20") ∧
        Js.get "srs" (wmsParams o') = Some (VStr "EPSG:3857").
Proof.
  split; [reflexivity |].
  destruct (updateWmsParams_axis_order Sample.viewport Sample.overlay_111
              ZHost.EPSG3857 eq_refl) as (o' & Hu & Hb & Hk & _).
  exists o'. split; [exact Hu |]. split; [exact Hb | exact Hk].
Defined.

(** C4, as stated, fails twice: its example bounding box is not the one
    computed, and with version 1.3.0 in a reference system other than
    EPSG:4326 the key is [crs], not [srs]. *)
Lemma axis_order_counterexample :
  (∃ o', Overlay.updateWmsParams Sample.viewport Sample.overlay_111 = Ok o' ∧
         Js.get "bbox" (wmsParams o') = Some (VStr "10,15,5,20") ∧
         "10,15,5,20" ≠ "10,5,20,15") ∧
  (∃ o', Overlay.updateWmsParams Sample.viewport Sample.overlay_130 = Ok o' ∧
         Overlay.version_ge_1_3 Sample.overlay_130 = true ∧
         Overlay.chosen_crs Sample.viewport Sample.overlay_130
           = Ok ZHost.EPSG3857 ∧
         ZHost.EPSG3857 ≠ EPSG4326 ∧
         Js.get "bbox" (wmsParams o') = Some (VStr "10,15,5,20") ∧
         Js.get "crs" (wmsParams o') = Some (VStr "EPSG:3857") ∧
         Js.get "srs" (wmsParams o') = None).
Proof.
  split; eexists; (split; [by vm_compute |]); repeat split; done.
Qed.

(** With version 1.3.0 in EPSG:4326 the box is latitude-first. *)
Example axis_order_130_4326 :
  ∃ o', Overlay.updateWmsParams Sample.viewport Sample.overlay_130_4326
          = Ok o' ∧
        Js.get "bbox" (wmsParams o') = Some (VStr "15,10,20,5") ∧
        Js.get "crs" (wmsParams o') = Some (VStr "EPSG:4326").
Proof. eexists. split; [by vm_compute |]. by vm_compute. Qed.

(** The map moves twice before any image has loaded; the second image
    loads, then the first: the second one is displayed, the first is off
    the map. *)
Lemma last_requested_wins_witness :
  ∃ w3 w4,
    Overlay.image_load 2 Sample.moved_twice = Ok w3 ∧
    Overlay.image_load 1 w3 = Ok w4 ∧
    _currentOverlay (ov w3) = Some 2 ∧
    _currentOverlay (ov w4) = Some 2 ∧
    (LImage 1 ∉ m_layers (the_map w4)) ∧
    LImage 2 ∈ m_layers (the_map w4).
Proof.
  edestruct (proj1 last_requested_wins Sample.showing
               (Overlay.MoveEnd Sample.bounds_1 Sample.size)
               (Overlay.MoveEnd Sample.bounds_2 Sample.size)
               Sample.moved_once Sample.moved_twice)
    as (w3 & w4 & H3 & H4 & Hc3 & Hc4 & Hna & _ & _ & Hb & _).
  - intros c Hc. vm_compute in Hc. discriminate Hc.
  - by vm_compute.
  - by vm_compute.
  - by vm_compute.
  - by vm_compute.
  - by vm_compute.
  - exists w3, w4. repeat split; [exact H3 | exact H4 | exact Hc3 | exact Hc4
                                 | exact Hna | exact Hb].
Defined.

(** The viewport changed; the first [update] issues a request, the
    second does nothing. *)
Lemma update_idempotent_witness :
  Overlay.update
    (with_map Sample.showing
       (map_with_view (the_map Sample.showing) Sample.bounds_1 Sample.size))
    = Ok Sample.moved_once ∧
  Overlay.update Sample.moved_once = Ok Sample.moved_once.
Proof.
  assert (Hu : Overlay.update
                 (with_map Sample.showing
                    (map_with_view (the_map Sample.showing)
                       Sample.bounds_1 Sample.size)) = Ok Sample.moved_once)
    by by vm_compute.
  split; [exact Hu |].
  exact (proj1 (proj2 (update_idempotent _) _ Hu)).
Defined.

(** A request that comes back with status 404. *)
Lemma transport_failure_falls_back_witness :
  ∃ x w',
    requests Sample.querying !! 0 = Some x ∧
    Source.change 0 4 404 "Not Found" Sample.querying = Ok w' ∧
    m_popup (the_map w') =
      Some ("<iframe src='" +:+ x_url x +:+ "' style='border:none'>",
            x_latlng x).
Proof.
  eexists _, _. split; [reflexivity |].
  split.
  - apply (proj1 (transport_failure_falls_back Sample.querying 0 _ 404
                    "Not Found" eq_refl)). lia.
  - by vm_compute.
Defined.

(** C5, as stated, fails: a response with status 200 whose body is the
    string "error" is not handed on unchanged; the hook gets the frame. *)
Lemma transport_success_counterexample :
  ∃ x w',
    requests Sample.querying !! 0 = Some x ∧
    Source.change 0 4 200 "error" Sample.querying = Ok w' ∧
    m_popup (the_map w') =
      Some ("<iframe src='" +:+ x_url x +:+ "' style='border:none'>",
            x_latlng x) ∧
    m_popup (the_map w') ≠ Some ("error", x_latlng x).
Proof.
  eexists _, _. split; [reflexivity |]. split; [reflexivity |].
  split; [by vm_compute | by vm_compute].
Qed.

(** The first image of the sample fails to load: the configured callback
    is called with its address. *)
Lemma image_error_reports_or_swallows_witness :
  ∃ g, images Sample.showing !! 0 = Some g ∧
       onError (ov Sample.showing) = VFun 7 ∧
       Overlay.image_error 0 Sample.showing =
       Ok (with_calls Sample.showing
             [CallOnError 7 "Failed to load layer" (io_url g)]).
Proof.
  eexists. split; [reflexivity |]. split; [reflexivity |].
  exact (proj1 (image_error_reports_or_swallows Sample.showing 0 _ eq_refl)
           7 eq_refl).
Defined.

(** [setParams({styles: 'dark', width: 1, bbox: '0,0,1,1'})]: the style
    is taken, the width and the box are the viewport's, and a second
    image is requested, for the new URL. *)
Lemma setParams_merges_then_viewport_wins_witness :
  ov_map (ov Sample.showing) = true ∧
  ∃ w', Overlay.setParams Sample.partial Sample.showing = Ok w' ∧
        Js.get "width" (wmsParams (ov w')) = Some (VNum 256%Z) ∧
        Js.get "bbox" (wmsParams (ov w')) = Some (VStr "10,15,5,20") ∧
        Js.get "styles" (wmsParams (ov w')) = Some (VStr "dark") ∧
        Js.get "layers" (wmsParams (ov w')) = Some (VStr "roads") ∧
        _currentUrl (ov w') = Some (Overlay.getImageUrl (ov w')) ∧
        length (images Sample.showing) = 1 ∧ length (images w') = 2.
Proof.
  split; [reflexivity |].
  destruct (setParams_merges_then_viewport_wins Sample.showing
              Sample.partial ZHost.EPSG3857) as [_ Hattached].
  - apply NoDup_keys_literal.
  - reflexivity.
  - by_evaluation.
  - destruct (Hattached eq_refl eq_refl)
      as (w' & Hs & Hw & _ & _ & Hb & Hother & Hurl & Himg).
    exists w'. split; [exact Hs |]. split; [exact Hw |]. split; [exact Hb |].
    split; [rewrite (Hother "styles") by by_evaluation; by vm_compute |].
    split; [rewrite (Hother "layers") by by_evaluation; by vm_compute |].
    split; [exact Hurl |]. split; [reflexivity |].
    vm_compute in Hs. injection Hs as <-. reflexivity.
Defined.

(** C7, as stated, fails: a property of [partial] named [__proto__] is
    not merged into the parameters, while the others are. *)
Lemma setParams_proto_counterexample :
  Js.get "__proto__" Sample.proto_partial = Some (VStr "x") ∧
  ∃ w', Overlay.setParams Sample.proto_partial Sample.showing = Ok w' ∧
        Js.get "styles" (wmsParams (ov w')) = Some (VStr "dark") ∧
        Js.get "__proto__" (wmsParams (ov w')) = None.
Proof. split; [done |]. eexists. split; [by vm_compute |]. by vm_compute. Qed.



(** The request of the sample comes back with status 500, or with
    status 200 and the body "error": either way the popup shows the
    frame; a body other than "error" is handed back as it is. *)
Lemma error_sentinel_is_in_band_witness :
  ∃ x w',
    requests Sample.querying !! 0 = Some x ∧
    Source.change 0 4 500 "Internal Server Error" Sample.querying = Ok w' ∧
    Source.change 0 4 200 "error" Sample.querying = Ok w' ∧
    m_popup (the_map w') =
      Some ("<iframe src='" +:+ x_url x +:+ "' style='border:none'>",
            x_latlng x) ∧
    Source.parseFeatureInfo "<p>roads</p>" (x_url x) = "<p>roads</p>".
Proof.
  destruct error_sentinel_is_in_band as (_ & Hother & Hchange & _).
  eexists _, _. split; [reflexivity |].
  destruct (Hchange Sample.querying 0 _ 500 "Internal Server Error" eq_refl)
    as [Hfail Hbody].
  split; [apply Hfail; lia |]. split; [exact Hbody |].
  split; [by vm_compute |]. apply Hother. discriminate.
Defined.



End Witnesses.

(** ** The further theorems at work on the sample worlds *)
Section FurtherWitnesses.
#[local] Existing Instance ZHost.types.
#[local] Existing Instance ZHost.host.

Lemma kept_sample_fresh : Events.kept Sample.fresh.
Proof.
  eapply (kept_fresh _ _ Sample.url
            (Some (Sample.or_else [] (Source.setOptions (Some Sample.options))))).
  vm_compute. reflexivity.
Defined.

Lemma kept_requested : Events.kept Sample.requested.
Proof.
  apply (kept_steps Sample.request_script Sample.fresh).
  - exact kept_sample_fresh.
  - vm_compute. reflexivity.
Defined.

Lemma crs_ok_requested : Overlay.crs_ok Sample.requested.
Proof. exists ZHost.EPSG3857. vm_compute. reflexivity. Defined.

(** The sample run: after it the second image is displayed and the
    first, which loaded too late, is off the map. *)
Lemma displayed_image_is_kept_witness :
  Events.steps Sample.script Sample.fresh = Ok Sample.after_script ∧
  Events.kept Sample.after_script ∧
  _currentOverlay (ov Sample.after_script) = Some 1 ∧
  m_layers (the_map Sample.after_script) = [LSource; LOverlay; LImage 1].
Proof.
  split; [vm_compute; reflexivity |]. split; [| split; reflexivity].
  eapply (displayed_image_is_kept Sample.viewport
            (Sample.new_source (Some Sample.options))
            Sample.url
            (Some (Sample.or_else [] (Source.setOptions (Some Sample.options))))
            _ _ Sample.script).
  - vm_compute. reflexivity.
  - vm_compute. reflexivity.
Defined.

(** The first image is awaited when the Overlay is removed: it stays on
    the map. *)
Lemma removal_strands_pending_image_witness :
  Events.kept Sample.requested ∧
  hasLayer LOverlay Sample.requested = true ∧
  m_layers (the_map (Overlay.removeFrom Sample.requested)) =
    [LSource; LImage 0] ∧
  LImage 0 ∈ m_layers (the_map (Overlay.removeFrom Sample.requested)).
Proof.
  split; [exact kept_requested |]. split; [reflexivity |].
  split; [vm_compute; reflexivity |].
  refine (proj1 (proj2 (removal_strands_pending_image Sample.requested 0 _
                          kept_requested _ _ _)));
    vm_compute; reflexivity.
Defined.

(** The Overlay is removed and added again: a second image is requested. *)
Lemma readding_requests_again_witness :
  Events.kept Sample.requested ∧ Overlay.crs_ok Sample.requested ∧
  ∃ w', Overlay.addTo (Overlay.removeFrom Sample.requested) = Ok w' ∧
        length (images w') = 2.
Proof.
  split; [exact kept_requested |]. split; [exact crs_ok_requested |].
  destruct (readding_requests_again Sample.requested kept_requested)
    as (_ & _ & _ & w' & g & Ha & Hi & _).
  - vm_compute. reflexivity.
  - exact crs_ok_requested.
  - by_evaluation.
  - exists w'. split; [exact Ha |]. rewrite Hi, length_app. reflexivity.
Defined.

(** [roads] is registered a second time. *)
Lemma sub_call_twice_is_once_witness :
  Source.sub_apply (Source.AddSubLayer "roads") Sample.attached =
    Ok Sample.showing ∧
  Source.sub_apply (Source.AddSubLayer "roads") Sample.showing =
    Ok Sample.showing.
Proof.
  split; [vm_compute; reflexivity |].
  apply (sub_call_twice_is_once (Source.AddSubLayer "roads") Sample.attached).
  vm_compute. reflexivity.
Defined.

(** The sample Source, with [roads] registered while it was on no map,
    is added to the map: the Overlay is put on the map and asks for
    [roads]. *)
Lemma source_addTo_shows_registered_witness :
  hasLayer LSource Sample.recorded = false ∧
  hasLayer LOverlay Sample.recorded = false ∧
  Js.keys (_subLayers (src Sample.recorded)) = ["roads"] ∧
  ∃ w', Source.addTo Sample.recorded = Ok w' ∧
        hasLayer LSource w' = true ∧ hasLayer LOverlay w' = true ∧
        Js.get "layers" (wmsParams (ov w')) = Some (VStr "roads").
Proof.
  split; [reflexivity |]. split; [reflexivity |]. split; [reflexivity |].
  destruct (source_addTo_shows_registered Sample.recorded)
    as (w' & Ha & _ & Hl & _ & Hatt & Hlay).
  - reflexivity.
  - reflexivity.
  - exists ZHost.EPSG3857. reflexivity.
  - by_evaluation.
  - exists w'. split; [exact Ha |]. split; [exact Hl |].
    split; [apply Hatt; discriminate | apply Hlay; discriminate].
Defined.

(** The Source that shows [roads] is removed from the map; then
    [__proto__] is added to the Source and [roads] is removed from it:
    no name is left, and the Overlay is still on the map. *)
Lemma removed_source_leaves_overlay_witness :
  hasLayer LSource Sample.showing = true ∧
  ∃ w', Source.run [Source.AddSubLayer "__proto__";
                    Source.RemoveSubLayer "roads"]
          (Source.removeFrom Sample.showing) = Ok w' ∧
        list_to_set (Js.keys (_subLayers (src w'))) =@{gset string} ∅ ∧
        hasLayer LOverlay w' = true.
Proof.
  split; [reflexivity |].
  destruct (removed_source_leaves_overlay Sample.showing
              [Source.AddSubLayer "__proto__"; Source.RemoveSubLayer "roads"])
    as (_ & _ & _ & _ & _ & w' & Hrun & _ & _ & _ & Hset).
  - reflexivity.
  - exists w'. split; [exact Hrun |]. split.
    + rewrite Hset. by_evaluation.
    + vm_compute in Hrun. injection Hrun as <-. reflexivity.
Defined.

(** A request at pixel (3, 4) of the Source that shows [roads]. *)
Lemma getFeatureInfoParams_overlay_mode_witness :
  NoDup (Js.keys (wmsParams (ov Sample.showing))) ∧
  ∃ params,
    Source.getFeatureInfoParams Sample.pixel ["roads"]
      Sample.showing = Ok (params, Sample.showing) ∧
    Js.get "request" params = Some (VStr "GetFeatureInfo") ∧
    Js.get "bbox" params = Some (VStr "10,15,5,20").
Proof.
  assert (ND : NoDup (Js.keys (wmsParams (ov Sample.showing))))
    by by_evaluation.
  split; [exact ND |].
  destruct (getFeatureInfoParams_overlay_mode Sample.pixel
              ["roads"] Sample.showing eq_refl ND)
    as (params & Hp & Hr & _ & _ & _ & Hk & _).
  exists params. split; [exact Hp |]. split; [exact Hr |].
  rewrite Hk by by_evaluation. vm_compute. reflexivity.
Defined.

(** ... and its response, a text: the popup shows it at (7, 8). *)
Lemma getFeatureInfo_waits_then_delivers_witness :
  src_map (src Sample.showing) = true ∧
  ∃ w1 w2,
    Source.getFeatureInfo Sample.pixel Sample.position ["roads"]
      ShowFeatureInfo Sample.showing = Ok w1 ∧
    m_cursor (the_map w1) = "progress" ∧
    Source.change 0 4 200 "a road" w1 = Ok w2 ∧
    m_cursor (the_map w2) = "default" ∧
    m_popup (the_map w2) = Some ("a road", Sample.position).
Proof.
  split; [reflexivity |].
  destruct (getFeatureInfo_waits_then_delivers Sample.pixel
              Sample.position ["roads"] ShowFeatureInfo Sample.showing
              eq_refl eq_refl)
    as (w1 & x & Hg & _ & _ & _ & Hc & _ & Hresp).
  destruct (Hresp 4 200 "a road") as (w2 & Hch & _ & Hdone).
  destruct (Hdone eq_refl) as (Hcur & Hpop & _).
  exists w1, w2. split; [exact Hg |]. split; [exact Hc |].
  split; [exact Hch |]. split; [exact Hcur |]. exact Hpop.
Defined.

(** The same request of the Source before it is on the map, with a
    function of the caller for its hook: no popup opens, the function is
    called with the text.  The request of the tiled Source, on no map,
    throws. *)
Lemma getFeatureInfo_off_map_witness :
  src_map (src Sample.start) = false ∧
  ∃ w1 w2,
    Source.getFeatureInfo Sample.pixel Sample.position ["roads"]
      (Callback 9) Sample.start = Ok w1 ∧
    Source.change 0 4 200 "a road" w1 = Ok w2 ∧
    m_popup (the_map w2) = None ∧
    calls w2 = [CallCallback 9 Sample.position "a road"] ∧
    Source.getFeatureInfo Sample.pixel Sample.position ["roads"]
      (Callback 9) Sample.tiled_detached =
    Throw "TypeError: map is undefined".
Proof.
  split; [reflexivity |].
  destruct (getFeatureInfo_off_map Sample.pixel Sample.position
              ["roads"] (Callback 9) Sample.start eq_refl)
    as [_ Hoff].
  destruct (Hoff eq_refl) as (w1 & x & Hg & _ & _ & Hresp).
  destruct (Hresp 200 "a road") as (w2 & Hch & Hmap & _ & _ & Hcalls).
  exists w1, w2. split; [exact Hg |]. split; [exact Hch |].
  split; [rewrite Hmap; reflexivity |].
  split; [rewrite Hcalls; reflexivity |].
  exact (proj1 (getFeatureInfo_off_map Sample.pixel Sample.position
                  ["roads"] (Callback 9) Sample.tiled_detached eq_refl)
           eq_refl eq_refl eq_refl).
Defined.

(** A click at pixel (3, 4), position (7, 8), on the map of the Source
    that shows [roads]. *)
Lemma identify_queries_sublayers_witness :
  Source.getIdentifyLayers Sample.showing = Some ["roads"] ∧
  ∃ w1 w2,
    Source.identify Sample.pixel Sample.position Sample.showing =
      Some (Ok w1) ∧
    Source.change 0 4 200 "a road" w1 = Ok w2 ∧
    m_popup (the_map w2) = Some ("a road", Sample.position).
Proof.
  destruct (identify_queries_sublayers Sample.pixel Sample.position
              Sample.showing eq_refl eq_refl eq_refl)
    as (Hl & _ & Hq).
  - by_evaluation.
  - split; [exact Hl |].
    destruct Hq as (w1 & x & params & Hi & _ & _ & _ & _ & _ & Hresp).
    + discriminate.
    + destruct (Hresp "a road") as (w2 & Hch & Hpop & _); [discriminate |].
      exists w1, w2. split; [exact Hi |]. split; [exact Hch | exact Hpop].
Defined.

(** The sample options name no version and the recognized [opacity]. *)
Lemma initialize_keeps_defaults_witness :
  ∃ ovl options',
    Overlay.initialize Sample.url (Some Sample.options) = Ok (ovl, options') ∧
    Js.get "version" (wmsParams ovl) = Some (VStr "1.1.1") ∧
    Js.get "opacity" (wmsParams ovl) = None.
Proof.
  assert (Hi : ∃ ovl options',
            Overlay.initialize Sample.url (Some Sample.options)
            = Ok (ovl, options')).
  { eexists _, _. vm_compute. reflexivity. }
  destruct Hi as (ovl & options' & Hi). exists ovl, options'.
  split; [exact Hi |].
  destruct (initialize_keeps_defaults Sample.url (Some Sample.options)
              "version" ovl options' Hi) as [Hv _].
  { right. by_evaluation. }
  destruct (initialize_keeps_defaults Sample.url (Some Sample.options)
              "opacity" ovl options' Hi) as [_ Ho].
  { left. by_evaluation. }
  split; [rewrite Hv; reflexivity | apply Ho; by_evaluation].
Defined.

(** The sample options hold the WMS parameter [layers]: the Source's
    options do not. *)
Lemma source_options_lose_parameters_witness :
  ∃ merged s o,
    Source.setOptions (Some Sample.options) = Ok merged ∧
    Js.get "layers" merged = Some (VStr "roads") ∧
    Source.initialize Sample.url (Some Sample.options) = Ok (s, inl o) ∧
    Js.get "layers" (src_options s) = None ∧
    Js.get "opacity" (src_options s) = Some (VNum 1%Z).
Proof.
  assert (Hm : ∃ merged, Source.setOptions (Some Sample.options) = Ok merged ∧
                 Js.get "layers" merged = Some (VStr "roads") ∧
                 truthy (prop "tiled" merged) = false ∧
                 Js.get "opacity" merged = Some (VNum 1%Z)).
  { eexists. split; [vm_compute; reflexivity |]. by vm_compute. }
  destruct Hm as (merged & Hs & Hl & Ht & Hop).
  destruct (source_options_lose_parameters Sample.url (Some Sample.options)
              merged Hs Ht)
    as (s & o & Hi & _ & _ & _ & _ & _ & Hrec & Hno & _).
  exists merged, s, o. split; [exact Hs |]. split; [exact Hl |].
  split; [exact Hi |]. split.
  - apply Hno. by_evaluation.
  - rewrite Hrec by by_evaluation. exact Hop.
Defined.

(** The tiled Source has [styles] among its options, until its first
    request. *)
Lemma tiled_request_strips_options_witness :
  Js.get "styles" (src_options (src Sample.tiled)) = Some (VStr "dark") ∧
  ∃ params w1,
    Source.getFeatureInfoParams Sample.pixel ["roads"]
      Sample.tiled = Ok (params, w1) ∧
    Js.get "styles" (src_options (src w1)) = None ∧
    Js.get "layers" params = Some (VStr "roads").
Proof.
  split; [reflexivity |].
  assert (H : ∃ params w1,
            Source.getFeatureInfoParams Sample.pixel ["roads"]
              Sample.tiled = Ok (params, w1)).
  { eexists _, _. vm_compute. reflexivity. }
  destruct H as (params & w1 & H).
  destruct (tiled_request_strips_options Sample.pixel ["roads"]
              Sample.tiled params w1 eq_refl H)
    as (_ & Hno & _ & Hl & _).
  exists params, w1. split; [exact H |]. split; [| exact Hl].
  apply Hno. by_evaluation.
Defined.

(** Two lookups of the sample URL, the second with options: the Source
    kept is the one built without. *)
Lemma cache_holds_first_options_witness :
  ∃ r s x,
    Cache.lookups
      [(Sample.url, None);
       (Sample.url, Some (Js.literal [("tiled", VBool true)]))]
      Sample.empty_registry = Ok r ∧
    Js.get Sample.url (Cache.sources r) = Some s ∧
    Source.initialize Sample.url None = Ok x ∧
    Cache.heap r !! s = Some x.
Proof.
  destruct (cache_holds_first_options
              [(Sample.url, None);
               (Sample.url, Some (Js.literal [("tiled", VBool true)]))])
    as [Hret Hprop].
  destruct Hret as [r Hr].
  { repeat constructor. }
  destruct (Hprop r Hr) as (Hfirst & _).
  destruct (Hfirst Sample.url eq_refl) as (s & x & Hs & Hx & Hh).
  by exists r, s, x.
Defined.

(** Two Layers for the sample URL, from the empty cache; and a Layer
    for the URL [valueOf]. *)
Lemma layer_factory_shares_source_witness :
  (∃ l1 l2 r1,
    Layer.layer (inl Sample.url) "roads" Sample.empty_registry = Ok (l1, r1) ∧
    Layer.layer (inl Sample.url) "rivers" r1 = Ok (l2, r1) ∧
    Layer._source l1 = Layer._source l2) ∧
  Layer.layer (inl "valueOf") "roads" Sample.empty_registry =
  Ok ({| Layer._source := Cache.Inherited "valueOf";
         Layer._name := "roads" |}, Sample.empty_registry).
Proof.
  split.
  - destruct (layer_factory_shares_source Sample.url "roads" "rivers"
                Sample.empty_registry eq_refl) as [_ Hplain].
    destruct (Hplain eq_refl)
      as (l1 & l2 & r1 & s & x & H1 & H2 & _ & _ & Hs1 & Hs2 & _).
    exists l1, l2, r1. split; [exact H1 |]. split; [exact H2 |].
    by rewrite Hs1, Hs2.
  - exact (proj1 (layer_factory_shares_source "valueOf" "roads" "rivers"
                    Sample.empty_registry eq_refl) eq_refl).
Defined.

(** A Layer [rivers] of the sample Source is added to the map, and
    removed. *)
Lemma layer_shows_and_hides_witness :
  ∃ w1 w2,
    Layer.onAdd "rivers" Sample.start = Ok w1 ∧
    hasLayer LSource w1 = true ∧ hasLayer LOverlay w1 = true ∧
    Layer.onRemove "rivers" w1 = Ok w2 ∧
    hasLayer LSource w2 = true.
Proof.
  destruct (layer_shows_and_hides "rivers" Sample.start)
    as (w1 & w2 & Ha & Hs1 & _ & Ho1 & _ & _ & Hr & Hs2 & _).
  - reflexivity.
  - reflexivity.
  - exists ZHost.EPSG3857. reflexivity.
  - constructor.
  - apply not_elem_of_nil.
  - split; discriminate.
  - exists w1, w2. split; [exact Ha |]. split; [exact Hs1 |].
    split; [exact Ho1 |]. split; [exact Hr | exact Hs2].
Defined.

(** The first image fails to load: the caller is told, and a further
    update requests nothing. *)
Lemma failed_image_is_not_retried_witness :
  ∃ w2, Overlay.image_error 0 Sample.requested = Ok w2 ∧
        calls w2 ≠ [] ∧
        Overlay.update w2 = Ok w2.
Proof.
  assert (H : ∃ w2, Overlay.image_error 0 Sample.requested = Ok w2).
  { eexists. vm_compute. reflexivity. }
  destruct H as (w2 & H). exists w2. split; [exact H |]. split.
  - vm_compute in H. injection H as <-. discriminate.
  - apply (failed_image_is_not_retried Sample.requested Sample.requested w2 0);
      [vm_compute; reflexivity | exact H].
Defined.

(** The image of the Overlay with [opacity: 0] loads: it is displayed
    with opacity 1. *)
Lemma loaded_image_replaces_displayed_witness :
  prop "opacity" (ov_options (ov Sample.faint)) = VNum 0%Z ∧
  ∃ w', Overlay.image_load 0 Sample.faint = Ok w' ∧
        _currentOverlay (ov w') = Some 0 ∧
        io_opacity <$> (images w' !! 0) = Some (VNum 1%Z).
Proof.
  split; [reflexivity |].
  assert (K : Events.kept Sample.faint).
  { apply (kept_steps [Events.OverlayAdd] Sample.faint_fresh).
    - eapply (kept_fresh _ _ Sample.url (Some Sample.faint_options)).
      vm_compute. reflexivity.
    - vm_compute. reflexivity. }
  assert (Hg : ∃ g, images Sample.faint !! 0 = Some g ∧
                    io_load_once g = true ∧
                    _currentUrl (ov Sample.faint) = Some (io_url g)).
  { eexists. split; [vm_compute; reflexivity |].
    split; vm_compute; reflexivity. }
  destruct Hg as (g & Hg & Hlo & Hu).
  destruct (loaded_image_replaces_displayed Sample.faint 0 g K Hg Hlo
              eq_refl Hu)
    as (w' & Hl & Hc & _ & Hi & _).
  exists w'. split; [exact Hl |]. split; [exact Hc |].
  rewrite Hi. reflexivity.
Defined.

(** The map of the Source that shows [roads] moves: the image requested
    before stays on the map. *)
Lemma triggers_keep_displayed_witness :
  Overlay.fire (Overlay.MoveEnd Sample.bounds_1 Sample.size) Sample.showing =
    Ok Sample.moved_once ∧
  LImage 0 ∈ m_layers (the_map Sample.moved_once) ∧
  length (images Sample.moved_once) = 2.
Proof.
  assert (H : Overlay.fire (Overlay.MoveEnd Sample.bounds_1 Sample.size)
                Sample.showing = Ok Sample.moved_once)
    by (vm_compute; reflexivity).
  split; [exact H |]. split; [| reflexivity].
  destruct (triggers_keep_displayed _ _ _ H) as (_ & Hl & _).
  apply Hl. by_evaluation.
Defined.

End FurtherWitnesses.
